(** * The streaming pipeline of transcriptor (pipeline/streaming.py)

    A shallow embedding of [StreamingPipeline]: the per-(file, stage) state
    files, the seven stage queues, the seven worker loops, [start_processing],
    [start_workers], [stop_workers] and [process_file], followed by the
    properties of the orchestrator that the specification states about them.
    Then the code around it: the dict form of a state record, the audio
    preprocessor, the speech segmenter and the diarizer that the stages
    call, and the conversion with which the main window takes the result.

    Conventions of the embedding.
    - Python values are the type [pyval]; numbers are binary64 floats (a
      Python int that occurs here, such as [0] or [2], is the float of the
      same value).
    - A Python [str] is held as the bytes of its UTF-8 text. A [str] that
      has no UTF-8 text, one with a lone surrogate, which is what Python
      makes of a file name that is not UTF-8, is therefore no value of the
      embedding. For such a path [get_state_file_path] raises
      [UnicodeEncodeError] at its [encode()], and [save_state] and
      [load_state] call it before they enter their [try]: that error does
      reach their caller, and nothing here is about it.
    - A Python exception is the [Raise] result of the monads [res] (pure
      code) and [M] (code that touches the pipeline's mutable state).
    - The threads are not modelled: a worker loop is its iteration function,
      and [drain] is one sequential schedule of the iterations. *)

From stdpp Require Import base option list gmap strings.
From Stdlib Require Import PrimFloat ZArith.
From Stdlib Require Uint63.
From Stdlib Require Import SpecFloat FloatOps FloatAxioms.
From Stdlib Require DecimalString DecimalNat.

Open Scope string_scope.
Open Scope list_scope.

(** ** Python values *)

#[local] Set Warnings "-register-all".

Inductive pyval : Type :=
| PyNone
| PyBool (b : bool)
| PyNum (x : float)
| PyStr (s : string)
| PyList (xs : list pyval)
| PyDict (kvs : list (string * pyval))
| PyObject (cls : string) (fields : list (string * pyval)).

(** The exceptions the pipeline code can meet. Every handler of the pipeline
    is [except Exception], so the kind never changes the control flow. *)
Inductive exn : Type :=
| KeyError | TypeError | IndexError | OSError | CollaboratorError (msg : string).

Inductive res (A : Type) : Type :=
| Ok (a : A)
| Raise (e : exn).
Arguments Ok {A} a.
Arguments Raise {A} e.

Definition res_bind {A B} (m : res A) (k : A -> res B) : res B :=
  match m with
  | Ok a => k a
  | Raise e => Raise e
  end.

Declare Scope res_scope.
Delimit Scope res_scope with res.
Notation "x <~ m ;; k" := (res_bind m (fun x => k))
  (at level 100, m at next level, right associativity) : res_scope.

(** [bool(v)]. A dataclass instance defines neither [__bool__] nor
    [__len__] and is always true. *)
Definition py_truthy (v : pyval) : bool :=
  match v with
  | PyNone => false
  | PyBool b => b
  | PyNum x => negb (PrimFloat.eqb x 0)
  | PyStr s => negb (String.eqb s "")
  | PyList xs => match xs with [] => false | _ => true end
  | PyDict kvs => match kvs with [] => false | _ => true end
  | PyObject _ _ => true
  end.

(** [x or None] *)
Definition py_or_none (v : pyval) : pyval := if py_truthy v then v else PyNone.

(** A number, with [bool] a subtype of [int]. *)
Definition as_number (v : pyval) : option float :=
  match v with
  | PyNum x => Some x
  | PyBool true => Some 1%float
  | PyBool false => Some 0%float
  | _ => None
  end.

Definition py_sub (a b : pyval) : res float :=
  match as_number a, as_number b with
  | Some x, Some y => Ok (x - y)%float
  | _, _ => Raise TypeError
  end.

(** [x / 2] on a number already computed *)
Definition py_half (x : float) : float := (x / 2)%float.

Definition py_add (a : pyval) (y : float) : res float :=
  match as_number a with
  | Some x => Ok (x + y)%float
  | None => Raise TypeError
  end.

(** [a <= m] and [m <= b] with [m] a float *)
Definition py_le_l (a : pyval) (m : float) : res bool :=
  match as_number a with
  | Some x => Ok (PrimFloat.leb x m)
  | None => Raise TypeError
  end.

Definition py_le_r (m : float) (b : pyval) : res bool :=
  match as_number b with
  | Some y => Ok (PrimFloat.leb m y)
  | None => Raise TypeError
  end.

(** [start <= m <= end]: the right comparison is evaluated only when the
    left one is true. *)
Definition chained_le (start : pyval) (m : float) (end_ : pyval) : res bool :=
  (c <~ py_le_l start m ;;
   if c then py_le_r m end_ else Ok false)%res.

(** ** Insertion-ordered dictionaries *)

Section PyDictOps.
Context {K V : Type} (keq : K -> K -> bool).

(** [d[k]], [None] standing for [KeyError] *)
Fixpoint dict_get (k : K) (d : list (K * V)) : option V :=
  match d with
  | [] => None
  | (k', v) :: d' => if keq k' k then Some v else dict_get k d'
  end.

(** [d[k] = v]: an existing key keeps its position (and its key object)
    and takes the new value; a new key goes to the end. *)
Fixpoint dict_setitem (k : K) (v : V) (d : list (K * V)) : list (K * V) :=
  match d with
  | [] => [(k, v)]
  | (k', v') :: d' =>
      if keq k' k then (k', v) :: d' else (k', v') :: dict_setitem k v d'
  end.

Definition dict_has (k : K) (d : list (K * V)) : bool :=
  match dict_get k d with Some _ => true | None => false end.
End PyDictOps.

(** [v[key]] with a string key *)
Definition py_getitem (v : pyval) (key : string) : res pyval :=
  match v with
  | PyDict kvs =>
      match dict_get String.eqb key kvs with
      | Some x => Ok x
      | None => Raise KeyError
      end
  | _ => Raise TypeError
  end.

(** [v[key] = x] with a string key *)
Definition py_setitem (v : pyval) (key : string) (x : pyval) : res pyval :=
  match v with
  | PyDict kvs => Ok (PyDict (dict_setitem String.eqb key x kvs))
  | _ => Raise TypeError
  end.

Fixpoint is_prefix (p s : string) : bool :=
  match p, s with
  | EmptyString, _ => true
  | String a p', String b s' => Ascii.eqb a b && is_prefix p' s'
  | String _ _, EmptyString => false
  end.

Fixpoint is_substring (p s : string) : bool :=
  is_prefix p s ||
  match s with
  | EmptyString => false
  | String _ s' => is_substring p s'
  end.

(** [key in v] with a string key: key membership for a dict, element
    membership for a list, substring test for a string. *)
Definition py_contains (key : string) (v : pyval) : res bool :=
  match v with
  | PyDict kvs => Ok (dict_has String.eqb key kvs)
  | PyList xs =>
      Ok (existsb (fun x => match x with PyStr s => String.eqb s key | _ => false end) xs)
  | PyStr s => Ok (is_substring key s)
  | _ => Raise TypeError
  end.

Fixpoint chars_of (s : string) : list pyval :=
  match s with
  | EmptyString => []
  | String a s' => PyStr (String a EmptyString) :: chars_of s'
  end.

(** [for x in v] *)
Definition py_iter (v : pyval) : res (list pyval) :=
  match v with
  | PyList xs => Ok xs
  | PyDict kvs => Ok (map (fun kv => PyStr (fst kv)) kvs)
  | PyStr s => Ok (chars_of s)
  | _ => Raise TypeError
  end.

(** [len(v)] *)
Definition py_len (v : pyval) : res nat :=
  match v with
  | PyList xs => Ok (length xs)
  | PyDict kvs => Ok (length kvs)
  | PyStr s => Ok (String.length s)
  | _ => Raise TypeError
  end.

(** [json.dump] accepts [None], booleans, numbers, strings, lists and dicts
    with string keys; an object of any other class raises [TypeError]. *)
Fixpoint json_serializable (v : pyval) : bool :=
  match v with
  | PyNone | PyBool _ | PyNum _ | PyStr _ => true
  | PyList xs => forallb json_serializable xs
  | PyDict kvs => forallb (fun kv => match kv with (_, x) => json_serializable x end) kvs
  | PyObject _ _ => false
  end.

(** [dataclasses.asdict] on the flat dataclasses of this program *)
Definition asdict (v : pyval) : res pyval :=
  match v with
  | PyObject _ fields => Ok (PyDict fields)
  | _ => Raise TypeError
  end.

(** Sequencing of a fallible loop body over a list, left to right *)
Fixpoint res_map {A B} (f : A -> res B) (l : list A) : res (list B) :=
  match l with
  | [] => Ok []
  | x :: l' =>
      (y <~ f x ;;
       ys <~ res_map f l' ;;
       Ok (y :: ys))%res
  end.

(** ** Stages and state records *)

Inductive ProcessingStage : Type :=
| EXTRACT_AUDIO
| VAD_SEGMENTATION
| TRANSCRIPTION
| ALIGNMENT
| DIARIZATION
| MERGE_SEGMENTS
| EXPORT.

#[global] Instance ProcessingStage_eq_dec : EqDecision ProcessingStage.
Proof. solve_decision. Defined.

Definition stage_value (s : ProcessingStage) : string :=
  match s with
  | EXTRACT_AUDIO => "extract_audio"
  | VAD_SEGMENTATION => "vad_segmentation"
  | TRANSCRIPTION => "transcription"
  | ALIGNMENT => "alignment"
  | DIARIZATION => "diarization"
  | MERGE_SEGMENTS => "merge_segments"
  | EXPORT => "export"
  end.

(** [status] is a plain [str] in the source: "pending", "running",
    "completed" or "failed" by convention only. [timestamp] is epoch time,
    kept in whole seconds. *)
Record ProcessingState : Type := mkState {
  file_path : string;
  stage : ProcessingStage;
  status : string;
  progress : float;
  result : pyval;
  error : option string;
  timestamp : Z
}.

Definition set_status (v : string) (st : ProcessingState) : ProcessingState :=
  mkState (file_path st) (stage st) v (progress st) (result st) (error st) (timestamp st).
Definition set_progress (v : float) (st : ProcessingState) : ProcessingState :=
  mkState (file_path st) (stage st) (status st) v (result st) (error st) (timestamp st).
Definition set_result (v : pyval) (st : ProcessingState) : ProcessingState :=
  mkState (file_path st) (stage st) (status st) (progress st) v (error st) (timestamp st).
Definition set_error (v : string) (st : ProcessingState) : ProcessingState :=
  mkState (file_path st) (stage st) (status st) (progress st) (result st) (Some v) (timestamp st).
Definition set_timestamp (v : Z) (st : ProcessingState) : ProcessingState :=
  mkState (file_path st) (stage st) (status st) (progress st) (result st) (error st) v.

(** [state and state.status == "completed"] *)
Definition is_completed (state : option ProcessingState) : bool :=
  match state with
  | Some st => String.eqb (status st) "completed"
  | None => false
  end.

(** ** The mutable state of a pipeline *)

(** What a state file holds: the JSON text of a record, or text that
    [json.load] rejects (a file opened for writing whose dump did not
    finish). *)
Inductive file_content : Type :=
| JsonOf (st : ProcessingState)
| Unparseable.

Inductive call : Type :=
| CallPreprocessor (file_path : string)
| CallVad (audio_path : pyval)
| CallTranscriber (device : string) (segment_path language : pyval)
| CallAligner (segments audio_path language : pyval)
| CallDiarizer (audio_path : pyval).

(** What an observer of a run sees, oldest first. A callback event holds
    the fields of the state object at the time of the call. *)
Inductive event : Type :=
| EvProgress (state : ProcessingState)
| EvCompletion (file_path : string) (result : pyval)
| EvCall (c : call)
| EvLogError (msg : string)
| EvLogWarning (msg : string).

(** [states_dir] is the directory of state files, by file name;
    [disk_fault] tells the names whose writing meets an [OSError], and
    [fault_after_open] tells, for those, when: at the [open(.., 'w')]
    itself, which then leaves the file alone, or only after it, at the
    dump, the flush or the close, when [open] has already emptied the file;
    [queues] holds the seven stage queues, [None] being the shutdown
    signal. *)
Record world : Type := mkWorld {
  states_dir : gmap string file_content;
  disk_fault : string -> bool;
  queues : ProcessingStage -> list (option string);
  trace : list event;
  clock : Z;
  fault_after_open : string -> bool
}.

Definition with_states_dir (d : gmap string file_content) (w : world) : world :=
  mkWorld d (disk_fault w) (queues w) (trace w) (clock w) (fault_after_open w).
Definition with_queues (q : ProcessingStage -> list (option string)) (w : world) : world :=
  mkWorld (states_dir w) (disk_fault w) q (trace w) (clock w) (fault_after_open w).
Definition with_trace (t : list event) (w : world) : world :=
  mkWorld (states_dir w) (disk_fault w) (queues w) t (clock w) (fault_after_open w).
Definition with_clock (c : Z) (w : world) : world :=
  mkWorld (states_dir w) (disk_fault w) (queues w) (trace w) c (fault_after_open w).

(** The seven queues of the source, each named after its stage *)
Abbreviation extraction_queue := EXTRACT_AUDIO (only parsing).
Abbreviation vad_queue := VAD_SEGMENTATION (only parsing).
Abbreviation transcription_queue := TRANSCRIPTION (only parsing).
Abbreviation alignment_queue := ALIGNMENT (only parsing).
Abbreviation diarization_queue := DIARIZATION (only parsing).
Abbreviation merge_queue := MERGE_SEGMENTS (only parsing).
Abbreviation export_queue := EXPORT (only parsing).

(** The world with the queue [q] holding [l] *)
Definition queue_set (q : ProcessingStage) (l : list (option string)) (w : world) : world :=
  with_queues (fun s => if decide (s = q) then l else queues w s) w.

Definition log_event (e : event) (w : world) : world :=
  with_trace (trace w ++ [e]) w.

Definition write_file (name : string) (c : file_content) (w : world) : world :=
  with_states_dir (<[name := c]> (states_dir w)) w.

(** ** The monad of pipeline code: state and exceptions *)

Definition M (A : Type) : Type := world -> res A * world.

Definition M_ret {A} (a : A) : M A := fun w => (Ok a, w).

Definition M_bind {A B} (m : M A) (k : A -> M B) : M B :=
  fun w =>
    match m w with
    | (Ok a, w') => k a w'
    | (Raise e, w') => (Raise e, w')
    end.

Declare Scope M_scope.
Delimit Scope M_scope with M.
Notation "x <- m ;; k" := (M_bind m (fun x => k))
  (at level 100, m at next level, right associativity) : M_scope.
Notation "'do' m ;; k" := (M_bind m (fun _ => k))
  (at level 100, m at next level, right associativity) : M_scope.

Definition gets {A} (f : world -> A) : M A := fun w => (Ok (f w), w).
Definition modify (f : world -> world) : M unit := fun w => (Ok tt, f w).
Definition lift {A} (r : res A) : M A := fun w => (r, w).

(** [try: body / except Exception as e: handler(e)]. What the body did
    before it raised stays done. *)
Definition try_except {A} (body : M A) (handler : exn -> M A) : M A :=
  fun w =>
    match body w with
    | (Ok a, w') => (Ok a, w')
    | (Raise e, w') => handler e w'
    end.

Definition emit (e : event) : M unit := modify (log_event e).

Definition logger_error (msg : string) : M unit := emit (EvLogError msg).
Definition logger_warning (msg : string) : M unit := emit (EvLogWarning msg).

Definition time_time : M Z := gets clock.

Definition queue_put (q : ProcessingStage) (item : option string) : M unit :=
  modify (fun w => queue_set q (queues w q ++ [item]) w).

(** ** The state store *)

(** The source names the file by the MD5 digest of [file_path_stage]; the
    digest is taken as injective and the file is named by the digested
    string itself. The string is digested as [encode()] gives it, in UTF-8:
    the strings of the embedding are such encoded texts, so the call always
    gives a name here. *)
Definition get_state_file_path (file_path : string) (stage : ProcessingStage) : string :=
  file_path +:+ "_" +:+ stage_value stage.

(** The disk refuses to open the file for writing. *)
Definition open_fails (w : world) (state_file : string) : bool :=
  disk_fault w state_file && negb (fault_after_open w state_file).

(** The disk opens the file and fails the writing of it. *)
Definition write_fails (w : world) (state_file : string) : bool :=
  disk_fault w state_file && fault_after_open w state_file.

(** [open(state_file, 'w')]: creates or empties the file, or raises
    [OSError] and leaves the directory as it is *)
Definition open_w (state_file : string) : M unit :=
  fun w =>
    if open_fails w state_file then (Raise OSError, w)
    else (Ok tt, write_file state_file Unparseable w).

(** [json.dump(state.to_dict(), f, indent=2)] and the close of the file at
    the end of the [with] block. Every field of [to_dict] but [result] is a
    string, a float or [None], so the dump raises [TypeError] for a result
    that JSON cannot hold and for nothing else of the record; the write,
    the flush and the close raise [OSError] on a disk that fails them. In
    both cases the file stays as [open] left it, emptied, or holds the
    beginning of the text: nothing that [json.load] accepts. *)
Definition json_dump (state : ProcessingState) (state_file : string) : M unit :=
  fun w =>
    if json_serializable (result state) then
      if write_fails w state_file then (Raise OSError, w)
      else (Ok tt, write_file state_file (JsonOf state) w)
    else (Raise TypeError, w).

(** The file name is computed before the [try]. The [try] holds the [open]
    and the whole [with] block, so whatever the disk or the dump raises goes
    to the handler, which logs a line; nothing is returned and nothing is
    raised again. *)
Definition save_state (state : ProcessingState) : M unit :=
  let state_file := get_state_file_path (file_path state) (stage state) in
  try_except
    (do open_w state_file ;;
     json_dump state state_file)%M
    (fun e => logger_error ("Failed to save state for " +:+ file_path state)).

Definition load_state (file_path : string) (stage : ProcessingStage)
  : M (option ProcessingState) :=
  let state_file := get_state_file_path file_path stage in
  (dir <- gets states_dir ;;
   match dir !! state_file with
   | None => M_ret None
   | Some (JsonOf st) => M_ret (Some st)
   | Some Unparseable =>
       do logger_error ("Failed to load state for " +:+ file_path) ;;
       M_ret None
   end)%M.

(** The record a reader of the store finds for [(file_path, stage)] *)
Definition stored (file_path : string) (stage : ProcessingStage) (w : world)
  : option ProcessingState :=
  match states_dir w !! get_state_file_path file_path stage with
  | Some (JsonOf st) => Some st
  | _ => None
  end.

(** ** The pipeline object *)

(** The fields of [self] that the worker loops read, and the five
    collaborators as the functions the loops call: each returns a value or
    raises. The transcriber, the aligner and the diarizer are built when
    their worker thread starts; building them is taken to succeed.
    [max_workers] is an [int]; a callback field tells whether the callback
    is set, and a callback that is called returns. *)
Record StreamingPipeline : Type := mkPipeline {
  settings : list (string * pyval);
  max_workers : Z;
  gpu_devices : list string;
  progress_callback : bool;
  completion_callback : bool;
  process_audio_pipeline : string -> res pyval;
  segment_audio : pyval -> res pyval;
  transcribe : string -> pyval -> pyval -> res pyval;
  align_words : pyval -> pyval -> pyval -> res pyval;
  diarize : pyval -> res pyval
}.

(** [gpu_devices or ["cuda:0"] if self._has_cuda() else ["cpu"]], which
    Python reads as [(gpu_devices or ["cuda:0"]) if ... else ["cpu"]] *)
Definition init_gpu_devices (gpu_devices : option (list string)) (_has_cuda : bool)
  : list string :=
  if _has_cuda then
    match gpu_devices with
    | Some (d :: ds) => d :: ds
    | _ => ["cuda:0"]
    end
  else ["cpu"].

(** [self.settings.get(key, default)] *)
Definition settings_get (self : StreamingPipeline) (key : string) (default : pyval) : pyval :=
  match dict_get String.eqb key (settings self) with
  | Some v => v
  | None => default
  end.

Definition invoke (c : call) (r : res pyval) : M pyval :=
  (do emit (EvCall c) ;; lift r)%M.

(** [if self.progress_callback: self.progress_callback(state)] *)
Definition notify_progress (self : StreamingPipeline) (state : ProcessingState) : M unit :=
  if progress_callback self then emit (EvProgress state) else M_ret tt.

Definition notify_completion (self : StreamingPipeline) (file_path : string) (r : pyval)
  : M unit :=
  if completion_callback self then emit (EvCompletion file_path r) else M_ret tt.

Definition start_processing (self : StreamingPipeline) (file_path : string) : M unit :=
  (t <- time_time ;;
   let state := mkState file_path EXTRACT_AUDIO "pending" 0 PyNone None t in
   do save_state state ;;
   queue_put extraction_queue (Some file_path))%M.

(** ** The worker loops *)

Inductive loop_ctl : Type := Continue | Break.

(** One turn of a worker's [while True]: [get(timeout=1)] on an empty queue
    raises [queue.Empty] after a second, which the loop's own
    [except Exception] logs; [None] ends the loop; anything the body raises
    is logged and the loop goes on. [task_done] only feeds [Queue.join],
    which the pipeline never calls, and is left out. *)
Definition worker_turn (q : ProcessingStage) (body : string -> M unit) (msg : string)
  (w : world) : loop_ctl * world :=
  match queues w q with
  | [] => (Continue, log_event (EvLogError msg) (with_clock (clock w + 1) w))
  | item :: rest =>
      let w1 := queue_set q rest w in
      match item with
      | None => (Break, w1)
      | Some file_path =>
          match body file_path w1 with
          | (Ok _, w2) => (Continue, w2)
          | (Raise _, w2) => (Continue, log_event (EvLogError msg) w2)
          end
      end
  end.

(** A new record of the worker's own stage, as each loop builds it *)
Definition running_state (file_path : string) (stage : ProcessingStage) (t : Z)
  : ProcessingState :=
  mkState file_path stage "running" 0 PyNone None t.

(** The three closing sequences that the loops share, written out in each
    of them in the source. *)
Definition complete_with (self : StreamingPipeline) (state : ProcessingState) (r : pyval)
  (next : ProcessingStage) : M unit :=
  (t <- time_time ;;
   let state := set_timestamp t (set_result r (set_progress 1 (set_status "completed" state))) in
   do save_state state ;;
   do notify_progress self state ;;
   queue_put next (Some (file_path state)))%M.

Definition fail_with (self : StreamingPipeline) (state : ProcessingState) (err : string)
  : M unit :=
  (t <- time_time ;;
   let state := set_timestamp t (set_error err (set_status "failed" state)) in
   do save_state state ;;
   notify_progress self state)%M.

Definition begin_running (self : StreamingPipeline) (file_path : string)
  (stage : ProcessingStage) : M ProcessingState :=
  (t <- time_time ;;
   let state := running_state file_path stage t in
   do save_state state ;;
   do notify_progress self state ;;
   M_ret state)%M.

Definition extraction_body (self : StreamingPipeline) (file_path : string) : M unit :=
  (state <- load_state file_path EXTRACT_AUDIO ;;
   if is_completed state then
     queue_put vad_queue (Some file_path)
   else
     state <- begin_running self file_path EXTRACT_AUDIO ;;
     processed_path <- invoke (CallPreprocessor file_path)
                              (process_audio_pipeline self file_path) ;;
     if py_truthy processed_path then
       complete_with self state processed_path vad_queue
     else
       fail_with self state "Audio extraction failed")%M.

Definition _extraction_worker (self : StreamingPipeline) : world -> loop_ctl * world :=
  worker_turn extraction_queue (extraction_body self) "Error in extraction worker".

Definition vad_body (self : StreamingPipeline) (file_path : string) : M unit :=
  (state <- load_state file_path VAD_SEGMENTATION ;;
   if is_completed state then
     queue_put transcription_queue (Some file_path)
   else
     extract_state <- load_state file_path EXTRACT_AUDIO ;;
     match extract_state with
     | Some es =>
         if String.eqb (status es) "completed" then
           let audio_path := result es in
           state <- begin_running self file_path VAD_SEGMENTATION ;;
           segments <- invoke (CallVad audio_path) (segment_audio self audio_path) ;;
           match segments with
           | PyNone => fail_with self state "VAD segmentation failed"
           | _ => complete_with self state segments transcription_queue
           end
         else logger_error ("Missing or incomplete extraction for " +:+ file_path)
     | None => logger_error ("Missing or incomplete extraction for " +:+ file_path)
     end)%M.

Definition _vad_worker (self : StreamingPipeline) : world -> loop_ctl * world :=
  worker_turn vad_queue (vad_body self) "Error in VAD worker".

(** [i / total_segments] for two non-negative ints *)
Definition float_of_nat (n : nat) : float :=
  PrimFloat.of_uint63 (Uint63.of_Z (Z.of_nat n)).

(** [self.gpu_devices[0]  # Simplified for now] *)
Definition transcription_worker_device (self : StreamingPipeline) : res string :=
  match gpu_devices self with
  | device :: _ => Ok device
  | [] => Raise IndexError
  end.

(** The body of [for i, segment_path in enumerate(segment_paths)] *)
Fixpoint transcribe_segments (self : StreamingPipeline) (device : string)
  (total_segments i : nat) (segment_paths : list pyval)
  (state : ProcessingState) (transcriptions : list pyval)
  : M (ProcessingState * list pyval) :=
  match segment_paths with
  | [] => M_ret (state, transcriptions)
  | segment_path :: rest =>
      (let state := set_progress (float_of_nat i / float_of_nat total_segments) state in
       do save_state state ;;
       do notify_progress self state ;;
       let language := py_or_none (settings_get self "language" PyNone) in
       r <- invoke (CallTranscriber device segment_path language)
                   (transcribe self device segment_path language) ;;
       let transcriptions :=
         if py_truthy r
         then transcriptions ++ [PyDict [("segment_path", segment_path); ("result", r)]]
         else transcriptions in
       transcribe_segments self device total_segments (S i) rest state transcriptions)%M
  end.

Definition transcription_body (self : StreamingPipeline) (device : string)
  (file_path : string) : M unit :=
  (state <- load_state file_path TRANSCRIPTION ;;
   if is_completed state then
     queue_put alignment_queue (Some file_path)
   else
     vad_state <- load_state file_path VAD_SEGMENTATION ;;
     match vad_state with
     | Some vs =>
         if String.eqb (status vs) "completed" then
           let segment_paths := result vs in
           state <- begin_running self file_path TRANSCRIPTION ;;
           total_segments <- lift (py_len segment_paths) ;;
           paths <- lift (py_iter segment_paths) ;;
           p <- transcribe_segments self device total_segments 0 paths state [] ;;
           complete_with self (fst p) (PyList (snd p)) alignment_queue
         else logger_error ("Missing or incomplete VAD for " +:+ file_path)
     | None => logger_error ("Missing or incomplete VAD for " +:+ file_path)
     end)%M.

(** The transcriber is built once, before the loop, on the worker's device;
    without a device the thread ends before its first turn. *)
Definition _transcription_worker (self : StreamingPipeline) (w : world) : loop_ctl * world :=
  match transcription_worker_device self with
  | Ok device =>
      worker_turn transcription_queue (transcription_body self device)
                  "Error in transcription worker" w
  | Raise _ => (Break, w)
  end.

Definition segment_for_whisperx (seg : pyval) : res pyval :=
  (text <~ py_getitem seg "text" ;;
   start <~ py_getitem seg "start" ;;
   end_ <~ py_getitem seg "end" ;;
   Ok (PyDict [("text", text); ("start", start); ("end", end_)]))%res.

(** The body of [for item in transcription_state.result] *)
Fixpoint prepare_alignment (items : list pyval) (all_segments : list pyval)
  (language : pyval) : res (list pyval * pyval) :=
  match items with
  | [] => Ok (all_segments, language)
  | item :: rest =>
      (transcription_result <~ py_getitem item "result" ;;
       language <~ (if py_truthy language then Ok language
                    else py_getitem transcription_result "language") ;;
       segs <~ py_getitem transcription_result "segments" ;;
       segs <~ py_iter segs ;;
       new <~ res_map segment_for_whisperx segs ;;
       prepare_alignment rest (all_segments ++ new) language)%res
  end.

Definition alignment_body (self : StreamingPipeline) (file_path : string) : M unit :=
  (state <- load_state file_path ALIGNMENT ;;
   if is_completed state then
     queue_put diarization_queue (Some file_path)
   else
     transcription_state <- load_state file_path TRANSCRIPTION ;;
     audio_state <- load_state file_path EXTRACT_AUDIO ;;
     match transcription_state, audio_state with
     | Some ts, Some au =>
         if String.eqb (status ts) "completed" then
           state <- begin_running self file_path ALIGNMENT ;;
           items <- lift (py_iter (result ts)) ;;
           p <- lift (prepare_alignment items [] PyNone) ;;
           aligned_result <- invoke (CallAligner (PyList (fst p)) (result au) (snd p))
                                    (align_words self (PyList (fst p)) (result au) (snd p)) ;;
           if py_truthy aligned_result then
             complete_with self state aligned_result diarization_queue
           else
             fail_with self state "Word alignment failed"
         else logger_error ("Missing or incomplete transcription for " +:+ file_path)
     | _, _ => logger_error ("Missing or incomplete transcription for " +:+ file_path)
     end)%M.

Definition _alignment_worker (self : StreamingPipeline) : world -> loop_ctl * world :=
  worker_turn alignment_queue (alignment_body self) "Error in alignment worker".

Definition diarization_body (self : StreamingPipeline) (file_path : string) : M unit :=
  let diarization_enabled := settings_get self "diarization" (PyBool true) in
  (if negb (py_truthy diarization_enabled) then
     queue_put merge_queue (Some file_path)
   else
     state <- load_state file_path DIARIZATION ;;
     if is_completed state then
       queue_put merge_queue (Some file_path)
     else
       audio_state <- load_state file_path EXTRACT_AUDIO ;;
       match audio_state with
       | Some au =>
           if String.eqb (status au) "completed" then
             state <- begin_running self file_path DIARIZATION ;;
             diarization_result <- invoke (CallDiarizer (result au))
                                          (diarize self (result au)) ;;
             if py_truthy diarization_result then
               segs <- lift (py_iter diarization_result) ;;
               dicts <- lift (res_map asdict segs) ;;
               complete_with self state (PyList dicts) merge_queue
             else
               fail_with self state "Speaker diarization failed"
           else logger_error ("Missing or incomplete audio extraction for " +:+ file_path)
       | None => logger_error ("Missing or incomplete audio extraction for " +:+ file_path)
       end)%M.

Definition _diarization_worker (self : StreamingPipeline) : world -> loop_ctl * world :=
  worker_turn diarization_queue (diarization_body self) "Error in diarization worker".

(** ** Merge: speakers for words *)

(** What can be a dict key among the values met here: a dataclass with the
    default [eq=True] has no [__hash__]. *)
Definition hashable (v : pyval) : bool :=
  match v with
  | PyNone | PyBool _ | PyNum _ | PyStr _ => true
  | _ => false
  end.

(** [a == b] between two such values: numbers by value (so [1 == 1.0],
    [0.0 == -0.0] and a NaN is equal to nothing), strings by content. *)
Definition py_eqb (a b : pyval) : bool :=
  match a, b with
  | PyNone, PyNone => true
  | PyStr s, PyStr t => String.eqb s t
  | _, _ =>
      match as_number a, as_number b with
      | Some x, Some y => PrimFloat.eqb x y
      | _, _ => false
      end
  end.

Definition span : Type := pyval * pyval.

Definition span_eqb (k1 k2 : span) : bool :=
  py_eqb (fst k1) (fst k2) && py_eqb (snd k1) (snd k2).

(** [{(seg['start'], seg['end']): seg['speaker'] for seg in diarization_segments}],
    the dict being filled from [timeline] onwards *)
Fixpoint speaker_timeline (diarization_segments : list pyval)
  (timeline : list (span * pyval)) : res (list (span * pyval)) :=
  match diarization_segments with
  | [] => Ok timeline
  | seg :: rest =>
      (start <~ py_getitem seg "start" ;;
       end_ <~ py_getitem seg "end" ;;
       speaker <~ py_getitem seg "speaker" ;;
       if hashable start && hashable end_
       then speaker_timeline rest (dict_setitem span_eqb (start, end_) speaker timeline)
       else Raise TypeError)%res
  end.

(** [word['start'] + (word['end'] - word['start']) / 2] *)
Definition word_mid_point (word : pyval) : res float :=
  (a <~ py_getitem word "start" ;;
   b <~ py_getitem word "end" ;;
   c <~ py_getitem word "start" ;;
   d <~ py_sub b c ;;
   py_add a (py_half d))%res.

(** The inner [for (start, end), speaker in speaker_timeline.items()] with
    its [break] *)
Fixpoint find_speaker (word_mid_point : float) (items : list (span * pyval)) : res pyval :=
  match items with
  | [] => Ok (PyStr "UNKNOWN")
  | ((start, end_), speaker) :: rest =>
      (inside <~ chained_le start word_mid_point end_ ;;
       if inside then Ok speaker else find_speaker word_mid_point rest)%res
  end.

Definition assign_speaker (timeline : list (span * pyval)) (word : pyval) : res pyval :=
  (m <~ word_mid_point word ;;
   assigned_speaker <~ find_speaker m timeline ;;
   py_setitem word "speaker" assigned_speaker)%res.

(** One turn of [for segment in aligned_segments]. The words are updated in
    place, so the segment that is appended holds the updated words when
    [segment['words']] is a list; iterating anything else that is not empty
    raises at [word['start']]. *)
Definition merge_segment (timeline : list (span * pyval)) (segment : pyval) : res pyval :=
  (has_words <~ py_contains "words" segment ;;
   if has_words then
     words <~ py_getitem segment "words" ;;
     ws <~ py_iter words ;;
     ws' <~ res_map (assign_speaker timeline) ws ;;
     match words with
     | PyList _ => py_setitem segment "words" (PyList ws')
     | _ => Ok segment
     end
   else Ok segment)%res.

Definition perform_merge (aligned_segments diarization_segments : pyval) : res pyval :=
  (dsegs <~ py_iter diarization_segments ;;
   timeline <~ speaker_timeline dsegs [] ;;
   asegs <~ py_iter aligned_segments ;;
   final_segments <~ res_map (merge_segment timeline) asegs ;;
   Ok (PyList final_segments))%res.

Definition merge_body (self : StreamingPipeline) (file_path : string) : M unit :=
  (state <- load_state file_path MERGE_SEGMENTS ;;
   if is_completed state then
     queue_put export_queue (Some file_path)
   else
     alignment_state <- load_state file_path ALIGNMENT ;;
     diarization_state <- load_state file_path DIARIZATION ;;
     match alignment_state with
     | Some als =>
         if String.eqb (status als) "completed" then
           state <- begin_running self file_path MERGE_SEGMENTS ;;
           let aligned_segments := result als in
           let diarization_segments :=
             match diarization_state with
             | Some ds => result ds
             | None => PyList []
             end in
           final_segments <- lift (perform_merge aligned_segments diarization_segments) ;;
           complete_with self state final_segments export_queue
         else logger_error ("Missing or incomplete alignment for " +:+ file_path)
     | None => logger_error ("Missing or incomplete alignment for " +:+ file_path)
     end)%M.

Definition _merge_worker (self : StreamingPipeline) : world -> loop_ctl * world :=
  worker_turn merge_queue (merge_body self) "Error in merge worker".

Definition export_body (self : StreamingPipeline) (file_path : string) : M unit :=
  (merged_state <- load_state file_path MERGE_SEGMENTS ;;
   match merged_state with
   | Some ms =>
       if String.eqb (status ms) "completed" then
         t <- time_time ;;
         let state := mkState file_path EXPORT "completed" 1 (result ms) None t in
         do save_state state ;;
         do notify_progress self state ;;
         notify_completion self file_path (result state)
       else logger_error ("Missing or incomplete merge for " +:+ file_path)
   | None => logger_error ("Missing or incomplete merge for " +:+ file_path)
   end)%M.

Definition _export_worker (self : StreamingPipeline) : world -> loop_ctl * world :=
  worker_turn export_queue (export_body self) "Error in export worker".

(** ** Starting the workers *)

(** The threads in [self.workers] after [start_workers], each by the stage
    whose worker function is its target: [worker_map] in insertion order,
    then one transcription thread per entry of [gpu_devices]. *)
Definition start_workers (self : StreamingPipeline) : list ProcessingStage :=
  let count := Z.to_nat (Z.min 2 (max_workers self)) in
  repeat EXTRACT_AUDIO count ++ repeat VAD_SEGMENTATION count
    ++ [ALIGNMENT; DIARIZATION; MERGE_SEGMENTS; EXPORT]
    ++ map (fun _ => TRANSCRIPTION) (gpu_devices self).

(** The device on which each transcription thread builds its transcriber,
    in the order the threads are started: every thread runs the same
    [_transcription_worker], which reads [gpu_devices[0]]. *)
Definition transcription_thread_devices (self : StreamingPipeline) : list (res string) :=
  map (fun _ => transcription_worker_device self)
      (List.filter (fun s => bool_decide (s = TRANSCRIPTION)) (start_workers self)).

Definition worker_of (s : ProcessingStage) (self : StreamingPipeline)
  : world -> loop_ctl * world :=
  match s with
  | EXTRACT_AUDIO => _extraction_worker self
  | VAD_SEGMENTATION => _vad_worker self
  | TRANSCRIPTION => _transcription_worker self
  | ALIGNMENT => _alignment_worker self
  | DIARIZATION => _diarization_worker self
  | MERGE_SEGMENTS => _merge_worker self
  | EXPORT => _export_worker self
  end.

(** ** A sequential schedule *)

Definition all_stages : list ProcessingStage :=
  [EXTRACT_AUDIO; VAD_SEGMENTATION; TRANSCRIPTION; ALIGNMENT; DIARIZATION;
   MERGE_SEGMENTS; EXPORT].

Definition busy (w : world) (s : ProcessingStage) : bool :=
  match queues w s with
  | [] => false
  | _ => true
  end.

(** Runs, [fuel] times at most, one turn of a worker of the first stage
    whose queue holds something, until every queue is empty. With one token
    in flight at most one queue holds something, and every schedule of the
    threads does these turns in this order. *)
Fixpoint drain (fuel : nat) (self : StreamingPipeline) (w : world) : world :=
  match fuel with
  | O => w
  | S fuel' =>
      match List.find (busy w) all_stages with
      | Some s => drain fuel' self (snd (worker_of s self w))
      | None => w
      end
  end.

(** ** The synchronous wrapper *)

Definition max_wait_time : Z := 300.

(** [time.sleep(1)]; [others] is what the rest of the process does to the
    pipeline's state meanwhile. *)
Definition time_sleep (others : world -> world) : M unit :=
  modify (fun w => with_clock (clock w + 1) (others w)).

(** The [while time.time() - start_time < max_wait_time] loop of
    [process_file]; [None] when [fuel] turns did not end it. *)
Fixpoint wait_for_export (fuel : nat) (others : world -> world) (file_path : string)
  (start_time : Z) : M (option pyval) :=
  match fuel with
  | O => M_ret None
  | S fuel' =>
      (now <- time_time ;;
       if (now - start_time <? max_wait_time)%Z then
         state <- load_state file_path EXPORT ;;
         match state with
         | Some st =>
             if String.eqb (status st) "completed" then M_ret (Some (result st))
             else
               do time_sleep others ;;
               wait_for_export fuel' others file_path start_time
         | None =>
             do time_sleep others ;;
             wait_for_export fuel' others file_path start_time
         end
       else
         do logger_warning ("Processing timeout for " +:+ file_path) ;;
         M_ret (Some PyNone))%M
  end.

Definition process_file (fuel : nat) (others : world -> world) (self : StreamingPipeline)
  (file_path : string) : M (option pyval) :=
  (do start_processing self file_path ;;
   start_time <- time_time ;;
   wait_for_export fuel others file_path start_time)%M.

(** ** Concrete pipelines for the examples *)

Definition empty_world : world :=
  mkWorld ∅ (fun _ => false) (fun _ => []) [] 0 (fun _ => false).

Definition put_record (st : ProcessingState) (w : world) : world :=
  write_file (get_state_file_path (file_path st) (stage st)) (JsonOf st) w.

Definition completed_record (file_path : string) (stage : ProcessingStage) (r : pyval)
  : ProcessingState :=
  mkState file_path stage "completed" 1 r None 0.

Definition py_word (text : string) (start end_ : float) : pyval :=
  PyDict [("word", PyStr text); ("start", PyNum start); ("end", PyNum end_)].

Definition py_interval (start end_ : float) (speaker : string) : pyval :=
  PyDict [("start", PyNum start); ("end", PyNum end_); ("speaker", PyStr speaker)].

(** A pipeline on a machine with CUDA, made with
    [gpu_devices=["cuda:0", "cuda:1"]], both callbacks set, and collaborators
    that all succeed with small fixed results *)
Definition demo_pipeline : StreamingPipeline :=
  mkPipeline
    [("diarization", PyBool true)] 4
    (init_gpu_devices (Some ["cuda:0"; "cuda:1"]) true) true true
    (fun _ => Ok (PyStr "temp/a_normalized.wav"))
    (fun _ => Ok (PyList [PyStr "segments/segment_0000.wav"]))
    (fun _ _ _ => Ok (PyDict [("language", PyStr "en");
                              ("segments", PyList [PyDict [("text", PyStr "hi");
                                                           ("start", PyNum 1);
                                                           ("end", PyNum 2)]])]))
    (fun _ _ _ => Ok (PyList [PyDict [("text", PyStr "hi");
                                      ("words", PyList [py_word "hi" 1 2])]]))
    (fun _ => Ok (PyList [PyObject "DiarizationSegment"
                            [("start", PyNum 0); ("end", PyNum 3);
                             ("speaker", PyStr "SPEAKER_00")]])).

(** A store in which every stage of "a.mp4" is already completed, as a
    finished run of [demo_pipeline] leaves it *)
Definition demo_aligned : pyval :=
  PyList [PyDict [("text", PyStr "hi"); ("words", PyList [py_word "hi" 1 2])]].

Definition demo_merged : pyval :=
  PyList [PyDict [("text", PyStr "hi");
                  ("words", PyList [PyDict [("word", PyStr "hi"); ("start", PyNum 1);
                                            ("end", PyNum 2);
                                            ("speaker", PyStr "SPEAKER_00")]])]].

Definition all_completed_world : world :=
  put_record (completed_record "a.mp4" EXTRACT_AUDIO (PyStr "temp/a_normalized.wav"))
  (put_record (completed_record "a.mp4" VAD_SEGMENTATION
                 (PyList [PyStr "segments/segment_0000.wav"]))
  (put_record (completed_record "a.mp4" TRANSCRIPTION
                 (PyList [PyDict [("segment_path", PyStr "segments/segment_0000.wav");
                                  ("result", PyDict [("language", PyStr "en");
                                                     ("segments", PyList [])])]]))
  (put_record (completed_record "a.mp4" ALIGNMENT demo_aligned)
  (put_record (completed_record "a.mp4" DIARIZATION (PyList [py_interval 0 3 "SPEAKER_00"]))
  (put_record (completed_record "a.mp4" MERGE_SEGMENTS demo_merged)
  (put_record (completed_record "a.mp4" EXPORT demo_merged) empty_world)))))).

(** Variants of [demo_pipeline] *)
Definition with_settings (v : list (string * pyval)) (p : StreamingPipeline)
  : StreamingPipeline :=
  mkPipeline v (max_workers p) (gpu_devices p) (progress_callback p) (completion_callback p)
    (process_audio_pipeline p) (segment_audio p) (transcribe p) (align_words p) (diarize p).
Definition with_process_audio_pipeline (f : string -> res pyval) (p : StreamingPipeline)
  : StreamingPipeline :=
  mkPipeline (settings p) (max_workers p) (gpu_devices p) (progress_callback p)
    (completion_callback p) f (segment_audio p) (transcribe p) (align_words p) (diarize p).
Definition with_segment_audio (f : pyval -> res pyval) (p : StreamingPipeline)
  : StreamingPipeline :=
  mkPipeline (settings p) (max_workers p) (gpu_devices p) (progress_callback p)
    (completion_callback p) (process_audio_pipeline p) f (transcribe p) (align_words p)
    (diarize p).
Definition with_transcribe (f : string -> pyval -> pyval -> res pyval) (p : StreamingPipeline)
  : StreamingPipeline :=
  mkPipeline (settings p) (max_workers p) (gpu_devices p) (progress_callback p)
    (completion_callback p) (process_audio_pipeline p) (segment_audio p) f (align_words p)
    (diarize p).
Definition with_align_words (f : pyval -> pyval -> pyval -> res pyval) (p : StreamingPipeline)
  : StreamingPipeline :=
  mkPipeline (settings p) (max_workers p) (gpu_devices p) (progress_callback p)
    (completion_callback p) (process_audio_pipeline p) (segment_audio p) (transcribe p) f
    (diarize p).

(** A pipeline whose preprocessor raises *)
Definition raising_extract_pipeline : StreamingPipeline :=
  with_process_audio_pipeline (fun _ => Raise (CollaboratorError "ffmpeg")) demo_pipeline.

(** A pipeline whose transcriber answers [None] *)
Definition silent_transcriber_pipeline : StreamingPipeline :=
  with_transcribe (fun _ _ _ => Ok PyNone) demo_pipeline.

(** A pipeline whose VAD answers [None] *)
Definition failing_vad_pipeline : StreamingPipeline :=
  with_segment_audio (fun _ => Ok PyNone) demo_pipeline.

(** A store with the first [n] stages of "a.mp4" completed as
    [demo_pipeline] completes them, and the token on the queue [q] *)
Definition extracted_world (q : ProcessingStage) : world :=
  queue_set q [Some "a.mp4"]
    (put_record (completed_record "a.mp4" EXTRACT_AUDIO (PyStr "temp/a_normalized.wav"))
       empty_world).

Definition segmented_world (q : ProcessingStage) : world :=
  put_record (completed_record "a.mp4" VAD_SEGMENTATION
                (PyList [PyStr "segments/segment_0000.wav"]))
    (extracted_world q).

(** [demo_pipeline] with diarization switched off in the settings *)
Definition diarization_off_pipeline : StreamingPipeline :=
  with_settings [("diarization", PyBool false)] demo_pipeline.

(** A store that an earlier run with diarization on left behind: Extract,
    Align and Diarize completed, no Merge record, and the token of the
    file waiting for the Diarize worker *)
Definition stale_diarization_world : world :=
  put_record (completed_record "a.mp4" DIARIZATION (PyList [py_interval 0 3 "SPEAKER_00"]))
    (put_record (completed_record "a.mp4" ALIGNMENT demo_aligned)
       (extracted_world DIARIZATION)).

(** The same store without the Diarize record *)
Definition aligned_world : world :=
  put_record (completed_record "a.mp4" ALIGNMENT demo_aligned)
    (extracted_world DIARIZATION).

(** A world whose disk refuses to open any file for writing *)
Definition faulty_disk_world : world :=
  mkWorld ∅ (fun _ => true) (fun _ => []) [] 0 (fun _ => false).

(** A store in which "a.mp4" was submitted, its pending Extract record
    written and its token waiting for the Extract worker, on a disk that
    has filled up since: it opens a file for writing and fails the write *)
Definition full_disk_world : world :=
  queue_set EXTRACT_AUDIO [Some "a.mp4"]
    (put_record (mkState "a.mp4" EXTRACT_AUDIO "pending" 0 PyNone None 0)
       (mkWorld ∅ (fun _ => true) (fun _ => []) [] 0 (fun _ => true))).

(** A Transcribe-ready store for "a.mp4" in which speech segmentation found
    nothing: Extract completed, SegmentSpeech completed with an empty list *)
Definition no_speech_world : world :=
  put_record (completed_record "a.mp4" VAD_SEGMENTATION (PyList []))
    (extracted_world TRANSCRIPTION).

(** An aligner that, like whisperx, gives no segment for no input *)
Definition empty_aligner_pipeline : StreamingPipeline :=
  with_align_words
    (fun segments _ _ => match segments with PyList [] => Ok (PyList []) | _ => Ok demo_aligned end)
    demo_pipeline.

(** An aligner that fails, with [None], when it is given no audio path *)
Definition strict_aligner_pipeline : StreamingPipeline :=
  with_align_words
    (fun _ audio_path _ => match audio_path with PyNone => Ok PyNone | _ => Ok demo_aligned end)
    demo_pipeline.

(** A store in which the Transcribe record of "a.mp4" is completed and the
    Extract record is there but failed, with the token waiting for the
    Align worker *)
Definition failed_extract_world : world :=
  queue_set ALIGNMENT [Some "a.mp4"]
    (put_record
       (completed_record "a.mp4" TRANSCRIPTION
          (PyList [PyDict [("segment_path", PyStr "segments/segment_0000.wav");
                           ("result", PyDict [("language", PyStr "en");
                                              ("segments", PyList [])])]]))
       (put_record
          (mkState "a.mp4" EXTRACT_AUDIO "failed" 0 PyNone (Some "Audio extraction failed") 0)
          empty_world)).

(** ** Vocabulary of the statements *)

(** A diarization interval as [PyannoteDiarizer.diarize] builds it; [end] is
    a keyword here. *)
Record DiarizationSegment : Type := mkSegment {
  start : float;
  end_ : float;
  speaker : string
}.

(** [asdict(seg)], which is what a Diarize record holds *)
Definition segment_dict (seg : DiarizationSegment) : pyval :=
  PyDict
    [("start", PyNum (start seg)); ("end", PyNum (end_ seg)); ("speaker", PyStr (speaker seg))].

Definition segment_span (seg : DiarizationSegment) : span :=
  (PyNum (start seg), PyNum (end_ seg)).

Definition segment_entry (seg : DiarizationSegment) : span * pyval :=
  (segment_span seg, PyStr (speaker seg)).

(** The speaker timeline after the intervals of [l] went into the dict
    [acc], one assignment each *)
Definition fill_timeline (l : list DiarizationSegment) (acc : list (span * pyval))
  : list (span * pyval) :=
  fold_left (fun d seg => dict_setitem span_eqb (segment_span seg) (PyStr (speaker seg)) d)
            l acc.

(** [start <= m <= end] for a key of the speaker timeline *)
Definition contains (k : span) (m : float) : res bool :=
  chained_le (fst k) m (snd k).

(** [assigned] is the label of the first entry of [timeline], in the order
    the dict is iterated, whose span contains [m]; or the sentinel when no
    entry does. *)
Definition first_containing (m : float) (timeline : list (span * pyval))
  (assigned : pyval) : Prop :=
  (exists pre k post,
      timeline = pre ++ (k, assigned) :: post /\
      contains k m = Ok true /\
      Forall (fun kv => contains (fst kv) m = Ok false) pre)
  \/ (Forall (fun kv => contains (fst kv) m = Ok false) timeline /\
      assigned = PyStr "UNKNOWN").

(** The words of a segment of a Merge result *)
Definition words_of (segment : pyval) : list pyval :=
  match py_getitem segment "words" with
  | Ok words =>
      match py_iter words with
      | Ok ws => ws
      | Raise _ => []
      end
  | Raise _ => []
  end.

(** No interval of the list has the span of a later one. *)
Fixpoint distinct_spans (l : list DiarizationSegment) : Prop :=
  match l with
  | [] => True
  | x :: l' =>
      Forall (fun y => span_eqb (segment_span x) (segment_span y) = false) l'
      /\ distinct_spans l'
  end.

(** [start <= m <= end] for an interval of the diarization list, in the
    comparisons of floats *)
Definition in_interval (m : float) (x : DiarizationSegment) : bool :=
  PrimFloat.leb (start x) m && PrimFloat.leb m (end_ x).

(** Two intervals have the same [(start, end)]: equal starts and equal ends *)
Definition same_span (x y : DiarizationSegment) : bool :=
  PrimFloat.eqb (start x) (start y) && PrimFloat.eqb (end_ x) (end_ y).

(** The label of the last interval of [later] that has the span of [x],
    and [found] when none has it *)
Fixpoint last_label_of_span (x : DiarizationSegment) (later : list DiarizationSegment)
  (found : string) : string :=
  match later with
  | [] => found
  | y :: later' =>
      last_label_of_span x later' (if same_span x y then speaker y else found)
  end.

(** The label that a list of intervals gives to the point [m]: the sentinel
    when no interval contains [m]; otherwise take the first interval of
    the list, in its order, that contains [m], and give the label of the
    last interval of the list that has the span of that one, which is the
    first interval itself when no later one repeats its span. *)
Fixpoint assigned_label (m : float) (l : list DiarizationSegment) : string :=
  match l with
  | [] => "UNKNOWN"
  | x :: later =>
      if in_interval m x then last_label_of_span x later (speaker x)
      else assigned_label m later
  end.

(** The value of a word under [key] is the number [a]. *)
Definition number_at (word : pyval) (key : string) (a : float) : Prop :=
  exists v, py_getitem word key = Ok v /\ as_number v = Some a.

(** Every key of the timeline is the span of an interval that does not
    contain [m]. *)
Definition keys_outside (m : float) (tl : list (span * pyval)) : Prop :=
  Forall (fun kv => exists z, fst kv = segment_span z /\ in_interval m z = false) tl.

(** What [load_state] adds to the log *)
Definition load_log (fp : string) (s : ProcessingStage) (w : world) : list event :=
  match states_dir w !! get_state_file_path fp s with
  | Some Unparseable => [EvLogError ("Failed to load state for " +:+ fp)]
  | _ => []
  end.

(** The world after [load_state]: a file that does not parse leaves an
    error in the log. *)
Definition after_load (fp : string) (s : ProcessingStage) (w : world) : world :=
  with_trace (trace w ++ load_log fp s w) w.

(** The world after [if self.progress_callback: self.progress_callback(state)] *)
Definition notified (self : StreamingPipeline) (state : ProcessingState) (w : world) : world :=
  if progress_callback self then log_event (EvProgress state) w else w.

(** The record that [fail_with] writes *)
Definition failed_state (state : ProcessingState) (err : string) (t : Z) : ProcessingState :=
  set_timestamp t (set_error err (set_status "failed" state)).

(** The record that [complete_with] writes *)
Definition completed_state (state : ProcessingState) (r : pyval) (t : Z) : ProcessingState :=
  set_timestamp t (set_result r (set_progress 1 (set_status "completed" state))).

(** The name of the state file of a record *)
Definition state_file_of (st : ProcessingState) : string :=
  get_state_file_path (file_path st) (stage st).

(** What the worker of stage [s] hands to its collaborator for the file
    [fp], and what comes back; [None] where the stage has no collaborator
    or the store does not hold what the call needs. *)
Definition collaborator_answer (self : StreamingPipeline) (s : ProcessingStage)
  (fp : string) (w : world) : option (res pyval) :=
  match s with
  | EXTRACT_AUDIO => Some (process_audio_pipeline self fp)
  | VAD_SEGMENTATION =>
      match stored fp EXTRACT_AUDIO w with
      | Some es => Some (segment_audio self (result es))
      | None => None
      end
  | ALIGNMENT =>
      match stored fp TRANSCRIPTION w, stored fp EXTRACT_AUDIO w with
      | Some ts, Some au =>
          match res_bind (py_iter (result ts)) (fun items => prepare_alignment items [] PyNone) with
          | Ok p => Some (align_words self (PyList (fst p)) (result au) (snd p))
          | Raise _ => None
          end
      | _, _ => None
      end
  | DIARIZATION =>
      match stored fp EXTRACT_AUDIO w with
      | Some au => Some (diarize self (result au))
      | None => None
      end
  | _ => None
  end.

(** The stage's work is due: its own record is not completed and the
    upstream test of its worker passes (for Diarize, diarization is on). *)
Definition due (self : StreamingPipeline) (s : ProcessingStage) (fp : string) (w : world)
  : bool :=
  negb (is_completed (stored fp s w)) &&
  match s with
  | EXTRACT_AUDIO => true
  | VAD_SEGMENTATION => is_completed (stored fp EXTRACT_AUDIO w)
  | TRANSCRIPTION => is_completed (stored fp VAD_SEGMENTATION w)
  | ALIGNMENT =>
      is_completed (stored fp TRANSCRIPTION w) &&
      match stored fp EXTRACT_AUDIO w with Some _ => true | None => false end
  | DIARIZATION =>
      py_truthy (settings_get self "diarization" (PyBool true)) &&
      is_completed (stored fp EXTRACT_AUDIO w)
  | MERGE_SEGMENTS => is_completed (stored fp ALIGNMENT w)
  | EXPORT => is_completed (stored fp MERGE_SEGMENTS w)
  end.

(** What the worker of a stage takes for a failure of its collaborator *)
Definition failure_sentinel (s : ProcessingStage) (v : pyval) : bool :=
  match s with
  | VAD_SEGMENTATION => match v with PyNone => true | _ => false end
  | _ => negb (py_truthy v)
  end.

Definition failure_message (s : ProcessingStage) : string :=
  match s with
  | EXTRACT_AUDIO => "Audio extraction failed"
  | VAD_SEGMENTATION => "VAD segmentation failed"
  | ALIGNMENT => "Word alignment failed"
  | DIARIZATION => "Speaker diarization failed"
  | _ => ""
  end.

(** The world after the loads that open a worker's turn, in their order *)
Definition after_loads (fp : string) (l : list ProcessingStage) (w : world) : world :=
  fold_left (fun w s => after_load fp s w) l w.

(** The records that a worker of stage [s] reads before it starts its work *)
Definition stage_loads (s : ProcessingStage) : list ProcessingStage :=
  match s with
  | EXTRACT_AUDIO => [EXTRACT_AUDIO]
  | VAD_SEGMENTATION => [VAD_SEGMENTATION; EXTRACT_AUDIO]
  | TRANSCRIPTION => [TRANSCRIPTION; VAD_SEGMENTATION]
  | ALIGNMENT => [ALIGNMENT; TRANSCRIPTION; EXTRACT_AUDIO]
  | DIARIZATION => [DIARIZATION; EXTRACT_AUDIO]
  | MERGE_SEGMENTS => [MERGE_SEGMENTS; ALIGNMENT; DIARIZATION]
  | EXPORT => [MERGE_SEGMENTS]
  end.

(** The world in which a worker of stage [s] calls its collaborator: the
    token is off the queue, the records are read, the running record is
    written and announced. *)
Definition started (self : StreamingPipeline) (s : ProcessingStage) (fp : string)
  (rest : list (option string)) (w : world) : world :=
  notified self (running_state fp s (clock w))
    (put_record (running_state fp s (clock w))
       (after_loads fp (stage_loads s) (queue_set s rest w))).

(** The world after a turn in which the collaborator, called as [c],
    answered with a failure *)
Definition failed_world (self : StreamingPipeline) (s : ProcessingStage) (fp : string)
  (rest : list (option string)) (c : call) (w : world) : world :=
  let failed := failed_state (running_state fp s (clock w)) (failure_message s) (clock w) in
  notified self failed (put_record failed (log_event (EvCall c) (started self s fp rest w))).

(** ** The wrapper as the specification words it *)

Inductive completion : Type :=
| Completed (r : pyval)
| TimedOut.

(** The spec's [runToCompletion(identity, timeout)]: poll the Export record
    until it is completed or the caller's timeout has elapsed, and return
    the result or a timeout signal. One poll a second, as in the source. *)
Fixpoint runToCompletion_poll (fuel : nat) (others : world -> world) (file_path : string)
  (start_time timeout : Z) : M (option completion) :=
  match fuel with
  | O => M_ret None
  | S fuel' =>
      (now <- time_time ;;
       if (now - start_time <? timeout)%Z then
         state <- load_state file_path EXPORT ;;
         match state with
         | Some st =>
             if String.eqb (status st) "completed" then M_ret (Some (Completed (result st)))
             else
               do time_sleep others ;;
               runToCompletion_poll fuel' others file_path start_time timeout
         | None =>
             do time_sleep others ;;
             runToCompletion_poll fuel' others file_path start_time timeout
         end
       else M_ret (Some TimedOut))%M
  end.

Definition runToCompletion_spec (fuel : nat) (others : world -> world)
  (self : StreamingPipeline) (file_path : string) (timeout : Z) : M (option completion) :=
  (do start_processing self file_path ;;
   start_time <- time_time ;;
   runToCompletion_poll fuel others file_path start_time timeout)%M.

(** What the caller of [process_file] reads in its return value *)
Definition signal_of (v : pyval) : completion :=
  match v with
  | PyNone => TimedOut
  | _ => Completed v
  end.

(** Worker threads that stay idle for nine seconds and then do all their
    work within the tenth *)
Definition late_workers (self : StreamingPipeline) (w : world) : world :=
  if (clock w =? 9)%Z then drain 30 self w else w.

(** The state of the pipeline between two polls of [process_file]: the
    Export record was read, a second went by *)
Definition poll_step (others : world -> world) (fp : string) (w : world) : world :=
  with_clock (clock (after_load fp EXPORT w) + 1) (others (after_load fp EXPORT w)).

(** The state of the pipeline at the [k]-th poll after [w] *)
Fixpoint at_poll (k : nat) (others : world -> world) (fp : string) (w : world) : world :=
  match k with
  | O => w
  | S k' => at_poll k' others fp (poll_step others fp w)
  end.

(** Nothing is ever taken out of the trace: [w'] has the events of [w] and
    maybe more. *)
Definition extends (w w' : world) : Prop :=
  exists l, trace w' = trace w ++ l.

Definition grows {A} (m : M A) : Prop :=
  forall w, extends w (snd (m w)).

(** A store in which "a.mp4" waits for the Merge worker with the spec's
    tie-break example: a word over [1.0, 2.0], intervals (0, 1.5, "A") and
    (1.5, 3.0, "B") *)
Definition tie_break_world : world :=
  queue_set MERGE_SEGMENTS [Some "a.mp4"]
    (put_record (completed_record "a.mp4" DIARIZATION
                   (PyList [py_interval 0 1.5 "A"; py_interval 1.5 3 "B"]))
       (put_record (completed_record "a.mp4" ALIGNMENT
                      (PyList [PyDict [("words", PyList [py_word "w" 1 2])]]))
          empty_world)).

(** The same store with two intervals of one span, (1, 2, "A") and then
    (1, 2, "B"), for the same word over [1.0, 2.0] *)
Definition duplicate_span_world : world :=
  queue_set MERGE_SEGMENTS [Some "a.mp4"]
    (put_record (completed_record "a.mp4" DIARIZATION
                   (PyList [py_interval 1 2 "A"; py_interval 1 2 "B"]))
       (put_record (completed_record "a.mp4" ALIGNMENT
                      (PyList [PyDict [("words", PyList [py_word "w" 1 2])]]))
          empty_world)).

(** The intervals that the Merge worker takes for a file: the result of the
    Diarize record when the store has one, none otherwise *)
Definition diarization_segments_of (fp : string) (w : world) : pyval :=
  match stored fp DIARIZATION w with
  | Some ds => result ds
  | None => PyList []
  end.

(** ** Around the loops: the dict of a record, shutdown, collaborators, the editor *)

(** The object that [from_dict] builds: a dataclass checks no type, so
    every field but [stage] holds whatever value the dict had. *)
Record StateObject : Type := mkObject {
  o_file_path : pyval;
  o_stage : ProcessingStage;
  o_status : pyval;
  o_progress : pyval;
  o_result : pyval;
  o_error : pyval;
  o_timestamp : pyval
}.

(** The float of a time in whole seconds *)
Definition float_of_Z (z : Z) : float :=
  if (z <? 0)%Z then PrimFloat.opp (PrimFloat.of_uint63 (Uint63.of_Z (- z)))
  else PrimFloat.of_uint63 (Uint63.of_Z z).

(** An [Optional[str]] as a value *)
Definition py_of_optional_str (e : option string) : pyval :=
  match e with
  | Some s => PyStr s
  | None => PyNone
  end.

(** [ProcessingState.to_dict] *)
Definition to_dict (st : ProcessingState) : list (string * pyval) :=
  [("file_path", PyStr (file_path st));
   ("stage", PyStr (stage_value (stage st)));
   ("status", PyStr (status st));
   ("progress", PyNum (progress st));
   ("result", result st);
   ("error", py_of_optional_str (error st));
   ("timestamp", PyNum (float_of_Z (timestamp st)))].

(** The object with the field values of a record *)
Definition object_of (st : ProcessingState) : StateObject :=
  mkObject (PyStr (file_path st)) (stage st) (PyStr (status st)) (PyNum (progress st))
    (result st) (py_of_optional_str (error st)) (PyNum (float_of_Z (timestamp st))).

Inductive from_dict_error : Type :=
| MissingStage                             (* KeyError: 'stage' *)
| NotAStage                                (* ValueError: not a valid ProcessingStage *)
| UnexpectedKeyword (key : string)         (* TypeError of [__init__] *)
| MissingArguments (keys : list string).   (* TypeError of [__init__] *)

(** [ProcessingStage(value)] *)
Definition stage_of_value (v : pyval) : option ProcessingStage :=
  match v with
  | PyStr s => List.find (fun st => String.eqb (stage_value st) s) all_stages
  | _ => None
  end.

Definition field_names : list string :=
  ["file_path"; "stage"; "status"; "progress"; "result"; "error"; "timestamp"].

(** The fields without a default, "stage" apart *)
Definition required_fields : list string := ["file_path"; "status"; "progress"].

(** [ProcessingState.from_dict]: [data["stage"]] is replaced by the enum
    member, then the class is called with every key as a keyword. A key
    that is no field is refused; then the fields without a default must all
    be there; [result], [error] and [timestamp] default to [None], [None]
    and [0.0]. The dict is one that [json.load] has just made, so that the
    assignment to [data["stage"]] is seen by nobody else. *)
Definition from_dict (data : list (string * pyval)) : from_dict_error + StateObject :=
  match dict_get String.eqb "stage" data with
  | None => inl MissingStage
  | Some v =>
      match stage_of_value v with
      | None => inl NotAStage
      | Some s =>
          match List.find (fun kv => negb (existsb (String.eqb (fst kv)) field_names)) data with
          | Some kv => inl (UnexpectedKeyword (fst kv))
          | None =>
              match List.filter (fun k => negb (dict_has String.eqb k data)) required_fields with
              | [] =>
                  let field k d := default d (dict_get String.eqb k data) in
                  inr (mkObject (field "file_path" PyNone) s (field "status" PyNone)
                         (field "progress" PyNone) (field "result" PyNone)
                         (field "error" PyNone) (field "timestamp" (PyNum 0)))
              | missing => inl (MissingArguments missing)
              end
          end
      end
  end.

(** [stop_workers], as far as the queues go: [max_workers * 2] shutdown
    signals on each of the seven queues, in the order of the source's list.
    The joins and the executor shutdowns act on threads only. *)
Definition stop_workers (self : StreamingPipeline) : M unit :=
  fold_right
    (fun q rest =>
       (do fold_right (fun _ more => (do queue_put q None ;; more)%M) (M_ret tt)
             (seq 0 (Z.to_nat (max_workers self * 2))) ;;
        rest)%M)
    (M_ret tt) all_stages.

(** The threads of [start_workers] whose target is the worker of stage [s] *)
Definition threads_of (self : StreamingPipeline) (s : ProcessingStage) : nat :=
  length (List.filter (fun t => bool_decide (t = s)) (start_workers self)).





(** [DiarizationSegment(start=turn.start, end=turn.end, speaker=speaker)] *)
Definition segment_object (seg : DiarizationSegment) : pyval :=
  PyObject "DiarizationSegment"
    [("start", PyNum (start seg)); ("end", PyNum (end_ seg)); ("speaker", PyStr (speaker seg))].

(** [PyannoteDiarizer.diarize] with its default arguments. [pipeline] is the
    pyannote pipeline together with [itertracks(yield_label=True)]: it gives
    the turns with their labels, in order, or raises; whatever it raises is
    caught and [None] is returned. *)
Definition pyannote_diarize (pipeline : pyval -> res (list DiarizationSegment))
  (audio_path : pyval) : pyval :=
  match pipeline audio_path with
  | Ok tracks => PyList (map segment_object tracks)
  | Raise _ => PyNone
  end.

Definition with_diarize (f : pyval -> res pyval) (p : StreamingPipeline)
  : StreamingPipeline :=
  mkPipeline (settings p) (max_workers p) (gpu_devices p) (progress_callback p)
    (completion_callback p) (process_audio_pipeline p) (segment_audio p) (transcribe p)
    (align_words p) f.

(** The speech segmenter behind the SegmentSpeech stage (audio/vad.py) *)
Module Vad.

(** What [segment_audio] calls: [detect_speech], which gives the speech
    segments or [None] (it catches what it raises); [sf.read];
    [os.makedirs]; the cutting of one segment out of the audio data with its
    [sf.write]; and [os.path.join]. *)
Record SileroVAD : Type := mkVad {
  detect_speech : pyval -> option (list pyval);
  sf_read : pyval -> res pyval;
  makedirs : string -> res unit;
  cut_and_write : pyval -> pyval -> string -> res unit;
  path_join : string -> string -> string
}.

Fixpoint zeros (n : nat) : string :=
  match n with
  | O => ""
  | S n' => "0" +:+ zeros n'
  end.

(** [f"{i:04d}"] *)
Definition format_04d (i : nat) : string :=
  let digits := DecimalString.NilEmpty.string_of_uint (Nat.to_uint i) in
  zeros (4 - String.length digits) +:+ digits.

(** [f"segment_{i:04d}.wav"] *)
Definition segment_file_name (i : nat) : string :=
  "segment_" +:+ format_04d i +:+ ".wav".

(** The body of [for i, segment in enumerate(segments)] *)
Fixpoint write_segments (vad : SileroVAD) (audio_data : pyval) (output_dir : string)
  (i : nat) (segments : list pyval) (segment_paths : list pyval) : res (list pyval) :=
  match segments with
  | [] => Ok segment_paths
  | segment :: rest =>
      let segment_path := path_join vad output_dir (segment_file_name i) in
      (_ <~ cut_and_write vad audio_data segment segment_path ;;
       write_segments vad audio_data output_dir (S i) rest
         (segment_paths ++ [PyStr segment_path]))%res
  end.

(** [SileroVAD.segment_audio] *)
Definition segment_audio (vad : SileroVAD) (audio_path : pyval) (output_dir : string)
  : res pyval :=
  match detect_speech vad audio_path with
  | None => Ok PyNone
  | Some [] => Ok (PyList [])
  | Some segments =>
      (audio_data <~ sf_read vad audio_path ;;
       _ <~ makedirs vad output_dir ;;
       segment_paths <~ write_segments vad audio_data output_dir 0 segments [] ;;
       Ok (PyList segment_paths))%res
  end.

End Vad.

(** The main window, which receives the result of the pipeline through the
    completion callback (ui/main_window.py, ui/editor.py) *)
Module Editor.

(** The dataclasses of the editor; their fields hold what the dicts held. *)
Record Word : Type := mkWord {
  text : pyval;
  start_time : pyval;
  end_time : pyval;
  confidence : pyval;
  speaker : pyval;
  char_start_pos : Z;
  char_end_pos : Z
}.

Record Segment : Type := mkSegment {
  id : nat;
  seg_start_time : pyval;
  seg_end_time : pyval;
  words : list Word;
  seg_text : pyval
}.

(** [d.get(key, default)]; [None] when [d] has no [get] *)
Definition py_get (d : pyval) (key : string) (default : pyval) : option pyval :=
  match d with
  | PyDict kvs =>
      Some match dict_get String.eqb key kvs with
           | Some v => v
           | None => default
           end
  | _ => None
  end.

Definition of_res {A} (r : res A) : option A :=
  match r with
  | Ok a => Some a
  | Raise _ => None
  end.

Definition word_of (word_dict : pyval) : option Word :=
  t ← py_get word_dict "word" (PyStr "");
  a ← py_get word_dict "start" (PyNum 0);
  b ← py_get word_dict "end" (PyNum 0);
  c ← py_get word_dict "score" (PyNum 0);
  sp ← py_get word_dict "speaker" (PyStr "UNKNOWN");
  Some (mkWord t a b c sp 0 0).

(** The body of [for i, seg_dict in enumerate(final_result)] *)
Definition segment_of (i : nat) (seg_dict : pyval) : option Segment :=
  has_words ← of_res (py_contains "words" seg_dict);
  words_to_load ←
    (if has_words : bool then
       ws ← of_res (py_getitem seg_dict "words");
       if py_truthy ws then
         l ← of_res (py_iter ws);
         mapM word_of l
       else Some []
     else Some [] : option (list Word));
  a ← py_get seg_dict "start" (PyNum 0);
  b ← py_get seg_dict "end" (PyNum 0);
  t ← py_get seg_dict "text" (PyStr "");
  Some (mkSegment i a b words_to_load t).

Fixpoint segments_from (i : nat) (l : list pyval) : option (list Segment) :=
  match l with
  | [] => Some []
  | seg_dict :: l' =>
      seg ← segment_of i seg_dict;
      rest ← segments_from (S i) l';
      Some (seg :: rest)
  end.

(** [segments_to_load] in [MainWindow.on_processing_finished]: the segments
    that are handed to the editor; [None] when the conversion raises. *)
Definition segments_to_load (final_result : pyval) : option (list Segment) :=
  if py_truthy final_result then
    l ← of_res (py_iter final_result);
    segments_from 0 l
  else Some [].

End Editor.

(** ** Vocabulary of the further statements *)

(** The suffixes of a string, the longest first *)
Fixpoint string_suffixes (s : string) : list string :=
  s :: match s with
       | EmptyString => []
       | String _ s' => string_suffixes s'
       end.

(** The stage whose queue a worker forwards to *)
Definition next_stage (s : ProcessingStage) : option ProcessingStage :=
  match s with
  | EXTRACT_AUDIO => Some VAD_SEGMENTATION
  | VAD_SEGMENTATION => Some TRANSCRIPTION
  | TRANSCRIPTION => Some ALIGNMENT
  | ALIGNMENT => Some DIARIZATION
  | DIARIZATION => Some MERGE_SEGMENTS
  | MERGE_SEGMENTS => Some EXPORT
  | EXPORT => None
  end.

(** The upstream test of the worker of stage [s] fails: a record that the
    worker asks for is missing or, where the worker looks at the status, not
    completed. *)
Definition starved (s : ProcessingStage) (fp : string) (w : world) : bool :=
  match s with
  | EXTRACT_AUDIO => false
  | VAD_SEGMENTATION => negb (is_completed (stored fp EXTRACT_AUDIO w))
  | TRANSCRIPTION => negb (is_completed (stored fp VAD_SEGMENTATION w))
  | ALIGNMENT =>
      negb (is_completed (stored fp TRANSCRIPTION w)) ||
      match stored fp EXTRACT_AUDIO w with Some _ => false | None => true end
  | DIARIZATION => negb (is_completed (stored fp EXTRACT_AUDIO w))
  | MERGE_SEGMENTS => negb (is_completed (stored fp ALIGNMENT w))
  | EXPORT => negb (is_completed (stored fp MERGE_SEGMENTS w))
  end.

(** What the worker of stage [s] logs when its upstream test fails *)
Definition missing_message (s : ProcessingStage) (fp : string) : string :=
  match s with
  | EXTRACT_AUDIO => ""
  | VAD_SEGMENTATION => "Missing or incomplete extraction for " +:+ fp
  | TRANSCRIPTION => "Missing or incomplete VAD for " +:+ fp
  | ALIGNMENT => "Missing or incomplete transcription for " +:+ fp
  | DIARIZATION => "Missing or incomplete audio extraction for " +:+ fp
  | MERGE_SEGMENTS => "Missing or incomplete alignment for " +:+ fp
  | EXPORT => "Missing or incomplete merge for " +:+ fp
  end.

(** What the handler of the loop of stage [s] logs *)
Definition worker_message (s : ProcessingStage) : string :=
  match s with
  | EXTRACT_AUDIO => "Error in extraction worker"
  | VAD_SEGMENTATION => "Error in VAD worker"
  | TRANSCRIPTION => "Error in transcription worker"
  | ALIGNMENT => "Error in alignment worker"
  | DIARIZATION => "Error in diarization worker"
  | MERGE_SEGMENTS => "Error in merge worker"
  | EXPORT => "Error in export worker"
  end.

(** What the worker of stage [s] puts in its record for the answer [v] of
    its collaborator: the answer itself, for Diarize the [asdict] of each
    interval *)
Definition recorded_result (s : ProcessingStage) (v : pyval) : res pyval :=
  match s with
  | DIARIZATION =>
      (segs <~ py_iter v ;;
       dicts <~ res_map asdict segs ;;
       Ok (PyList dicts))%res
  | _ => Ok v
  end.

(** [b] has the value of [a] under every key but [key] *)
Definition same_but (key : string) (a b : pyval) : Prop :=
  forall k, k <> key -> py_getitem b k = py_getitem a k.

(** The computation [m] writes no file of the state directory but [name]. *)
Definition writes_only {A} (name : string) (m : M A) : Prop :=
  forall w n, n <> name -> states_dir (snd (m w)) !! n = states_dir w !! n.

(** Every value that [m] returns satisfies [P]. *)
Definition returns {A} (P : A -> Prop) (m : M A) : Prop :=
  forall w a, fst (m w) = Ok a -> P a.

(** The computation [m] puts nothing on a queue, or it puts [item] once, on
    the queue [q]; it takes nothing off. *)
Definition puts_at_most {A} (q : ProcessingStage) (item : option string) (m : M A) : Prop :=
  forall w,
    (forall q', queues (snd (m w)) q' = queues w q') \/
    (queues (snd (m w)) q = queues w q ++ [item] /\
     forall q', q' <> q -> queues (snd (m w)) q' = queues w q').

Definition keeps_queues {A} (m : M A) : Prop :=
  forall w q, queues (snd (m w)) q = queues w q.

(** The token of [fp] is the only thing on the queues, and it waits for the
    worker of stage [s]. *)
Definition only_on (s : ProcessingStage) (fp : string) (w : world) : Prop :=
  forall q, queues w q = if decide (q = s) then [Some fp] else [].

(** What a turn of the worker of stage [s] that completes the stage for
    [fp] with the result [r] makes of the world [w]: the record of the stage
    is there, the token has gone on to the next stage, if there is one, and
    the rest is as it was. *)
Definition stage_done (s : ProcessingStage) (fp : string) (r : pyval) (w w' : world)
  : Prop :=
  stored fp s w' = Some (mkState fp s "completed" 1 r None (clock w)) /\
  (forall s', s' <> s -> stored fp s' w' = stored fp s' w) /\
  disk_fault w' = disk_fault w /\
  clock w' = clock w /\
  queues w' s = tail (queues w s) /\
  forall q, q <> s ->
    queues w' q = queues w q ++ (if decide (next_stage s = Some q) then [Some fp] else []).

Definition is_log (e : event) : bool :=
  match e with
  | EvLogError _ | EvLogWarning _ => true
  | _ => false
  end.

(** The entries that the Transcribe loop appends for a list of sub-clips,
    [answer] being what the transcriber gives for each *)
Definition kept_transcriptions (answer : pyval -> pyval) (paths : list pyval) : list pyval :=
  map (fun p => PyDict [("segment_path", p); ("result", answer p)])
      (List.filter (fun p => py_truthy (answer p)) paths).

(** * Properties *)

(** ** The state store *)

Lemma string_app_inv_head (p x y : string) : p +:+ x = p +:+ y -> x = y.
Proof.
  induction p as [|a p IH]; simpl; intros H; [exact H|].
  injection H as H. exact (IH H).
Qed.

Lemma stage_value_inj (s1 s2 : ProcessingStage) :
  stage_value s1 = stage_value s2 -> s1 = s2.
Proof. destruct s1, s2; simpl; intros H; try reflexivity; discriminate H. Qed.

(** Two stages of one file never share a state file. *)
Lemma get_state_file_path_inj (fp : string) (s1 s2 : ProcessingStage) :
  get_state_file_path fp s1 = get_state_file_path fp s2 -> s1 = s2.
Proof.
  unfold get_state_file_path. intros H.
  apply string_app_inv_head in H. apply string_app_inv_head in H.
  exact (stage_value_inj _ _ H).
Qed.

Lemma get_state_file_path_ne (fp : string) (s1 s2 : ProcessingStage) :
  s1 <> s2 -> get_state_file_path fp s1 <> get_state_file_path fp s2.
Proof. intros Hne H. exact (Hne (get_state_file_path_inj _ _ _ H)). Qed.

Lemma string_length_app (a b : string) :
  String.length (a +:+ b) = String.length a + String.length b.
Proof.
  induction a as [|c a IH]; [reflexivity|].
  change (S (String.length (a +:+ b)) = S (String.length a + String.length b)).
  by rewrite IH.
Qed.

Lemma string_app_nil_r (a : string) : a +:+ "" = a.
Proof.
  induction a as [|c a IH]; [reflexivity|].
  change (String c (a +:+ "") = String c a). by rewrite IH.
Qed.

Lemma string_app_split (p1 p2 s1 s2 : string) :
  p1 +:+ s1 = p2 +:+ s2 ->
  (exists d, p2 = p1 +:+ d /\ s1 = d +:+ s2) \/ (exists d, p1 = p2 +:+ d /\ s2 = d +:+ s1).
Proof.
  revert p2. induction p1 as [|a p1 IH]; intros p2 H.
  - left. exists p2. by split.
  - destruct p2 as [|b p2].
    + right. exists (String a p1). split; [reflexivity|]. symmetry. exact H.
    + simpl in H. injection H as -> H.
      destruct (IH _ H) as [(d & -> & ->)|(d & -> & ->)]; [left|right]; by exists d.
Qed.

Lemma string_suffixes_app (d t : string) : t ∈ string_suffixes (d +:+ t).
Proof.
  induction d as [|a d IH].
  - change (t ∈ string_suffixes t). destruct t; apply elem_of_cons; by left.
  - change (t ∈ String a (d +:+ t) :: string_suffixes (d +:+ t)).
    apply elem_of_cons. by right.
Qed.

Lemma string_app_self_inv (d x : string) : x = d +:+ x -> d = "".
Proof.
  intros H. apply (f_equal String.length) in H. rewrite string_length_app in H.
  destruct d; [reflexivity|]. simpl in H. lia.
Qed.

(** No stage value ends with an underscore and another stage value. *)
Lemma stage_value_suffix (s1 s2 : ProcessingStage) (d : string) :
  "_" +:+ stage_value s1 = d +:+ ("_" +:+ stage_value s2) -> s1 = s2.
Proof.
  intros H. pose proof (string_suffixes_app d ("_" +:+ stage_value s2)) as Hin.
  rewrite <- H in Hin. clear H.
  destruct s1, s2; try reflexivity; exfalso; simpl in Hin;
    repeat (apply elem_of_cons in Hin as [Hin|Hin]; [discriminate Hin|]);
    by apply elem_of_nil in Hin.
Qed.

(** The string that names a state file tells the file and the stage. *)
Lemma get_state_file_path_pair_inj (fp1 fp2 : string) (s1 s2 : ProcessingStage) :
  get_state_file_path fp1 s1 = get_state_file_path fp2 s2 -> fp1 = fp2 /\ s1 = s2.
Proof.
  unfold get_state_file_path. intros H.
  assert (Hs : s1 = s2).
  { destruct (string_app_split _ _ _ _ H) as [(d & _ & Hd)|(d & _ & Hd)].
    - by apply (stage_value_suffix _ _ d).
    - symmetry. by apply (stage_value_suffix _ _ d). }
  split; [|exact Hs]. subst s2.
  destruct (string_app_split _ _ _ _ H) as [(d & -> & Hd)|(d & -> & Hd)];
    apply string_app_self_inv in Hd; subst d.
  - by rewrite string_app_nil_r.
  - by rewrite string_app_nil_r.
Qed.

Lemma with_trace_nil (w : world) : with_trace (trace w ++ []) w = w.
Proof. destruct w; unfold with_trace; simpl. by rewrite app_nil_r. Qed.

(** [load_state] returns the stored record and touches nothing but the log. *)
Lemma load_state_spec (fp : string) (s : ProcessingStage) (w : world) :
  load_state fp s w = (Ok (stored fp s w), after_load fp s w).
Proof.
  unfold load_state, after_load, stored, load_log, M_bind, gets, M_ret, logger_error,
    emit, modify, log_event.
  destruct (states_dir w !! get_state_file_path fp s) as [[st|]|]; simpl;
    try reflexivity; by rewrite with_trace_nil.
Qed.

(** [save_state] on a file that can be written, with a payload that JSON can
    hold *)
Lemma save_state_ok (st : ProcessingState) (w : world) :
  disk_fault w (get_state_file_path (file_path st) (stage st)) = false ->
  json_serializable (result st) = true ->
  save_state st w = (Ok tt, put_record st w).
Proof.
  intros Hd Hj.
  unfold save_state, try_except, M_bind, open_w, json_dump, open_fails, write_fails.
  rewrite Hd. simpl. rewrite Hj, Hd. simpl.
  unfold put_record, write_file, with_states_dir; simpl.
  by rewrite insert_insert_eq.
Qed.

(** [save_state] on a file that cannot be opened *)
Lemma save_state_fault (st : ProcessingState) (w : world) :
  disk_fault w (get_state_file_path (file_path st) (stage st)) = true ->
  fault_after_open w (get_state_file_path (file_path st) (stage st)) = false ->
  save_state st w =
    (Ok tt, log_event (EvLogError ("Failed to save state for " +:+ file_path st)) w).
Proof.
  intros Hd Ha.
  unfold save_state, try_except, M_bind, open_w, open_fails. rewrite Hd, Ha. reflexivity.
Qed.

(** [save_state] on a file that is opened and cannot be written: what the
    handler finds is the emptied file. *)
Lemma save_state_write_fault (st : ProcessingState) (w : world) :
  disk_fault w (get_state_file_path (file_path st) (stage st)) = true ->
  fault_after_open w (get_state_file_path (file_path st) (stage st)) = true ->
  save_state st w =
    (Ok tt, log_event (EvLogError ("Failed to save state for " +:+ file_path st))
              (write_file (get_state_file_path (file_path st) (stage st)) Unparseable w)).
Proof.
  intros Hd Ha.
  unfold save_state, try_except, M_bind, open_w, json_dump, open_fails, write_fails.
  rewrite Hd, Ha. simpl. rewrite Hd, Ha. simpl.
  by destruct (json_serializable (result st)).
Qed.

(** Within the model [save_state] never raises: whatever goes wrong after
    the file name is computed goes to the handler. *)
Lemma save_state_returns (st : ProcessingState) (w : world) :
  fst (save_state st w) = Ok tt.
Proof.
  unfold save_state, try_except, M_bind, open_w, json_dump.
  destruct (open_fails w _); simpl; [reflexivity|].
  destruct (json_serializable (result st)); [|reflexivity].
  by destruct (write_fails _ _).
Qed.

(** The three ways in which [save_state] ends: the record is written,
    nothing is written, or the file is left emptied; the last two with the
    handler's line in the log. *)
Lemma save_state_run (st : ProcessingState) (w : world) :
  let name := get_state_file_path (file_path st) (stage st) in
  let line := EvLogError ("Failed to save state for " +:+ file_path st) in
  save_state st w = (Ok tt, put_record st w) \/
  save_state st w = (Ok tt, log_event line w) \/
  save_state st w = (Ok tt, log_event line (write_file name Unparseable w)).
Proof.
  intros name line.
  destruct (disk_fault w name) eqn:Hd.
  - destruct (fault_after_open w name) eqn:Ha.
    + right. right. by apply save_state_write_fault.
    + right. left. by apply save_state_fault.
  - destruct (json_serializable (result st)) eqn:Hj.
    + left. by apply save_state_ok.
    + right. right.
      unfold save_state, try_except, M_bind, open_w, json_dump, open_fails.
      fold name. rewrite Hd. simpl. by rewrite Hj.
Qed.

Lemma stored_put_record (st : ProcessingState) (w : world) :
  stored (file_path st) (stage st) (put_record st w) = Some st.
Proof. unfold stored, put_record, write_file; simpl. by rewrite lookup_insert_eq. Qed.

Lemma stored_put_record_ne (fp : string) (s : ProcessingStage) (st : ProcessingState)
  (w : world) :
  file_path st = fp -> stage st <> s ->
  stored fp s (put_record st w) = stored fp s w.
Proof.
  intros <- Hne. unfold stored, put_record, write_file; simpl.
  rewrite lookup_insert_ne; [reflexivity|]. by apply get_state_file_path_ne.
Qed.

Lemma stored_unparseable (fp : string) (s : ProcessingStage) (w : world) :
  stored fp s (write_file (get_state_file_path fp s) Unparseable w) = None.
Proof. unfold stored, write_file; simpl. by rewrite lookup_insert_eq. Qed.

(** ** Dictionaries *)

Section DictFacts.
Context {K V : Type} (keq : K -> K -> bool).

(** A key that no stored key equals goes to the end. *)
Lemma dict_setitem_fresh (k : K) (v : V) (d : list (K * V)) :
  Forall (fun kv => keq (fst kv) k = false) d ->
  dict_setitem keq k v d = d ++ [(k, v)].
Proof.
  induction 1 as [|[k' v'] d Hk _ IH]; simpl; [reflexivity|].
  simpl in Hk. rewrite Hk. by rewrite IH.
Qed.

(** The first stored key equal to [k] takes the value, where it stands. *)
Lemma dict_setitem_hit (k k0 : K) (v l : V) (p q : list (K * V)) :
  Forall (fun kv => keq (fst kv) k = false) p ->
  keq k0 k = true ->
  dict_setitem keq k v (p ++ (k0, l) :: q) = p ++ (k0, v) :: q.
Proof.
  intros Hp Hk. induction Hp as [|[k' v'] p Hk' _ IH]; simpl.
  - by rewrite Hk.
  - simpl in Hk'. rewrite Hk'. by rewrite IH.
Qed.

(** An assignment keeps every key in its place, and the value of a key
    that the assigned one does not equal. *)
Lemma dict_setitem_shape (x k0 : K) (v l : V) (p q : list (K * V)) :
  exists p' l' q',
    dict_setitem keq x v (p ++ (k0, l) :: q) = p' ++ (k0, l') :: q' /\
    map fst p' = map fst p /\
    (keq k0 x = false -> l' = l).
Proof.
  induction p as [|[k1 v1] p IH]; simpl.
  - destruct (keq k0 x) eqn:E.
    + exists [], v, q. split; [reflexivity|]. split; [reflexivity|]. discriminate.
    + exists [], l, (dict_setitem keq x v q). by repeat split.
  - destruct (keq k1 x) eqn:E.
    + exists ((k1, v) :: p), l, q. by repeat split.
    + destruct IH as (p' & l' & q' & -> & Hm & Hl).
      exists ((k1, v1) :: p'), l', q'. simpl. rewrite Hm. by repeat split.
Qed.

Lemma dict_get_skip (k k0 : K) (l : V) (p q : list (K * V)) :
  Forall (fun kv => keq (fst kv) k = false) p ->
  keq k0 k = true ->
  dict_get keq k (p ++ (k0, l) :: q) = Some l.
Proof.
  intros Hp Hk. induction Hp as [|[k' v'] p Hk' _ IH]; simpl.
  - by rewrite Hk.
  - simpl in Hk'. by rewrite Hk'.
Qed.

(** Every key of the dict after an assignment was there before, or is the
    assigned one. *)
Lemma dict_setitem_keys (P : K -> Prop) (k : K) (v : V) (d : list (K * V)) :
  Forall (fun kv => P (fst kv)) d -> P k ->
  Forall (fun kv => P (fst kv)) (dict_setitem keq k v d).
Proof.
  intros Hd Hk. induction Hd as [|[k' v'] d Hk' Hd IH]; simpl.
  - by constructor.
  - destruct (keq k' k); constructor; assumption.
Qed.
End DictFacts.

Lemma string_dict_get_set_eq (k : string) (v : pyval) (d : list (string * pyval)) :
  dict_get String.eqb k (dict_setitem String.eqb k v d) = Some v.
Proof.
  induction d as [|[k' v'] d IH]; simpl.
  - by rewrite String.eqb_refl.
  - destruct (String.eqb k' k) eqn:E; simpl; rewrite E; [reflexivity|exact IH].
Qed.

Lemma string_dict_get_set_ne (k k' : string) (v : pyval) (d : list (string * pyval)) :
  k <> k' ->
  dict_get String.eqb k (dict_setitem String.eqb k' v d) = dict_get String.eqb k d.
Proof.
  intros Hne. induction d as [|[k1 v1] d IH]; simpl.
  - destruct (String.eqb k' k) eqn:E; [|reflexivity].
    apply String.eqb_eq in E. congruence.
  - destruct (String.eqb k1 k') eqn:E; simpl.
    + apply String.eqb_eq in E. subst k1.
      destruct (String.eqb k' k) eqn:E'; [|reflexivity].
      apply String.eqb_eq in E'. congruence.
    + destruct (String.eqb k1 k); [reflexivity|exact IH].
Qed.

(** ** Loops over lists *)

Lemma res_map_elem {A B} (f : A -> res B) (l : list A) (l' : list B) (y : B) :
  res_map f l = Ok l' -> y ∈ l' -> exists x, x ∈ l /\ f x = Ok y.
Proof.
  revert l'. induction l as [|a l IH]; simpl; intros l' H Hy.
  - injection H as <-. by apply elem_of_nil in Hy.
  - destruct (f a) as [b|e] eqn:Ea; simpl in H; [|discriminate].
    destruct (res_map f l) as [bs|e] eqn:El; simpl in H; [|discriminate].
    injection H as <-. apply elem_of_cons in Hy as [->|Hy].
    + exists a. split; [apply elem_of_cons; by left|exact Ea].
    + destruct (IH bs eq_refl Hy) as (x & Hx & Hfx).
      exists x. split; [apply elem_of_cons; by right|exact Hfx].
Qed.

(** ** Merge *)

Lemma find_speaker_first (m : float) (timeline : list (span * pyval)) (sp : pyval) :
  find_speaker m timeline = Ok sp -> first_containing m timeline sp.
Proof.
  induction timeline as [|[[s e] l] tl IH]; simpl; intros H.
  - injection H as <-. right. split; [constructor|reflexivity].
  - destruct (chained_le s m e) as [[|]|] eqn:E; simpl in H; [| |discriminate].
    + injection H as <-. left. exists [], (s, e), tl.
      split; [reflexivity|]. split; [exact E|constructor].
    + destruct (IH H) as [(pre & k & post & -> & Hk & Hpre)|[Hall ->]].
      * left. exists (((s, e), l) :: pre), k, post.
        split; [reflexivity|]. split; [exact Hk|]. constructor; [exact E|exact Hpre].
      * right. split; [|reflexivity]. constructor; [exact E|exact Hall].
Qed.

Lemma word_mid_point_setitem (kvs : list (string * pyval)) (v : pyval) :
  word_mid_point (PyDict (dict_setitem String.eqb "speaker" v kvs))
  = word_mid_point (PyDict kvs).
Proof.
  unfold word_mid_point, py_getitem.
  rewrite !string_dict_get_set_ne by discriminate. reflexivity.
Qed.

Lemma assign_speaker_spec (timeline : list (span * pyval)) (w0 w : pyval) :
  assign_speaker timeline w0 = Ok w ->
  exists m sp,
    word_mid_point w = Ok m /\ py_getitem w "speaker" = Ok sp /\
    first_containing m timeline sp.
Proof.
  unfold assign_speaker. intros H.
  destruct (word_mid_point w0) as [m|] eqn:Em; simpl in H; [|discriminate].
  destruct (find_speaker m timeline) as [sp|] eqn:Es; simpl in H; [|discriminate].
  destruct w0; simpl in H; try discriminate. injection H as <-.
  exists m, sp. split; [by rewrite word_mid_point_setitem|].
  split; [|by apply find_speaker_first].
  simpl. by rewrite string_dict_get_set_eq.
Qed.

Lemma merge_segment_words (timeline : list (span * pyval)) (x seg w : pyval) :
  merge_segment timeline x = Ok seg ->
  w ∈ words_of seg ->
  exists m sp,
    word_mid_point w = Ok m /\ py_getitem w "speaker" = Ok sp /\
    first_containing m timeline sp.
Proof.
  unfold merge_segment. intros H Hw.
  destruct (py_contains "words" x) as [[|]|] eqn:Ec; simpl in H; [| |discriminate].
  - destruct (py_getitem x "words") as [words|] eqn:Eg; simpl in H; [|discriminate].
    destruct (py_iter words) as [ws|] eqn:Ei; simpl in H; [|discriminate].
    destruct (res_map (assign_speaker timeline) ws) as [ws'|] eqn:Em; simpl in H;
      [|discriminate].
    assert (Hsame : seg = x -> ws = [] -> False).
    { intros -> ->. unfold words_of in Hw. rewrite Eg, Ei in Hw.
      by apply elem_of_nil in Hw. }
    destruct words as [| | | |l|kvs|]; simpl in Ei; try discriminate.
    + (* a string of words: only the empty one gets through *)
      injection H as <-. injection Ei as <-.
      destruct s as [|a s]; simpl in Em; [by destruct Hsame|discriminate].
    + (* a list of words *)
      injection Ei as <-.
      destruct x; simpl in H, Eg; try discriminate. injection H as <-.
      unfold words_of in Hw. simpl in Hw. rewrite string_dict_get_set_eq in Hw.
      simpl in Hw. destruct (res_map_elem _ _ _ _ Em Hw) as (w0 & _ & Hw0).
      by apply assign_speaker_spec in Hw0.
    + (* a dict of words: only the empty one gets through *)
      injection H as <-. injection Ei as <-.
      destruct kvs as [|kv kvs]; simpl in Em; [by destruct Hsame|discriminate].
  - injection H as <-. exfalso.
    unfold words_of in Hw. destruct x; simpl in Ec, Hw; try by apply elem_of_nil in Hw.
    unfold dict_has in Ec. injection Ec as Ec.
    destruct (dict_get String.eqb "words" kvs); [discriminate|].
    by apply elem_of_nil in Hw.
Qed.

(** ** Comparisons of floats *)

Lemma SFcompare_refl (x : spec_float) : x <> S754_nan -> SFcompare x x = Some Eq.
Proof.
  destruct x as [s|s| |s m e]; simpl; intros H; try reflexivity.
  - by destruct s.
  - by destruct H.
  - destruct s; rewrite Z.compare_refl, Pos.compare_cont_refl; reflexivity.
Qed.

Lemma SFcompare_Eq_sym (x y : spec_float) :
  SFcompare x y = Some Eq -> SFcompare y x = Some Eq.
Proof.
  destruct x as [s1|s1| |s1 m1 e1], y as [s2|s2| |s2 m2 e2]; simpl;
    try reflexivity; try discriminate;
    try (destruct s1; discriminate); try (destruct s2; discriminate).
  - destruct s1, s2; try reflexivity; discriminate.
  - destruct s1, s2; try discriminate.
    + destruct (Z.compare e1 e2) eqn:Ee; try discriminate.
      apply Z.compare_eq in Ee. subst e2.
      destruct (Pos.compare_cont Eq m1 m2) eqn:Em; try discriminate.
      apply Pos.compare_eq in Em. subst m2.
      rewrite Z.compare_refl, Pos.compare_cont_refl. reflexivity.
    + destruct (Z.compare e1 e2) eqn:Ee; try discriminate.
      apply Z.compare_eq in Ee. subst e2.
      destruct (Pos.compare_cont Eq m1 m2) eqn:Em; try discriminate.
      apply Pos.compare_eq in Em. subst m2.
      rewrite Z.compare_refl, Pos.compare_cont_refl. reflexivity.
Qed.

(** [x == y] is symmetric. *)
Lemma float_eqb_sym (x y : float) : PrimFloat.eqb x y = PrimFloat.eqb y x.
Proof.
  rewrite !eqb_spec. unfold SFeqb.
  destruct (SFcompare (Prim2SF x) (Prim2SF y)) as [[| |]|] eqn:E1;
    destruct (SFcompare (Prim2SF y) (Prim2SF x)) as [[| |]|] eqn:E2;
    try reflexivity.
  all: try (apply SFcompare_Eq_sym in E1; congruence).
  all: try (apply SFcompare_Eq_sym in E2; congruence).
Qed.

(** A float that is below or above another one is not a NaN, so it is
    equal to itself. *)
Lemma float_leb_eqb_l (x m : float) :
  PrimFloat.leb x m = true -> PrimFloat.eqb x x = true.
Proof.
  rewrite leb_spec, eqb_spec. unfold SFleb, SFeqb. intros H.
  rewrite SFcompare_refl; [reflexivity|]. intros E. rewrite E in H. discriminate H.
Qed.

Lemma float_leb_eqb_r (m y : float) :
  PrimFloat.leb m y = true -> PrimFloat.eqb y y = true.
Proof.
  rewrite leb_spec, eqb_spec. unfold SFleb, SFeqb. intros H.
  rewrite SFcompare_refl; [reflexivity|]. intros E. rewrite E in H.
  destruct (Prim2SF m); discriminate H.
Qed.

Lemma span_eqb_sym (a b : DiarizationSegment) :
  span_eqb (segment_span a) (segment_span b) = span_eqb (segment_span b) (segment_span a).
Proof.
  unfold span_eqb, segment_span; simpl.
  by rewrite (float_eqb_sym (start a)), (float_eqb_sym (end_ a)).
Qed.

(** A span that contains a point is equal to itself. *)
Lemma contains_span_eqb (a : DiarizationSegment) (m : float) :
  contains (segment_span a) m = Ok true ->
  span_eqb (segment_span a) (segment_span a) = true.
Proof.
  unfold contains, chained_le, py_le_l, py_le_r, segment_span, span_eqb; simpl.
  destruct (PrimFloat.leb (start a) m) eqn:E1; simpl; [|discriminate].
  intros H. injection H as E2.
  by rewrite (float_leb_eqb_l _ _ E1), (float_leb_eqb_r _ _ E2).
Qed.

(** Two floats that compare equal are the same float or two zeros. *)
Lemma SFcompare_Eq_inv (x y : spec_float) :
  SFcompare x y = Some Eq ->
  x = y \/ exists s1 s2, x = S754_zero s1 /\ y = S754_zero s2.
Proof.
  destruct x as [s1|s1| |s1 m1 e1], y as [s2|s2| |s2 m2 e2]; simpl; intros H;
    try discriminate H; try (destruct s1; discriminate H); try (destruct s2; discriminate H).
  - right. by exists s1, s2.
  - left. destruct s1, s2; try discriminate H; reflexivity.
  - left. destruct s1, s2; try discriminate H.
    + destruct (Z.compare e1 e2) eqn:Ee; try discriminate H.
      apply Z.compare_eq in Ee. subst e2.
      destruct (Pos.compare_cont Eq m1 m2) eqn:Em; try discriminate H.
      apply Pos.compare_eq in Em. by subst m2.
    + destruct (Z.compare e1 e2) eqn:Ee; try discriminate H.
      apply Z.compare_eq in Ee. subst e2.
      destruct (Pos.compare_cont Eq m1 m2) eqn:Em; try discriminate H.
      apply Pos.compare_eq in Em. by subst m2.
Qed.

Lemma SFcompare_zero_l (s1 s2 : bool) (m : spec_float) :
  SFcompare (S754_zero s1) m = SFcompare (S754_zero s2) m.
Proof. by destruct m. Qed.

Lemma SFcompare_zero_r (s1 s2 : bool) (m : spec_float) :
  SFcompare m (S754_zero s1) = SFcompare m (S754_zero s2).
Proof. by destruct m. Qed.

(** Floats that are equal compare alike with every float. *)
Lemma float_eqb_leb (a b m : float) :
  PrimFloat.eqb a b = true ->
  PrimFloat.leb a m = PrimFloat.leb b m /\ PrimFloat.leb m a = PrimFloat.leb m b.
Proof.
  rewrite eqb_spec, !leb_spec. unfold SFeqb, SFleb. intros H.
  destruct (SFcompare (Prim2SF a) (Prim2SF b)) as [[| |]|] eqn:E; try discriminate H.
  destruct (SFcompare_Eq_inv _ _ E) as [->|(s1 & s2 & -> & ->)]; [by split|].
  by rewrite (SFcompare_zero_l s1 s2), (SFcompare_zero_r s1 s2).
Qed.

(** ** The speaker timeline of a list of intervals *)

(** The dict that the comprehension builds from well-formed intervals *)
Lemma speaker_timeline_segments (l : list DiarizationSegment) (acc : list (span * pyval)) :
  speaker_timeline (map segment_dict l) acc
  = Ok (fill_timeline l acc).
Proof.
  revert acc. induction l as [|x l IH]; intros acc; simpl; [reflexivity|].
  by rewrite IH.
Qed.

Lemma fill_timeline_app (l1 l2 : list DiarizationSegment) (acc : list (span * pyval)) :
  fill_timeline (l1 ++ l2) acc = fill_timeline l2 (fill_timeline l1 acc).
Proof. unfold fill_timeline. by rewrite fold_left_app. Qed.

Lemma fill_timeline_cons (x : DiarizationSegment) (l : list DiarizationSegment)
  (acc : list (span * pyval)) :
  fill_timeline (x :: l) acc
  = fill_timeline l (dict_setitem span_eqb (segment_span x) (PyStr (speaker x)) acc).
Proof. reflexivity. Qed.

(** Without a repeated span the dict lists the intervals in their order. *)
Lemma timeline_distinct (l : list DiarizationSegment) (acc : list (span * pyval)) :
  distinct_spans l ->
  Forall (fun kv => Forall (fun y => span_eqb (fst kv) (segment_span y) = false) l) acc ->
  fill_timeline l acc = acc ++ map segment_entry l.
Proof.
  revert acc. induction l as [|x l IH]; intros acc Hd Hacc; simpl.
  - by rewrite app_nil_r.
  - destruct Hd as [Hx Hd].
    rewrite dict_setitem_fresh.
    + rewrite IH; [by rewrite <- app_assoc|exact Hd|].
      apply Forall_app. split.
      * eapply Forall_impl; [exact Hacc|]. intros kv H. by inversion H.
      * constructor; [exact Hx|constructor].
    + eapply Forall_impl; [exact Hacc|]. intros kv H. by inversion H.
Qed.

(** Every key of the dict is the span of one of the intervals. *)
Lemma timeline_keys (P : span -> Prop) (l : list DiarizationSegment)
  (acc : list (span * pyval)) :
  Forall (fun kv => P (fst kv)) acc ->
  Forall (fun x => P (segment_span x)) l ->
  Forall (fun kv => P (fst kv)) (fill_timeline l acc).
Proof.
  revert acc. induction l as [|x l IH]; intros acc Hacc Hl; simpl; [exact Hacc|].
  inversion Hl; subst. apply IH; [|assumption].
  by apply dict_setitem_keys.
Qed.

(** Later intervals leave an entry in its place, behind the same keys, and
    leave its label alone when none of them has its span. *)
Lemma timeline_shape (l : list DiarizationSegment) (k0 : span) (v : pyval)
  (p q : list (span * pyval)) :
  exists p' v' q',
    fill_timeline l (p ++ (k0, v) :: q) = p' ++ (k0, v') :: q' /\
    map fst p' = map fst p /\
    (Forall (fun x => span_eqb k0 (segment_span x) = false) l -> v' = v).
Proof.
  revert v p q. induction l as [|x l IH]; intros v p q; simpl.
  - exists p, v, q. by repeat split.
  - destruct (dict_setitem_shape span_eqb (segment_span x) k0 (PyStr (speaker x)) v p q)
      as (p1 & v1 & q1 & -> & Hm1 & Hv1).
    destruct (IH v1 p1 q1) as (p2 & v2 & q2 & -> & Hm2 & Hv2).
    exists p2, v2, q2. split; [reflexivity|]. split; [congruence|].
    intros H. inversion H; subst. rewrite Hv2 by assumption. by apply Hv1.
Qed.

Lemma find_speaker_skip (m : float) (p q : list (span * pyval)) (k : span) (v : pyval) :
  Forall (fun kv => contains (fst kv) m = Ok false) p ->
  contains k m = Ok true ->
  find_speaker m (p ++ (k, v) :: q) = Ok v.
Proof.
  intros Hp Hk. induction Hp as [|[[s e] l] p Hkv _ IH]; simpl.
  - destruct k as [s e]. unfold contains in Hk; simpl in Hk. by rewrite Hk.
  - unfold contains in Hkv; simpl in Hkv. by rewrite Hkv.
Qed.

Lemma Forall_fst_map {A B} (P : A -> Prop) (l l' : list (A * B)) :
  map fst l = map fst l' ->
  Forall (fun kv => P (fst kv)) l' -> Forall (fun kv => P (fst kv)) l.
Proof.
  revert l'. induction l as [|a l IH]; intros [|a' l'] Hm H; simpl in Hm;
    try discriminate; [constructor|].
  injection Hm as Ha Hm. inversion H; subst.
  constructor; [by rewrite Ha|by eapply IH].
Qed.

Lemma same_span_in_interval (x y : DiarizationSegment) (m : float) :
  same_span x y = true -> in_interval m x = in_interval m y.
Proof.
  unfold same_span, in_interval. intros H. apply andb_true_iff in H as [Hs He].
  destruct (float_eqb_leb _ _ m Hs) as [-> _].
  destruct (float_eqb_leb _ _ m He) as [_ ->]. reflexivity.
Qed.

Lemma span_eqb_same_span (x y : DiarizationSegment) :
  span_eqb (segment_span x) (segment_span y) = same_span x y.
Proof. reflexivity. Qed.

(** The test of the inner loop on the key of an interval *)
Lemma contains_in_interval (x : DiarizationSegment) (m : float) :
  contains (segment_span x) m = Ok (in_interval m x).
Proof.
  unfold contains, chained_le, py_le_l, py_le_r, segment_span, in_interval; simpl.
  by destruct (PrimFloat.leb (start x) m).
Qed.

Lemma keys_outside_contains (m : float) (tl : list (span * pyval)) :
  keys_outside m tl -> Forall (fun kv => contains (fst kv) m = Ok false) tl.
Proof.
  intros H. eapply Forall_impl; [exact H|].
  intros kv (z & -> & Hz). by rewrite contains_in_interval, Hz.
Qed.

Lemma keys_outside_other (m : float) (tl : list (span * pyval)) (y : DiarizationSegment) :
  keys_outside m tl -> in_interval m y = true ->
  Forall (fun kv => span_eqb (fst kv) (segment_span y) = false) tl.
Proof.
  intros Htl Hy. eapply Forall_impl; [exact Htl|].
  intros kv (z & -> & Hz). rewrite span_eqb_same_span.
  destruct (same_span z y) eqn:E; [|reflexivity].
  rewrite (same_span_in_interval _ _ m E) in Hz. congruence.
Qed.

Lemma find_speaker_outside (m : float) (tl : list (span * pyval)) :
  keys_outside m tl -> find_speaker m tl = Ok (PyStr "UNKNOWN").
Proof.
  intros H. apply keys_outside_contains in H.
  induction H as [|[[s e] v] tl Hkv _ IH]; simpl; [reflexivity|].
  unfold contains in Hkv; simpl in Hkv. by rewrite Hkv.
Qed.

(** Once the first interval that contains [m] has its entry, the later
    intervals leave the entry where it is, behind keys that do not contain
    [m], and those of its span give it their label. *)
Lemma timeline_after_first (m : float) (x : DiarizationSegment)
  (later : list DiarizationSegment) :
  in_interval m x = true ->
  forall (found : string) (p q : list (span * pyval)),
    keys_outside m p ->
    exists p' q',
      fill_timeline later (p ++ (segment_span x, PyStr found) :: q)
      = p' ++ (segment_span x, PyStr (last_label_of_span x later found)) :: q' /\
      keys_outside m p'.
Proof.
  intros Hx. induction later as [|y later IH]; intros found p q Hp.
  - exists p, q. by split.
  - rewrite fill_timeline_cons. cbn [last_label_of_span].
    destruct (same_span x y) eqn:E.
    + rewrite dict_setitem_hit.
      * by apply IH.
      * apply (keys_outside_other m); [exact Hp|].
        by rewrite <- (same_span_in_interval _ _ m E).
      * exact E.
    + destruct (dict_setitem_shape span_eqb (segment_span y) (segment_span x)
                  (PyStr (speaker y)) (PyStr found) p q) as (p1 & v1 & q1 & -> & Hm & Hv).
      rewrite (Hv E). apply IH.
      unfold keys_outside.
      exact (Forall_fst_map (fun k => exists z, k = segment_span z /\ in_interval m z = false)
               _ _ Hm Hp).
Qed.

(** The inner loop on the timeline of a list of intervals *)
Lemma find_speaker_timeline (m : float) (l : list DiarizationSegment) :
  forall acc, keys_outside m acc ->
    find_speaker m (fill_timeline l acc) = Ok (PyStr (assigned_label m l)).
Proof.
  induction l as [|x l IH]; intros acc Hacc.
  - by apply find_speaker_outside.
  - rewrite fill_timeline_cons. cbn [assigned_label].
    destruct (in_interval m x) eqn:Hx.
    + rewrite (dict_setitem_fresh span_eqb _ _ _ (keys_outside_other m acc x Hacc Hx)).
      destruct (timeline_after_first m x l Hx (speaker x) acc [] Hacc)
        as (p' & q' & -> & Hp').
      apply find_speaker_skip; [by apply keys_outside_contains|].
      by rewrite contains_in_interval, Hx.
    + apply IH.
      apply (dict_setitem_keys span_eqb
               (fun k => exists z, k = segment_span z /\ in_interval m z = false));
        [exact Hacc|]. by exists x.
Qed.

(** The midpoint of a word, in the numbers of its two times *)
Lemma word_mid_point_formula (word : pyval) (m : float) :
  word_mid_point word = Ok m ->
  exists a b, number_at word "start" a /\ number_at word "end" b /\
              m = (a + (b - a) / 2)%float.
Proof.
  unfold word_mid_point, number_at. intros H.
  destruct (py_getitem word "start") as [vs|] eqn:Es; simpl in H; [|discriminate].
  destruct (py_getitem word "end") as [ve|] eqn:Ee; simpl in H; [|discriminate].
  unfold py_sub, py_add in H.
  destruct (as_number ve) as [b|] eqn:Eb; simpl in H; [|discriminate].
  destruct (as_number vs) as [a|] eqn:Ea; simpl in H; [|discriminate].
  injection H as <-. exists a, b. split; [by exists vs|]. split; [by exists ve|reflexivity].
Qed.

(** *** The rule of the amended tie-break, read on the list *)

Lemma last_label_of_span_none (x : DiarizationSegment) (later : list DiarizationSegment)
  (found : string) :
  Forall (fun y => same_span x y = false) later ->
  last_label_of_span x later found = found.
Proof.
  intros H. revert found. induction H as [|y later Hy _ IH]; intros found; simpl;
    [reflexivity|].
  by rewrite Hy.
Qed.

Lemma last_label_of_span_last (x z : DiarizationSegment)
  (mid post : list DiarizationSegment) (found : string) :
  same_span x z = true ->
  Forall (fun y => same_span x y = false) post ->
  last_label_of_span x (mid ++ z :: post) found = speaker z.
Proof.
  intros Hz Hpost. revert found. induction mid as [|y mid IH]; intros found; simpl.
  - rewrite Hz. by apply last_label_of_span_none.
  - apply IH.
Qed.

(** No interval contains the point: the sentinel. *)
Lemma assigned_label_none (m : float) (l : list DiarizationSegment) :
  Forall (fun y => in_interval m y = false) l -> assigned_label m l = "UNKNOWN".
Proof. induction 1 as [|y l Hy _ IH]; simpl; [reflexivity|]. by rewrite Hy. Qed.

(** The first interval that contains the point gives its label when no
    later interval has its span. *)
Lemma assigned_label_first (m : float) (x : DiarizationSegment)
  (pre post : list DiarizationSegment) :
  Forall (fun y => in_interval m y = false) pre ->
  in_interval m x = true ->
  Forall (fun y => same_span x y = false) post ->
  assigned_label m (pre ++ x :: post) = speaker x.
Proof.
  intros Hpre Hx Hpost. induction Hpre as [|y pre Hy _ IH]; simpl.
  - rewrite Hx. by apply last_label_of_span_none.
  - by rewrite Hy.
Qed.

(** When later intervals have the span of the first interval that contains
    the point, the last of them gives the label. *)
Lemma assigned_label_last (m : float) (x z : DiarizationSegment)
  (pre mid post : list DiarizationSegment) :
  Forall (fun y => in_interval m y = false) pre ->
  in_interval m x = true ->
  same_span x z = true ->
  Forall (fun y => same_span x y = false) post ->
  assigned_label m (pre ++ x :: mid ++ z :: post) = speaker z.
Proof.
  intros Hpre Hx Hz Hpost. induction Hpre as [|y pre Hy _ IH]; simpl.
  - rewrite Hx. by apply last_label_of_span_last.
  - by rewrite Hy.
Qed.

(** With intervals of pairwise different spans, the timeline is iterated in
    the order of the diarization list. *)
Lemma speaker_timeline_in_list_order (l : list DiarizationSegment) :
  distinct_spans l ->
  speaker_timeline (map segment_dict l) [] = Ok (map segment_entry l).
Proof.
  intros Hd. rewrite speaker_timeline_segments.
  by rewrite timeline_distinct; [|exact Hd|constructor].
Qed.

(** The spec's own example: intervals [(0, 1.5, "A")] and [(1.5, 3.0, "B")],
    a word over [1.0, 2.0]. Its midpoint 1.5 lies in both, and the word
    takes "A", the first of the two in iteration order. *)
Example merge_tie_break_example :
  perform_merge (PyList [PyDict [("words", PyList [py_word "w" 1 2])]])
                (PyList [py_interval 0 1.5 "A"; py_interval 1.5 3 "B"])
  = Ok (PyList [PyDict [("words",
          PyList [PyDict [("word", PyStr "w"); ("start", PyNum 1); ("end", PyNum 2);
                          ("speaker", PyStr "A")]])]]).
Proof. vm_compute. reflexivity. Qed.

(** Whenever the merge of aligned segments and diarization intervals gives
    a result, every word of every segment of the result has a midpoint [m]
    and carries as [speaker] the label of the first entry of the speaker
    timeline, in the order the timeline is iterated, whose span contains
    [m], or the sentinel when no entry does. *)
Lemma perform_merge_first_containing (aligned diar final : pyval) :
  perform_merge aligned diar = Ok final ->
  exists dsegs timeline fs,
    py_iter diar = Ok dsegs /\
    speaker_timeline dsegs [] = Ok timeline /\
    final = PyList fs /\
    forall seg w, seg ∈ fs -> w ∈ words_of seg ->
      exists m sp,
        word_mid_point w = Ok m /\
        py_getitem w "speaker" = Ok sp /\
        first_containing m timeline sp.
Proof.
  unfold perform_merge. intros H.
  destruct (py_iter diar) as [dsegs|] eqn:Ed; simpl in H; [|discriminate].
  destruct (speaker_timeline dsegs []) as [timeline|] eqn:Et; simpl in H; [|discriminate].
  destruct (py_iter aligned) as [asegs|] eqn:Ea; simpl in H; [|discriminate].
  destruct (res_map (merge_segment timeline) asegs) as [fs|] eqn:Em; simpl in H;
    [|discriminate].
  injection H as <-. exists dsegs, timeline, fs.
  split; [reflexivity|]. split; [exact Et|]. split; [reflexivity|].
  intros seg w Hseg Hw.
  destruct (res_map_elem _ _ _ _ Em Hseg) as (x & _ & Hx).
  exact (merge_segment_words _ _ _ _ Hx Hw).
Qed.

(** The last of two intervals with one span does not always give its
    label: not when an interval listed before them contains the midpoint
    too. Take intervals [(0, 5, "X")], [(1, 2, "A")], [(1, 2, "B")] and a word over
    [1, 2]. The midpoint 1.5 falls in the span (1, 2) of the two duplicates,
    and the word takes "X". *)
Lemma last_duplicate_label_loses_to_earlier_span :
  word_mid_point (py_word "w" 1 2) = Ok 1.5%float /\
  contains (PyNum 1, PyNum 2) 1.5 = Ok true /\
  perform_merge (PyList [PyDict [("words", PyList [py_word "w" 1 2])]])
                (PyList [py_interval 0 5 "X"; py_interval 1 2 "A"; py_interval 1 2 "B"])
  = Ok (PyList [PyDict [("words",
          PyList [PyDict [("word", PyStr "w"); ("start", PyNum 1); ("end", PyNum 2);
                          ("speaker", PyStr "X")]])]]).
Proof. vm_compute. repeat split; reflexivity. Qed.

(** C10, amended. Let [a] be the first and [b] the last interval of a
    diarization result that have one and the same span. The speaker timeline
    then holds one entry for that span, with the label of [b]; and a word
    whose midpoint falls in that span, and in no interval listed before [a],
    is assigned the label of [b], not that of [a], the first containing
    interval of the list. *)
Theorem last_duplicate_label_wins
  (pre mid post : list DiarizationSegment) (a b : DiarizationSegment) (m : float) :
  start a = start b -> end_ a = end_ b ->
  Forall (fun x => span_eqb (segment_span x) (segment_span a) = false) pre ->
  Forall (fun x => span_eqb (segment_span x) (segment_span a) = false) post ->
  contains (segment_span a) m = Ok true ->
  Forall (fun x => contains (segment_span x) m = Ok false) pre ->
  exists timeline,
    speaker_timeline (map segment_dict (pre ++ a :: mid ++ b :: post)) [] = Ok timeline /\
    dict_get span_eqb (segment_span a) timeline = Some (PyStr (speaker b)) /\
    forall word,
      word_mid_point word = Ok m ->
      assign_speaker timeline word = py_setitem word "speaker" (PyStr (speaker b)).
Proof.
  intros Hs He Hfirst Hlast Hin Hpre.
  assert (Hab : segment_span b = segment_span a).
  { unfold segment_span. by rewrite Hs, He. }
  pose proof (contains_span_eqb a m Hin) as Hrefl.
  assert (Hkeys : Forall (fun kv => span_eqb (fst kv) (segment_span a) = false /\
                                     contains (fst kv) m = Ok false)
                         (fill_timeline pre [])).
  { apply (timeline_keys (fun k => span_eqb k (segment_span a) = false /\
                                    contains k m = Ok false)); [constructor|].
    apply Forall_forall. intros x Hx.
    rewrite Forall_forall in Hfirst, Hpre. split; [by apply Hfirst|by apply Hpre]. }
  assert (Hk1 : Forall (fun kv => span_eqb (fst kv) (segment_span a) = false)
                       (fill_timeline pre [])).
  { eapply Forall_impl; [exact Hkeys|]. by intros kv [H _]. }
  assert (Hk2 : Forall (fun kv => contains (fst kv) m = Ok false) (fill_timeline pre [])).
  { eapply Forall_impl; [exact Hkeys|]. by intros kv [_ H]. }
  rewrite speaker_timeline_segments.
  rewrite fill_timeline_app, fill_timeline_cons, fill_timeline_app, fill_timeline_cons.
  rewrite (dict_setitem_fresh span_eqb _ _ _ Hk1).
  destruct (timeline_shape mid (segment_span a) (PyStr (speaker a)) (fill_timeline pre []) [])
    as (p1 & v1 & q1 & E1 & Hm1 & _).
  rewrite E1.
  assert (Hp1 : Forall (fun kv => span_eqb (fst kv) (segment_span a) = false) p1).
  { exact (Forall_fst_map (fun k => span_eqb k (segment_span a) = false) _ _ Hm1 Hk1). }
  rewrite Hab.
  rewrite (dict_setitem_hit span_eqb _ _ _ _ _ _ Hp1 Hrefl).
  destruct (timeline_shape post (segment_span a) (PyStr (speaker b)) p1 q1)
    as (p2 & v2 & q2 & E2 & Hm2 & Hv2).
  rewrite E2.
  rewrite Hv2.
  2:{ eapply Forall_impl; [exact Hlast|]. intros x Hx. by rewrite span_eqb_sym. }
  assert (Hp2 : Forall (fun kv => span_eqb (fst kv) (segment_span a) = false) p2).
  { exact (Forall_fst_map (fun k => span_eqb k (segment_span a) = false) _ _ Hm2 Hp1). }
  assert (Hc2 : Forall (fun kv => contains (fst kv) m = Ok false) p2).
  { apply (Forall_fst_map (fun k => contains k m = Ok false) _ _ Hm2).
    exact (Forall_fst_map (fun k => contains k m = Ok false) _ _ Hm1 Hk2). }
  eexists. split; [reflexivity|]. split.
  - by apply dict_get_skip.
  - intros word Hw. unfold assign_speaker. rewrite Hw. simpl.
    by rewrite (find_speaker_skip _ _ _ _ _ Hc2 Hin).
Qed.

Lemma last_duplicate_label_wins_witness :
  let x := mkSegment 7 9 "X" in
  let a := mkSegment 1 2 "A" in
  let b := mkSegment 1 2 "B" in
  exists timeline,
    speaker_timeline (map segment_dict ([x] ++ a :: [] ++ b :: [])) [] = Ok timeline /\
    dict_get span_eqb (segment_span a) timeline = Some (PyStr (speaker b)) /\
    forall word,
      word_mid_point word = Ok 1.5%float ->
      assign_speaker timeline word = py_setitem word "speaker" (PyStr (speaker b)).
Proof.
  intros x a b.
  apply (last_duplicate_label_wins [x] [] [] a b 1.5%float).
  - reflexivity.
  - reflexivity.
  - repeat constructor.
  - constructor.
  - reflexivity.
  - repeat constructor.
Defined.

(** ** Transcription workers and devices *)

Lemma filter_repeat_other (s : ProcessingStage) (n : nat) :
  s <> TRANSCRIPTION ->
  List.filter (fun s => bool_decide (s = TRANSCRIPTION)) (repeat s n) = [].
Proof.
  intros Hs. induction n as [|n IH]; simpl; [reflexivity|].
  rewrite bool_decide_eq_false_2 by exact Hs. exact IH.
Qed.

Lemma filter_transcription_threads (self : StreamingPipeline) :
  List.filter (fun s => bool_decide (s = TRANSCRIPTION)) (start_workers self)
  = map (fun _ => TRANSCRIPTION) (gpu_devices self).
Proof.
  unfold start_workers. rewrite !List.filter_app.
  rewrite !filter_repeat_other by discriminate. simpl.
  induction (gpu_devices self) as [|d l IH]; simpl; [reflexivity|]. by rewrite IH.
Qed.

(** C6, as the code has it. [start_workers] starts one transcription thread
    per entry of [gpu_devices], and every one of these threads builds its
    transcriber on [gpu_devices[0]]: with the devices "cuda:0" and "cuda:1"
    the two threads both own "cuda:0" and none owns "cuda:1". *)
Theorem transcription_threads_all_on_first_device :
  (forall self,
      length (transcription_thread_devices self) = length (gpu_devices self) /\
      Forall (fun d => d = transcription_worker_device self)
             (transcription_thread_devices self))
  /\ gpu_devices demo_pipeline = ["cuda:0"; "cuda:1"]
  /\ transcription_thread_devices demo_pipeline = [Ok "cuda:0"; Ok "cuda:0"].
Proof.
  split; [|split; reflexivity].
  intros self. unfold transcription_thread_devices.
  rewrite filter_transcription_threads, !length_map. split; [reflexivity|].
  apply Forall_forall. intros d Hd.
  apply list_elem_of_In, in_map_iff in Hd. by destruct Hd as (_ & <- & _).
Qed.

(** ** Running pipeline code *)

Lemma M_bind_ok {A B} (m : M A) (k : A -> M B) (w w' : world) (a : A) :
  m w = (Ok a, w') -> M_bind m k w = k a w'.
Proof. intros H. unfold M_bind. by rewrite H. Qed.

Lemma M_bind_raise {A B} (m : M A) (k : A -> M B) (w w' : world) (e : exn) :
  m w = (Raise e, w') -> M_bind m k w = (Raise e, w').
Proof. intros H. unfold M_bind. by rewrite H. Qed.

Lemma bind_load_state {B} (fp : string) (s : ProcessingStage)
  (k : option ProcessingState -> M B) (w : world) :
  M_bind (load_state fp s) k w = k (stored fp s w) (after_load fp s w).
Proof. apply M_bind_ok, load_state_spec. Qed.

Lemma bind_time_time {B} (k : Z -> M B) (w : world) :
  M_bind time_time k w = k (clock w) w.
Proof. reflexivity. Qed.

Lemma notify_progress_run (self : StreamingPipeline) (st : ProcessingState) (w : world) :
  notify_progress self st w = (Ok tt, notified self st w).
Proof. unfold notify_progress, notified. by destruct (progress_callback self). Qed.

Lemma bind_notify_progress {B} (self : StreamingPipeline) (st : ProcessingState)
  (k : unit -> M B) (w : world) :
  M_bind (notify_progress self st) k w = k tt (notified self st w).
Proof. apply M_bind_ok, notify_progress_run. Qed.

Lemma bind_invoke {B} (c : call) (r : res pyval) (k : pyval -> M B) (w : world) :
  M_bind (invoke c r) k w =
    match r with
    | Ok v => k v (log_event (EvCall c) w)
    | Raise e => (Raise e, log_event (EvCall c) w)
    end.
Proof. unfold invoke, M_bind, emit, modify, lift. by destruct r. Qed.

Lemma bind_lift {A B} (r : res A) (k : A -> M B) (w : world) :
  M_bind (lift r) k w =
    match r with
    | Ok v => k v w
    | Raise e => (Raise e, w)
    end.
Proof. unfold M_bind, lift. by destruct r. Qed.

Lemma bind_save_state_ok {B} (st : ProcessingState) (k : unit -> M B) (w : world) :
  disk_fault w (state_file_of st) = false ->
  json_serializable (result st) = true ->
  M_bind (save_state st) k w = k tt (put_record st w).
Proof. intros Hd Hj. by apply M_bind_ok, save_state_ok. Qed.

Lemma bind_save_state_fault {B} (st : ProcessingState) (k : unit -> M B) (w : world) :
  disk_fault w (state_file_of st) = true ->
  fault_after_open w (state_file_of st) = false ->
  M_bind (save_state st) k w
  = k tt (log_event (EvLogError ("Failed to save state for " +:+ file_path st)) w).
Proof. intros Hd Ha. by apply M_bind_ok, save_state_fault. Qed.

Lemma bind_save_state_write_fault {B} (st : ProcessingState) (k : unit -> M B) (w : world) :
  disk_fault w (state_file_of st) = true ->
  fault_after_open w (state_file_of st) = true ->
  M_bind (save_state st) k w
  = k tt (log_event (EvLogError ("Failed to save state for " +:+ file_path st))
            (write_file (state_file_of st) Unparseable w)).
Proof. intros Hd Ha. by apply M_bind_ok, save_state_write_fault. Qed.

(** One turn of a worker with a token at the head of its queue *)
Lemma worker_turn_token (q : ProcessingStage) (body : string -> M unit) (msg : string)
  (w : world) (fp : string) (rest : list (option string)) :
  queues w q = Some fp :: rest ->
  worker_turn q body msg w =
    match body fp (queue_set q rest w) with
    | (Ok _, w2) => (Continue, w2)
    | (Raise _, w2) => (Continue, log_event (EvLogError msg) w2)
    end.
Proof. intros H. unfold worker_turn. by rewrite H. Qed.

(** *** What each step leaves alone *)

Lemma stored_after_load fp s fp' s' w : stored fp s (after_load fp' s' w) = stored fp s w.
Proof. reflexivity. Qed.
Lemma stored_log_event fp s e w : stored fp s (log_event e w) = stored fp s w.
Proof. reflexivity. Qed.
Lemma stored_queue_set fp s q l w : stored fp s (queue_set q l w) = stored fp s w.
Proof. reflexivity. Qed.
Lemma stored_notified fp s self st w : stored fp s (notified self st w) = stored fp s w.
Proof. unfold notified. by destruct (progress_callback self). Qed.

Lemma disk_fault_after_load fp s w : disk_fault (after_load fp s w) = disk_fault w.
Proof. reflexivity. Qed.
Lemma disk_fault_log_event e w : disk_fault (log_event e w) = disk_fault w.
Proof. reflexivity. Qed.
Lemma disk_fault_queue_set q l w : disk_fault (queue_set q l w) = disk_fault w.
Proof. reflexivity. Qed.
Lemma disk_fault_put_record st w : disk_fault (put_record st w) = disk_fault w.
Proof. reflexivity. Qed.
Lemma disk_fault_notified self st w : disk_fault (notified self st w) = disk_fault w.
Proof. unfold notified. by destruct (progress_callback self). Qed.

Lemma fault_after_open_after_load fp s w :
  fault_after_open (after_load fp s w) = fault_after_open w.
Proof. reflexivity. Qed.
Lemma fault_after_open_log_event e w : fault_after_open (log_event e w) = fault_after_open w.
Proof. reflexivity. Qed.
Lemma fault_after_open_queue_set q l w :
  fault_after_open (queue_set q l w) = fault_after_open w.
Proof. reflexivity. Qed.
Lemma fault_after_open_write_file name c w :
  fault_after_open (write_file name c w) = fault_after_open w.
Proof. reflexivity. Qed.
Lemma fault_after_open_put_record st w :
  fault_after_open (put_record st w) = fault_after_open w.
Proof. reflexivity. Qed.
Lemma fault_after_open_notified self st w :
  fault_after_open (notified self st w) = fault_after_open w.
Proof. unfold notified. by destruct (progress_callback self). Qed.

Lemma queues_write_file name c w : queues (write_file name c w) = queues w.
Proof. reflexivity. Qed.
Lemma clock_write_file name c w : clock (write_file name c w) = clock w.
Proof. reflexivity. Qed.
Lemma disk_fault_write_file name c w : disk_fault (write_file name c w) = disk_fault w.
Proof. reflexivity. Qed.
Lemma trace_write_file name c w : trace (write_file name c w) = trace w.
Proof. reflexivity. Qed.
Lemma states_dir_write_file name c w :
  states_dir (write_file name c w) = <[name := c]> (states_dir w).
Proof. reflexivity. Qed.

Lemma clock_after_load fp s w : clock (after_load fp s w) = clock w.
Proof. reflexivity. Qed.
Lemma clock_log_event e w : clock (log_event e w) = clock w.
Proof. reflexivity. Qed.
Lemma clock_queue_set q l w : clock (queue_set q l w) = clock w.
Proof. reflexivity. Qed.
Lemma clock_put_record st w : clock (put_record st w) = clock w.
Proof. reflexivity. Qed.
Lemma clock_notified self st w : clock (notified self st w) = clock w.
Proof. unfold notified. by destruct (progress_callback self). Qed.

Lemma queues_after_load fp s w : queues (after_load fp s w) = queues w.
Proof. reflexivity. Qed.
Lemma queues_log_event e w : queues (log_event e w) = queues w.
Proof. reflexivity. Qed.
Lemma queues_put_record st w : queues (put_record st w) = queues w.
Proof. reflexivity. Qed.
Lemma queues_notified self st w : queues (notified self st w) = queues w.
Proof. unfold notified. by destruct (progress_callback self). Qed.
Lemma queues_queue_set_eq q l w : queues (queue_set q l w) q = l.
Proof. unfold queue_set; simpl. by rewrite decide_True. Qed.
Lemma queues_queue_set_ne q q' l w : q' <> q -> queues (queue_set q l w) q' = queues w q'.
Proof. intros H. unfold queue_set; simpl. by rewrite decide_False. Qed.

Lemma states_dir_after_load fp s w : states_dir (after_load fp s w) = states_dir w.
Proof. reflexivity. Qed.
Lemma states_dir_log_event e w : states_dir (log_event e w) = states_dir w.
Proof. reflexivity. Qed.
Lemma states_dir_queue_set q l w : states_dir (queue_set q l w) = states_dir w.
Proof. reflexivity. Qed.
Lemma states_dir_notified self st w : states_dir (notified self st w) = states_dir w.
Proof. unfold notified. by destruct (progress_callback self). Qed.

Lemma trace_after_load fp s w : trace (after_load fp s w) = trace w ++ load_log fp s w.
Proof. reflexivity. Qed.
Lemma trace_log_event e w : trace (log_event e w) = trace w ++ [e].
Proof. reflexivity. Qed.
Lemma trace_queue_set q l w : trace (queue_set q l w) = trace w.
Proof. reflexivity. Qed.
Lemma trace_put_record st w : trace (put_record st w) = trace w.
Proof. reflexivity. Qed.
Lemma trace_notified self st w :
  trace (notified self st w)
  = trace w ++ (if progress_callback self then [EvProgress st] else []).
Proof.
  unfold notified. destruct (progress_callback self); [reflexivity|].
  by rewrite app_nil_r.
Qed.

Create Rewrite HintDb world.

#[local] Hint Rewrite
  stored_after_load stored_log_event stored_queue_set stored_notified
  disk_fault_after_load disk_fault_log_event disk_fault_queue_set disk_fault_put_record
  disk_fault_notified
  fault_after_open_after_load fault_after_open_log_event fault_after_open_queue_set
  fault_after_open_write_file fault_after_open_put_record fault_after_open_notified
  clock_after_load clock_log_event clock_queue_set clock_put_record clock_notified
  queues_after_load queues_log_event queues_put_record queues_notified
  queues_queue_set_eq
  states_dir_after_load states_dir_log_event states_dir_queue_set states_dir_notified
  trace_after_load trace_log_event trace_queue_set trace_put_record trace_notified
  : world.
#[local] Hint Rewrite stored_put_record_ne using (first [reflexivity | discriminate]) : world.
#[local] Hint Rewrite queues_queue_set_ne using discriminate : world.

(** *** The three sequences that the loops share *)

Lemma begin_running_ok (self : StreamingPipeline) (fp : string) (s : ProcessingStage)
  (w : world) :
  disk_fault w (get_state_file_path fp s) = false ->
  begin_running self fp s w
  = (Ok (running_state fp s (clock w)),
     notified self (running_state fp s (clock w))
       (put_record (running_state fp s (clock w)) w)).
Proof.
  intros Hd. unfold begin_running. rewrite bind_time_time.
  rewrite bind_save_state_ok; [|exact Hd|reflexivity].
  by rewrite bind_notify_progress.
Qed.

Lemma fail_with_ok (self : StreamingPipeline) (state : ProcessingState) (err : string)
  (w : world) :
  disk_fault w (state_file_of state) = false ->
  json_serializable (result state) = true ->
  fail_with self state err w
  = (Ok tt, notified self (failed_state state err (clock w))
              (put_record (failed_state state err (clock w)) w)).
Proof.
  intros Hd Hj. unfold fail_with. rewrite bind_time_time.
  rewrite bind_save_state_ok; [|exact Hd|exact Hj].
  apply notify_progress_run.
Qed.

Lemma complete_with_ok (self : StreamingPipeline) (state : ProcessingState) (r : pyval)
  (next : ProcessingStage) (w : world) :
  disk_fault w (state_file_of state) = false ->
  json_serializable r = true ->
  complete_with self state r next w
  = (Ok tt, queue_set next (queues w next ++ [Some (file_path state)])
              (notified self (completed_state state r (clock w))
                 (put_record (completed_state state r (clock w)) w))).
Proof.
  intros Hd Hj. unfold complete_with. rewrite bind_time_time.
  rewrite bind_save_state_ok; [|exact Hd|exact Hj].
  rewrite bind_notify_progress. unfold queue_put, modify.
  by autorewrite with world.
Qed.

Lemma stored_put_record_eq (fp : string) (s : ProcessingStage) (st : ProcessingState)
  (w : world) :
  file_path st = fp -> stage st = s -> stored fp s (put_record st w) = Some st.
Proof. intros <- <-. apply stored_put_record. Qed.

Lemma is_completed_true (st : option ProcessingState) :
  is_completed st = true -> exists es, st = Some es /\ status es = "completed".
Proof.
  destruct st as [es|]; simpl; [|discriminate].
  intros H. apply String.eqb_eq in H. eauto.
Qed.

Lemma stored_after_loads fp s fp' l w : stored fp s (after_loads fp' l w) = stored fp s w.
Proof. revert w. induction l as [|x l IH]; intros w; simpl; [reflexivity|]. by rewrite IH. Qed.
Lemma disk_fault_after_loads fp l w : disk_fault (after_loads fp l w) = disk_fault w.
Proof. revert w. induction l as [|x l IH]; intros w; simpl; [reflexivity|]. by rewrite IH. Qed.
Lemma clock_after_loads fp l w : clock (after_loads fp l w) = clock w.
Proof. revert w. induction l as [|x l IH]; intros w; simpl; [reflexivity|]. by rewrite IH. Qed.
Lemma queues_after_loads fp l w : queues (after_loads fp l w) = queues w.
Proof. revert w. induction l as [|x l IH]; intros w; simpl; [reflexivity|]. by rewrite IH. Qed.
Lemma states_dir_after_loads fp l w : states_dir (after_loads fp l w) = states_dir w.
Proof. revert w. induction l as [|x l IH]; intros w; simpl; [reflexivity|]. by rewrite IH. Qed.

#[local] Hint Rewrite stored_after_loads disk_fault_after_loads clock_after_loads
  queues_after_loads states_dir_after_loads : world.

Lemma stored_started_own self s fp rest w :
  stored fp s (started self s fp rest w) = Some (running_state fp s (clock w)).
Proof.
  unfold started. autorewrite with world. by apply stored_put_record_eq.
Qed.
Lemma disk_fault_started self s fp rest w :
  disk_fault (started self s fp rest w) = disk_fault w.
Proof. unfold started. by autorewrite with world. Qed.
Lemma clock_started self s fp rest w : clock (started self s fp rest w) = clock w.
Proof. unfold started. by autorewrite with world. Qed.
Lemma queues_started_own self s fp rest w : queues (started self s fp rest w) s = rest.
Proof. unfold started. by autorewrite with world. Qed.
Lemma queues_started_ne self s q fp rest w :
  q <> s -> queues (started self s fp rest w) q = queues w q.
Proof. intros H. unfold started. autorewrite with world. by apply queues_queue_set_ne. Qed.

#[local] Hint Rewrite stored_started_own disk_fault_started clock_started
  queues_started_own : world.

(** How a worker's work starts once its tests have passed *)
Lemma begin_running_started (self : StreamingPipeline) (s : ProcessingStage) (fp : string)
  (rest : list (option string)) (w : world) :
  disk_fault w (get_state_file_path fp s) = false ->
  begin_running self fp s (after_loads fp (stage_loads s) (queue_set s rest w))
  = (Ok (running_state fp s (clock w)), started self s fp rest w).
Proof.
  intros Hd. rewrite begin_running_ok by (autorewrite with world; exact Hd).
  unfold started. by autorewrite with world.
Qed.

(** The failure branch of a worker, from the call of the collaborator on *)
Lemma fail_with_started (self : StreamingPipeline) (s : ProcessingStage) (fp : string)
  (rest : list (option string)) (c : call) (w : world) :
  disk_fault w (get_state_file_path fp s) = false ->
  fail_with self (running_state fp s (clock w)) (failure_message s)
    (log_event (EvCall c) (started self s fp rest w))
  = (Ok tt, failed_world self s fp rest c w).
Proof.
  intros Hd. rewrite fail_with_ok; [|autorewrite with world; exact Hd|reflexivity].
  unfold failed_world. by autorewrite with world.
Qed.

Ltac load_step :=
  rewrite bind_load_state; autorewrite with world.

Lemma turn_failed (self : StreamingPipeline) (s : ProcessingStage) (fp : string)
  (rest : list (option string)) (w : world) (v : pyval) :
  s ∈ [EXTRACT_AUDIO; VAD_SEGMENTATION; ALIGNMENT; DIARIZATION] ->
  queues w s = Some fp :: rest ->
  due self s fp w = true ->
  collaborator_answer self s fp w = Some (Ok v) ->
  failure_sentinel s v = true ->
  disk_fault w (get_state_file_path fp s) = false ->
  exists c, worker_of s self w = (Continue, failed_world self s fp rest c w).
Proof.
  intros Hs Hq Hdue Hans Hv Hd.
  unfold due in Hdue. apply andb_prop in Hdue as [Hown Hup].
  apply negb_true_iff in Hown.
  repeat (apply elem_of_cons in Hs as [->|Hs]); [| | | |by apply elem_of_nil in Hs];
    simpl in Hans, Hv, Hup.
  - (* Extract *)
    injection Hans as Hans. apply negb_true_iff in Hv.
    exists (CallPreprocessor fp).
    unfold worker_of, _extraction_worker. rewrite (worker_turn_token _ _ _ _ _ _ Hq).
    unfold extraction_body. load_step. rewrite Hown. cbv beta iota.
    change (after_load fp EXTRACT_AUDIO (queue_set EXTRACT_AUDIO rest w))
      with (after_loads fp (stage_loads EXTRACT_AUDIO) (queue_set EXTRACT_AUDIO rest w)).
    erewrite M_bind_ok by (by apply begin_running_started).
    rewrite bind_invoke, Hans. cbv beta iota. rewrite Hv.
    by rewrite (fail_with_started self EXTRACT_AUDIO).
  - (* SegmentSpeech *)
    apply is_completed_true in Hup as (es & Hes & Hst).
    rewrite Hes in Hans. injection Hans as Hans.
    destruct v; try discriminate Hv.
    exists (CallVad (result es)).
    unfold worker_of, _vad_worker. rewrite (worker_turn_token _ _ _ _ _ _ Hq).
    unfold vad_body. load_step. rewrite Hown. cbv beta iota.
    load_step. rewrite Hes. cbv beta iota. rewrite Hst, String.eqb_refl.
    change (after_load fp EXTRACT_AUDIO
              (after_load fp VAD_SEGMENTATION (queue_set VAD_SEGMENTATION rest w)))
      with (after_loads fp (stage_loads VAD_SEGMENTATION)
              (queue_set VAD_SEGMENTATION rest w)).
    erewrite M_bind_ok by (by apply begin_running_started).
    rewrite bind_invoke, Hans. cbv beta iota.
    by rewrite (fail_with_started self VAD_SEGMENTATION).
  - (* Align *)
    apply andb_prop in Hup as [Hts Hau].
    apply is_completed_true in Hts as (ts & Hts & Hst).
    rewrite Hts in Hans.
    destruct (stored fp EXTRACT_AUDIO w) as [au|] eqn:Eau; [|discriminate].
    destruct (py_iter (result ts)) as [items|] eqn:Ei; simpl in Hans; [|discriminate].
    destruct (prepare_alignment items [] PyNone) as [p|] eqn:Ep; [|discriminate].
    injection Hans as Hans. apply negb_true_iff in Hv.
    exists (CallAligner (PyList (fst p)) (result au) (snd p)).
    unfold worker_of, _alignment_worker. rewrite (worker_turn_token _ _ _ _ _ _ Hq).
    unfold alignment_body. load_step. rewrite Hown. cbv beta iota.
    load_step. load_step. rewrite Hts, Eau. cbv beta iota. rewrite Hst, String.eqb_refl.
    change (after_load fp EXTRACT_AUDIO
              (after_load fp TRANSCRIPTION
                 (after_load fp ALIGNMENT (queue_set ALIGNMENT rest w))))
      with (after_loads fp (stage_loads ALIGNMENT) (queue_set ALIGNMENT rest w)).
    erewrite M_bind_ok by (by apply begin_running_started).
    rewrite bind_lift, Ei. cbv beta iota. rewrite bind_lift, Ep. cbv beta iota.
    rewrite bind_invoke, Hans. cbv beta iota. rewrite Hv.
    by rewrite (fail_with_started self ALIGNMENT).
  - (* Diarize *)
    apply andb_prop in Hup as [Hen Hup].
    apply is_completed_true in Hup as (au & Hau & Hst).
    rewrite Hau in Hans. injection Hans as Hans. apply negb_true_iff in Hv.
    exists (CallDiarizer (result au)).
    unfold worker_of, _diarization_worker. rewrite (worker_turn_token _ _ _ _ _ _ Hq).
    unfold diarization_body. cbv zeta. rewrite Hen. cbn [negb]. cbv beta iota.
    load_step. rewrite Hown. cbv beta iota.
    load_step. rewrite Hau. cbv beta iota. rewrite Hst, String.eqb_refl.
    change (after_load fp EXTRACT_AUDIO
              (after_load fp DIARIZATION (queue_set DIARIZATION rest w)))
      with (after_loads fp (stage_loads DIARIZATION) (queue_set DIARIZATION rest w)).
    erewrite M_bind_ok by (by apply begin_running_started).
    rewrite bind_invoke, Hans. cbv beta iota. rewrite Hv.
    by rewrite (fail_with_started self DIARIZATION).
Qed.

Lemma stored_failed_world self s fp rest c w :
  stored fp s (failed_world self s fp rest c w)
  = Some (failed_state (running_state fp s (clock w)) (failure_message s) (clock w)).
Proof.
  unfold failed_world. cbv zeta. autorewrite with world.
  by apply stored_put_record_eq.
Qed.

Lemma queues_failed_world_own self s fp rest c w :
  queues (failed_world self s fp rest c w) s = rest.
Proof. unfold failed_world. cbv zeta. by autorewrite with world. Qed.

Lemma queues_failed_world_ne self s q fp rest c w :
  q <> s -> queues (failed_world self s fp rest c w) q = queues w q.
Proof.
  intros H. unfold failed_world. cbv zeta. autorewrite with world.
  by apply queues_started_ne.
Qed.

Lemma last_trace_failed_world self s fp rest c w :
  progress_callback self = true ->
  last (trace (failed_world self s fp rest c w))
  = Some (EvProgress
            (failed_state (running_state fp s (clock w)) (failure_message s) (clock w))).
Proof.
  intros H. unfold failed_world. cbv zeta. autorewrite with world.
  rewrite H. apply last_snoc.
Qed.

(** A raise of the preprocessor leaves the Extract record of the file
    "running": no failed record is written and no callback reports a
    failure. And a transcriber that answers [None] for the only sub-clip
    leaves a completed Transcribe record with an empty list, and the token
    goes on to the alignment queue. *)
Lemma collaborator_failure_without_failed_record :
  (let w := drain 20 raising_extract_pipeline
              (snd (start_processing raising_extract_pipeline "a.mp4" empty_world)) in
   status <$> stored "a.mp4" EXTRACT_AUDIO w = Some "running" /\
   trace w = [EvProgress (running_state "a.mp4" EXTRACT_AUDIO 0);
              EvCall (CallPreprocessor "a.mp4");
              EvLogError "Error in extraction worker"])
  /\
  (let w := snd (_transcription_worker silent_transcriber_pipeline
                   (segmented_world TRANSCRIPTION)) in
   status <$> stored "a.mp4" TRANSCRIPTION w = Some "completed" /\
   result <$> stored "a.mp4" TRANSCRIPTION w = Some (PyList []) /\
   queues w ALIGNMENT = [Some "a.mp4"]).
Proof. vm_compute. repeat split; reflexivity. Qed.

(** C3, amended. For the Extract, SegmentSpeech, Align and Diarize stages,
    when the stage's work is due and its collaborator answers with the
    failure sentinel (a false value: [None], an empty string or list; for
    SegmentSpeech [None] only), the worker writes a failed record with an
    error description for (identity, stage), calls the progress callback
    with it as the last thing it does, and puts the token on no queue. *)
Theorem failure_sentinel_writes_failed_record
  (self : StreamingPipeline) (s : ProcessingStage) (fp : string)
  (rest : list (option string)) (w : world) (v : pyval) :
  s ∈ [EXTRACT_AUDIO; VAD_SEGMENTATION; ALIGNMENT; DIARIZATION] ->
  queues w s = Some fp :: rest ->
  due self s fp w = true ->
  collaborator_answer self s fp w = Some (Ok v) ->
  failure_sentinel s v = true ->
  disk_fault w (get_state_file_path fp s) = false ->
  let w' := snd (worker_of s self w) in
  let failed := failed_state (running_state fp s (clock w)) (failure_message s) (clock w) in
  stored fp s w' = Some failed /\
  status failed = "failed" /\
  error failed = Some (failure_message s) /\
  failure_message s <> "" /\
  (progress_callback self = true -> last (trace w') = Some (EvProgress failed)) /\
  (forall q, q <> s -> queues w' q = queues w q) /\
  queues w' s = rest.
Proof.
  intros Hs Hq Hdue Hans Hv Hd w' failed.
  destruct (turn_failed self s fp rest w v Hs Hq Hdue Hans Hv Hd) as [c Hc].
  unfold w'. rewrite Hc. cbn [snd].
  split; [apply stored_failed_world|].
  split; [reflexivity|]. split; [reflexivity|].
  split.
  { repeat (apply elem_of_cons in Hs as [->|Hs]); try discriminate.
    by apply elem_of_nil in Hs. }
  split; [by apply last_trace_failed_world|].
  split; [intros q Hne; by apply queues_failed_world_ne|].
  apply queues_failed_world_own.
Qed.

Lemma failure_sentinel_writes_failed_record_witness :
  let self := failing_vad_pipeline in
  let w := extracted_world VAD_SEGMENTATION in
  let w' := snd (worker_of VAD_SEGMENTATION self w) in
  let failed := failed_state (running_state "a.mp4" VAD_SEGMENTATION (clock w))
                  (failure_message VAD_SEGMENTATION) (clock w) in
  stored "a.mp4" VAD_SEGMENTATION w' = Some failed /\
  status failed = "failed" /\
  error failed = Some (failure_message VAD_SEGMENTATION) /\
  failure_message VAD_SEGMENTATION <> "" /\
  (progress_callback self = true -> last (trace w') = Some (EvProgress failed)) /\
  (forall q, q <> VAD_SEGMENTATION -> queues w' q = queues w q) /\
  queues w' VAD_SEGMENTATION = [].
Proof.
  apply (failure_sentinel_writes_failed_record failing_vad_pipeline VAD_SEGMENTATION
           "a.mp4" [] (extracted_world VAD_SEGMENTATION) PyNone).
  - apply elem_of_cons. right. apply elem_of_cons. by left.
  - reflexivity.
  - vm_compute. reflexivity.
  - vm_compute. reflexivity.
  - reflexivity.
  - reflexivity.
Defined.

(** ** Diarization switched off *)

Lemma perform_merge_no_intervals (aligned final : pyval) :
  perform_merge aligned (PyList []) = Ok final ->
  exists fs, final = PyList fs /\
    forall seg word, seg ∈ fs -> word ∈ words_of seg ->
      py_getitem word "speaker" = Ok (PyStr "UNKNOWN").
Proof.
  unfold perform_merge. simpl. intros H.
  destruct (py_iter aligned) as [asegs|] eqn:Ea; simpl in H; [|discriminate].
  destruct (res_map (merge_segment []) asegs) as [fs|] eqn:Em; simpl in H; [|discriminate].
  injection H as <-. exists fs. split; [reflexivity|].
  intros seg word Hseg Hword.
  destruct (res_map_elem _ _ _ _ Em Hseg) as (x & _ & Hx).
  destruct (merge_segment_words _ _ _ _ Hx Hword) as (m & sp & _ & Hsp & Hfirst).
  destruct Hfirst as [(pre & k & post & E & _)|[_ ->]]; [|exact Hsp].
  by destruct pre.
Qed.

(** With an earlier run's Diarize record in the store, a run with
    diarization off forwards the token without touching that record, and
    Merge reads it: the word of the file is labelled "SPEAKER_00". *)
Lemma diarization_off_merges_stale_intervals :
  let w := drain 20 diarization_off_pipeline stale_diarization_world in
  stored "a.mp4" DIARIZATION w = stored "a.mp4" DIARIZATION stale_diarization_world /\
  result <$> stored "a.mp4" MERGE_SEGMENTS w = Some demo_merged /\
  demo_merged
  = PyList [PyDict [("text", PyStr "hi");
                    ("words", PyList [PyDict [("word", PyStr "hi"); ("start", PyNum 1);
                                              ("end", PyNum 2);
                                              ("speaker", PyStr "SPEAKER_00")]])]].
Proof. vm_compute. repeat split; reflexivity. Qed.

(** C4, amended. With diarization disabled in the settings, the Diarize
    worker puts every token it takes on the Merge queue, writes no record
    and calls nothing. When moreover the store holds no Diarize record for
    the identity and the Merge worker then does the merge for it (its own
    record is not completed, the Align record is), every word of the Merge
    result carries the "UNKNOWN" sentinel. *)
Theorem diarization_disabled_forwards_unlabelled
  (self : StreamingPipeline) (fp : string) (rest : list (option string)) (w : world) :
  py_truthy (settings_get self "diarization" (PyBool true)) = false ->
  queues w DIARIZATION = Some fp :: rest ->
  let w1 := snd (_diarization_worker self w) in
  states_dir w1 = states_dir w /\
  trace w1 = trace w /\
  queues w1 MERGE_SEGMENTS = queues w MERGE_SEGMENTS ++ [Some fp] /\
  forall als final,
    queues w MERGE_SEGMENTS = [] ->
    stored fp DIARIZATION w = None ->
    is_completed (stored fp MERGE_SEGMENTS w) = false ->
    stored fp ALIGNMENT w = Some als ->
    status als = "completed" ->
    perform_merge (result als) (PyList []) = Ok final ->
    json_serializable final = true ->
    disk_fault w (get_state_file_path fp MERGE_SEGMENTS) = false ->
    let w2 := snd (_merge_worker self w1) in
    (exists st, stored fp MERGE_SEGMENTS w2 = Some st /\
                status st = "completed" /\ result st = final) /\
    exists fs, final = PyList fs /\
      forall seg word, seg ∈ fs -> word ∈ words_of seg ->
        py_getitem word "speaker" = Ok (PyStr "UNKNOWN").
Proof.
  intros Hoff Hq w1.
  assert (E1 : w1 = queue_set MERGE_SEGMENTS (queues w MERGE_SEGMENTS ++ [Some fp])
                      (queue_set DIARIZATION rest w)).
  { unfold w1, _diarization_worker. rewrite (worker_turn_token _ _ _ _ _ _ Hq).
    unfold diarization_body. cbv zeta. rewrite Hoff. cbn [negb]. cbv beta iota.
    unfold queue_put, modify. cbn [snd]. by autorewrite with world. }
  rewrite E1. autorewrite with world.
  split; [reflexivity|]. split; [reflexivity|]. split; [reflexivity|].
  intros als final Hmq Hnone Hown Hals Hst Hmerge Hjson Hd w2.
  split; [|by apply perform_merge_no_intervals with (aligned := result als)].
  exists (completed_state (running_state fp MERGE_SEGMENTS (clock w)) final (clock w)).
  split; [|split; reflexivity].
  unfold w2, _merge_worker.
  rewrite (worker_turn_token _ _ _ _ fp []) by (by autorewrite with world; rewrite Hmq).
  unfold merge_body. load_step. rewrite Hown. cbv beta iota.
  load_step. load_step. rewrite Hals, Hnone. cbv beta iota. rewrite Hst, String.eqb_refl.
  erewrite M_bind_ok by (apply begin_running_ok; autorewrite with world; exact Hd).
  rewrite bind_lift, Hmerge. cbv beta iota.
  rewrite complete_with_ok; [|autorewrite with world; exact Hd|exact Hjson].
  cbn [snd]. autorewrite with world.
  by apply stored_put_record_eq.
Qed.

Lemma diarization_disabled_forwards_unlabelled_witness :
  let self := diarization_off_pipeline in
  let w := aligned_world in
  let final :=
    PyList [PyDict [("text", PyStr "hi");
                    ("words", PyList [PyDict [("word", PyStr "hi"); ("start", PyNum 1);
                                              ("end", PyNum 2);
                                              ("speaker", PyStr "UNKNOWN")]])]] in
  let w1 := snd (_diarization_worker self w) in
  let w2 := snd (_merge_worker self w1) in
  (states_dir w1 = states_dir w /\
   trace w1 = trace w /\
   queues w1 MERGE_SEGMENTS = queues w MERGE_SEGMENTS ++ [Some "a.mp4"]) /\
  (exists st, stored "a.mp4" MERGE_SEGMENTS w2 = Some st /\
              status st = "completed" /\ result st = final) /\
  exists fs, final = PyList fs /\
    forall seg word, seg ∈ fs -> word ∈ words_of seg ->
      py_getitem word "speaker" = Ok (PyStr "UNKNOWN").
Proof.
  intros self w final w1 w2.
  destruct (diarization_disabled_forwards_unlabelled self "a.mp4" [] w
              eq_refl eq_refl) as (H1 & H2 & H3 & H4).
  split; [by repeat split|].
  apply (H4 (completed_record "a.mp4" ALIGNMENT demo_aligned) final); reflexivity.
Defined.

(** ** Writes that fail *)

Lemma begin_running_fault (self : StreamingPipeline) (fp : string) (s : ProcessingStage)
  (w : world) :
  disk_fault w (get_state_file_path fp s) = true ->
  fault_after_open w (get_state_file_path fp s) = false ->
  begin_running self fp s w
  = (Ok (running_state fp s (clock w)),
     notified self (running_state fp s (clock w))
       (log_event (EvLogError ("Failed to save state for " +:+ fp)) w)).
Proof.
  intros Hd Ha. unfold begin_running. rewrite bind_time_time.
  rewrite bind_save_state_fault; [|exact Hd|exact Ha].
  by rewrite bind_notify_progress.
Qed.

Lemma complete_with_fault (self : StreamingPipeline) (state : ProcessingState) (r : pyval)
  (next : ProcessingStage) (w : world) :
  disk_fault w (state_file_of state) = true ->
  fault_after_open w (state_file_of state) = false ->
  complete_with self state r next w
  = (Ok tt, queue_set next (queues w next ++ [Some (file_path state)])
              (notified self (completed_state state r (clock w))
                 (log_event (EvLogError ("Failed to save state for " +:+ file_path state))
                    w))).
Proof.
  intros Hd Ha. unfold complete_with. rewrite bind_time_time.
  rewrite bind_save_state_fault; [|exact Hd|exact Ha].
  rewrite bind_notify_progress. unfold queue_put, modify.
  by autorewrite with world.
Qed.

Lemma begin_running_write_fault (self : StreamingPipeline) (fp : string)
  (s : ProcessingStage) (w : world) :
  disk_fault w (get_state_file_path fp s) = true ->
  fault_after_open w (get_state_file_path fp s) = true ->
  begin_running self fp s w
  = (Ok (running_state fp s (clock w)),
     notified self (running_state fp s (clock w))
       (log_event (EvLogError ("Failed to save state for " +:+ fp))
          (write_file (get_state_file_path fp s) Unparseable w))).
Proof.
  intros Hd Ha. unfold begin_running. rewrite bind_time_time.
  rewrite bind_save_state_write_fault; [|exact Hd|exact Ha].
  by rewrite bind_notify_progress.
Qed.

Lemma complete_with_write_fault (self : StreamingPipeline) (state : ProcessingState)
  (r : pyval) (next : ProcessingStage) (w : world) :
  disk_fault w (state_file_of state) = true ->
  fault_after_open w (state_file_of state) = true ->
  complete_with self state r next w
  = (Ok tt, queue_set next (queues w next ++ [Some (file_path state)])
              (notified self (completed_state state r (clock w))
                 (log_event (EvLogError ("Failed to save state for " +:+ file_path state))
                    (write_file (state_file_of state) Unparseable w)))).
Proof.
  intros Hd Ha. unfold complete_with. rewrite bind_time_time.
  rewrite bind_save_state_write_fault; [|exact Hd|exact Ha].
  rewrite bind_notify_progress. unfold queue_put, modify.
  autorewrite with world. by rewrite queues_write_file.
Qed.

(** A file that is emptied takes the record of its own file and stage away
    and no other. *)
Lemma stored_emptied_other (fp : string) (s : ProcessingStage) (st : ProcessingState)
  (w : world) :
  (fp, s) <> (file_path st, stage st) ->
  stored fp s (write_file (state_file_of st) Unparseable w) = stored fp s w.
Proof.
  intros Hne. unfold stored, write_file, state_file_of; simpl.
  rewrite lookup_insert_ne; [reflexivity|].
  intros H. apply get_state_file_path_pair_inj in H as [H1 H2]. apply Hne. by rewrite H1, H2.
Qed.

(** One turn of the Extract worker on a disk that fails the writing of the
    Extract record, at the [open] or after it *)
Lemma extraction_turn_on_failing_disk (self : StreamingPipeline) (fp : string)
  (rest : list (option string)) (v : pyval) (w : world) :
  disk_fault w (get_state_file_path fp EXTRACT_AUDIO) = true ->
  queues w EXTRACT_AUDIO = Some fp :: rest ->
  is_completed (stored fp EXTRACT_AUDIO w) = false ->
  process_audio_pipeline self fp = Ok v ->
  py_truthy v = true ->
  let w' := snd (_extraction_worker self w) in
  states_dir w'
  = (if fault_after_open w (get_state_file_path fp EXTRACT_AUDIO)
     then <[get_state_file_path fp EXTRACT_AUDIO := Unparseable]> (states_dir w)
     else states_dir w) /\
  queues w' VAD_SEGMENTATION = queues w VAD_SEGMENTATION ++ [Some fp] /\
  (progress_callback self = true ->
   last (trace w')
   = Some (EvProgress (completed_state (running_state fp EXTRACT_AUDIO (clock w)) v
                                       (clock w)))).
Proof.
  intros Hd Hq Hown Hans Hv w'.
  unfold w', _extraction_worker. rewrite (worker_turn_token _ _ _ _ _ _ Hq).
  unfold extraction_body. load_step. rewrite Hown. cbv beta iota.
  destruct (fault_after_open w (get_state_file_path fp EXTRACT_AUDIO)) eqn:Ha.
  - erewrite M_bind_ok
      by (apply begin_running_write_fault; autorewrite with world; assumption).
    rewrite bind_invoke, Hans. cbv beta iota. rewrite Hv.
    rewrite complete_with_write_fault
      by (autorewrite with world; rewrite ?disk_fault_write_file; assumption).
    cbn [snd]. autorewrite with world.
    rewrite !states_dir_write_file. autorewrite with world.
    rewrite !queues_write_file. autorewrite with world.
    split; [apply insert_insert_eq|]. split; [reflexivity|].
    intros Hcb. rewrite Hcb. apply last_snoc.
  - erewrite M_bind_ok by (apply begin_running_fault; autorewrite with world; assumption).
    rewrite bind_invoke, Hans. cbv beta iota. rewrite Hv.
    rewrite complete_with_fault by (autorewrite with world; assumption).
    cbn [snd]. autorewrite with world.
    split; [reflexivity|]. split; [reflexivity|].
    intros Hcb. rewrite Hcb. apply last_snoc.
Qed.

(** On a disk that refuses the write, [open] raises [OSError] and
    [save_state] returns to its caller as after a successful write: the
    record is not stored and the only trace is a line in the log. *)
Lemma save_state_swallows_the_error :
  let st := completed_record "a.mp4" EXTRACT_AUDIO (PyStr "temp/a_normalized.wav") in
  fst (open_w (state_file_of st) faulty_disk_world) = Raise OSError /\
  fst (save_state st faulty_disk_world) = Ok tt /\
  stored "a.mp4" EXTRACT_AUDIO (snd (save_state st faulty_disk_world)) = None /\
  trace (snd (save_state st faulty_disk_world))
  = [EvLogError "Failed to save state for a.mp4"].
Proof. vm_compute. repeat split; reflexivity. Qed.

(** C8, amended. A State Store put ([save_state]) that meets an I/O error
    logs it and returns normally: the error is not reported to the caller.
    When the [open] itself fails, the store is left as it was. When the
    error comes after the [open], at the write, the flush or the close, the
    file is already emptied: the record that was stored for that file and
    stage is lost, a reader finds none, and the record of every other file
    or stage is as it was. A stage worker whose put fails cannot observe it
    and goes on as after a successful put: the Extract worker on such a
    disk still announces the completed record and forwards the token. *)
Theorem save_state_swallows_io_errors (st : ProcessingState) (w : world) :
  (disk_fault w (state_file_of st) = true ->
   fst (save_state st w) = Ok tt /\
   snd (save_state st w)
   = log_event (EvLogError ("Failed to save state for " +:+ file_path st))
       (if fault_after_open w (state_file_of st)
        then write_file (state_file_of st) Unparseable w else w) /\
   (fault_after_open w (state_file_of st) = false ->
    states_dir (snd (save_state st w)) = states_dir w) /\
   (fault_after_open w (state_file_of st) = true ->
    stored (file_path st) (stage st) (snd (save_state st w)) = None /\
    forall fp s, (fp, s) <> (file_path st, stage st) ->
      stored fp s (snd (save_state st w)) = stored fp s w)) /\
  forall self fp rest v,
    disk_fault w (get_state_file_path fp EXTRACT_AUDIO) = true ->
    queues w EXTRACT_AUDIO = Some fp :: rest ->
    is_completed (stored fp EXTRACT_AUDIO w) = false ->
    process_audio_pipeline self fp = Ok v ->
    py_truthy v = true ->
    let w' := snd (_extraction_worker self w) in
    states_dir w'
    = (if fault_after_open w (get_state_file_path fp EXTRACT_AUDIO)
       then <[get_state_file_path fp EXTRACT_AUDIO := Unparseable]> (states_dir w)
       else states_dir w) /\
    queues w' VAD_SEGMENTATION = queues w VAD_SEGMENTATION ++ [Some fp] /\
    (progress_callback self = true ->
     last (trace w')
     = Some (EvProgress (completed_state (running_state fp EXTRACT_AUDIO (clock w)) v
                                         (clock w)))).
Proof.
  split; [|intros self fp rest v; apply extraction_turn_on_failing_disk].
  intros Hd. split; [apply save_state_returns|].
  destruct (fault_after_open w (state_file_of st)) eqn:Ha.
  - rewrite save_state_write_fault by assumption. cbn [snd].
    split; [reflexivity|]. split; [discriminate|]. intros _.
    split; [apply stored_unparseable|].
    intros fp s Hne. rewrite stored_log_event. by apply stored_emptied_other.
  - rewrite save_state_fault by assumption. cbn [snd].
    split; [reflexivity|]. split; [reflexivity|]. discriminate.
Qed.

Lemma save_state_swallows_io_errors_witness :
  let st := completed_record "a.mp4" EXTRACT_AUDIO (PyStr "temp/a_normalized.wav") in
  let pending := mkState "a.mp4" EXTRACT_AUDIO "pending" 0 PyNone None 0 in
  let w := queue_set EXTRACT_AUDIO [Some "a.mp4"] faulty_disk_world in
  let w' := snd (_extraction_worker demo_pipeline w) in
  let f := full_disk_world in
  let f' := snd (_extraction_worker demo_pipeline f) in
  (fst (save_state st w) = Ok tt /\
   states_dir (snd (save_state st w)) = states_dir w /\
   states_dir w' = states_dir w /\
   queues w' VAD_SEGMENTATION = [Some "a.mp4"]) /\
  (stored "a.mp4" EXTRACT_AUDIO f = Some pending /\
   fst (save_state st f) = Ok tt /\
   stored "a.mp4" EXTRACT_AUDIO (snd (save_state st f)) = None /\
   stored "a.mp4" EXTRACT_AUDIO f' = None /\
   queues f' VAD_SEGMENTATION = [Some "a.mp4"] /\
   last (trace f')
   = Some (EvProgress (completed_state (running_state "a.mp4" EXTRACT_AUDIO 0)
                                       (PyStr "temp/a_normalized.wav") 0))).
Proof.
  intros st pending w w' f f'. split.
  - destruct (save_state_swallows_io_errors st w) as [H1 H2].
    destruct (H1 eq_refl) as (R & _ & S & _).
    destruct (H2 demo_pipeline "a.mp4" [] (PyStr "temp/a_normalized.wav")
                eq_refl eq_refl eq_refl eq_refl eq_refl) as (D & Q & _).
    split; [exact R|]. split; [exact (S eq_refl)|]. split; [exact D|exact Q].
  - destruct (save_state_swallows_io_errors st f) as [H1 H2].
    destruct (H1 eq_refl) as (R & _ & _ & L).
    destruct (L eq_refl) as [L1 _].
    destruct (H2 demo_pipeline "a.mp4" [] (PyStr "temp/a_normalized.wav")
                eq_refl eq_refl eq_refl eq_refl eq_refl) as (D & Q & P).
    split; [reflexivity|]. split; [exact R|]. split; [exact L1|].
    split; [|split; [exact Q|exact (P eq_refl)]].
    unfold stored, f'. rewrite D. reflexivity.
Defined.

(** ** The synchronous wrapper *)

Lemma bind_time_sleep {B} (others : world -> world) (k : unit -> M B) (w : world) :
  M_bind (time_sleep others) k w = k tt (with_clock (clock w + 1) (others w)).
Proof. reflexivity. Qed.

(** One turn of the polling loop, in its three cases *)
Lemma wait_for_export_timeout (fuel : nat) others fp start_time (w : world) :
  (max_wait_time <= clock w - start_time)%Z ->
  wait_for_export (S fuel) others fp start_time w
  = (Ok (Some PyNone), log_event (EvLogWarning ("Processing timeout for " +:+ fp)) w).
Proof.
  intros H. cbn [wait_for_export]. rewrite bind_time_time.
  destruct (Z.ltb_spec (clock w - start_time) max_wait_time) as [Hlt|_]; [lia|].
  reflexivity.
Qed.

Lemma wait_for_export_found (fuel : nat) others fp start_time (w : world)
  (st : ProcessingState) :
  (clock w - start_time < max_wait_time)%Z ->
  stored fp EXPORT w = Some st ->
  status st = "completed" ->
  wait_for_export (S fuel) others fp start_time w
  = (Ok (Some (result st)), after_load fp EXPORT w).
Proof.
  intros H Hst Hc. cbn [wait_for_export]. rewrite bind_time_time.
  destruct (Z.ltb_spec (clock w - start_time) max_wait_time) as [_|Hge]; [|lia].
  rewrite bind_load_state, Hst. cbv beta iota. by rewrite Hc, String.eqb_refl.
Qed.

Lemma wait_for_export_again (fuel : nat) others fp start_time (w : world) :
  (clock w - start_time < max_wait_time)%Z ->
  is_completed (stored fp EXPORT w) = false ->
  wait_for_export (S fuel) others fp start_time w
  = wait_for_export fuel others fp start_time (poll_step others fp w).
Proof.
  intros H Hc. cbn [wait_for_export]. rewrite bind_time_time.
  destruct (Z.ltb_spec (clock w - start_time) max_wait_time) as [_|Hge]; [|lia].
  rewrite bind_load_state. unfold is_completed in Hc.
  destruct (stored fp EXPORT w) as [st|]; cbv beta iota.
  - rewrite Hc. by rewrite bind_time_sleep.
  - by rewrite bind_time_sleep.
Qed.

Lemma clock_poll_step others fp w : clock (poll_step others fp w) = (clock w + 1)%Z.
Proof. reflexivity. Qed.

(** The loop returns the result found at the first poll that sees a
    completed record, when that poll comes within the 300 seconds. *)
Lemma wait_for_export_first_completed (k : nat) :
  forall (fuel : nat) others fp start_time (w : world) (st : ProcessingState),
    (k < fuel)%nat ->
    (clock w - start_time + Z.of_nat k < max_wait_time)%Z ->
    (forall j, (j < k)%nat -> is_completed (stored fp EXPORT (at_poll j others fp w)) = false) ->
    stored fp EXPORT (at_poll k others fp w) = Some st ->
    status st = "completed" ->
    fst (wait_for_export fuel others fp start_time w) = Ok (Some (result st)).
Proof.
  induction k as [|k IH]; intros fuel others fp start_time w st Hf Hc Hbefore Hst Hdone.
  - destruct fuel as [|fuel]; [lia|]. simpl in Hst.
    rewrite (wait_for_export_found _ _ _ _ _ st); [reflexivity|lia|exact Hst|exact Hdone].
  - destruct fuel as [|fuel]; [lia|].
    rewrite wait_for_export_again; [|lia|exact (Hbefore 0%nat ltac:(lia))].
    apply IH; [lia|rewrite clock_poll_step; lia| |exact Hst|exact Hdone].
    intros j Hj. exact (Hbefore (S j) ltac:(lia)).
Qed.

(** The loop gives up with [None] when none of the polls of the 300 seconds
    sees a completed record. *)
Lemma wait_for_export_never_completed (n : nat) :
  forall (fuel : nat) others fp start_time (w : world),
    (n < fuel)%nat ->
    (clock w - start_time = max_wait_time - Z.of_nat n)%Z ->
    (forall j, (j < n)%nat -> is_completed (stored fp EXPORT (at_poll j others fp w)) = false) ->
    fst (wait_for_export fuel others fp start_time w) = Ok (Some PyNone).
Proof.
  induction n as [|n IH]; intros fuel others fp start_time w Hf Hc Hnever.
  - destruct fuel as [|fuel]; [lia|].
    rewrite wait_for_export_timeout; [reflexivity|lia].
  - destruct fuel as [|fuel]; [lia|].
    rewrite wait_for_export_again; [|lia|exact (Hnever 0%nat ltac:(lia))].
    apply IH; [lia|rewrite clock_poll_step; lia|].
    intros j Hj. exact (Hnever (S j) ltac:(lia)).
Qed.

Lemma process_file_unfold (fuel : nat) others self fp (w : world) :
  process_file fuel others self fp w
  = wait_for_export fuel others fp (clock w) (snd (start_processing self fp w)).
Proof.
  unfold process_file.
  assert (H : exists w0, start_processing self fp w = (Ok tt, w0) /\ clock w0 = clock w).
  { unfold start_processing. rewrite bind_time_time.
    pose proof (save_state_returns (mkState fp EXTRACT_AUDIO "pending" 0 PyNone None (clock w)) w)
      as Hr.
    destruct (disk_fault w (get_state_file_path fp EXTRACT_AUDIO)) eqn:Hd;
      [destruct (fault_after_open w (get_state_file_path fp EXTRACT_AUDIO)) eqn:Ha|].
    - rewrite bind_save_state_write_fault by assumption. eexists. split; [reflexivity|].
      unfold queue_put, modify. by autorewrite with world.
    - rewrite bind_save_state_fault by assumption. eexists. split; [reflexivity|].
      unfold queue_put, modify. by autorewrite with world.
    - rewrite bind_save_state_ok; [|exact Hd|reflexivity]. eexists. split; [reflexivity|].
      by autorewrite with world. }
  destruct H as (w0 & E & Hc). rewrite (M_bind_ok _ _ _ _ _ E).
  rewrite E. cbn [snd]. rewrite bind_time_time. by rewrite Hc.
Qed.

Lemma clock_start_processing (self : StreamingPipeline) (fp : string) (w : world) :
  clock (snd (start_processing self fp w)) = clock w.
Proof.
  unfold start_processing. rewrite bind_time_time.
  destruct (disk_fault w (get_state_file_path fp EXTRACT_AUDIO)) eqn:Hd;
    [destruct (fault_after_open w (get_state_file_path fp EXTRACT_AUDIO)) eqn:Ha|].
  - rewrite bind_save_state_write_fault by assumption. unfold queue_put, modify. cbn [snd].
    by autorewrite with world.
  - rewrite bind_save_state_fault by assumption. unfold queue_put, modify. cbn [snd].
    by autorewrite with world.
  - rewrite bind_save_state_ok; [|exact Hd|reflexivity]. unfold queue_put, modify.
    cbn [snd]. by autorewrite with world.
Qed.

(** With workers that finish the file in the tenth second, a caller who
    asks the spec's [runToCompletion] for a timeout of 5 seconds gets the
    timeout signal; [process_file], which takes no timeout, goes on polling
    and returns the result. *)
Lemma process_file_has_no_caller_timeout :
  let others := late_workers demo_pipeline in
  fst (runToCompletion_spec 400 others demo_pipeline "a.mp4" 5 empty_world)
  = Ok (Some TimedOut) /\
  fst (process_file 400 others demo_pipeline "a.mp4" empty_world)
  = Ok (Some demo_merged) /\
  signal_of demo_merged = Completed demo_merged.
Proof. vm_compute. repeat split; reflexivity. Qed.

(** C9, amended. [process_file] takes an identity and no timeout. It
    submits the identity and then polls the (identity, Export) record once
    a second, until the record is completed or 300 seconds have gone by: it
    returns the stored Export result of the first poll that finds the
    record completed, and [None] when none of the 300 polls does. *)
Theorem process_file_polls_for_300_seconds
  (fuel : nat) (others : world -> world) (self : StreamingPipeline) (fp : string)
  (w : world) :
  (300 < fuel)%nat ->
  let w0 := snd (start_processing self fp w) in
  (forall k st,
      (k < 300)%nat ->
      (forall j, (j < k)%nat ->
                 is_completed (stored fp EXPORT (at_poll j others fp w0)) = false) ->
      stored fp EXPORT (at_poll k others fp w0) = Some st ->
      status st = "completed" ->
      fst (process_file fuel others self fp w) = Ok (Some (result st)))
  /\
  ((forall j, (j < 300)%nat ->
              is_completed (stored fp EXPORT (at_poll j others fp w0)) = false) ->
   fst (process_file fuel others self fp w) = Ok (Some PyNone)).
Proof.
  intros Hf w0. split.
  - intros k st Hk Hbefore Hst Hdone. rewrite process_file_unfold.
    apply (wait_for_export_first_completed k); try assumption; [lia|].
    fold w0. unfold w0 at 1. rewrite clock_start_processing.
    unfold max_wait_time. lia.
  - intros Hnever. rewrite process_file_unfold.
    apply (wait_for_export_never_completed 300); [lia| |exact Hnever].
    rewrite clock_start_processing. unfold max_wait_time. lia.
Qed.

Lemma process_file_polls_for_300_seconds_witness :
  fst (process_file 400 (late_workers demo_pipeline) demo_pipeline "a.mp4" empty_world)
  = Ok (Some demo_merged)
  /\
  fst (process_file 400 (fun w => w) demo_pipeline "a.mp4" empty_world)
  = Ok (Some PyNone).
Proof.
  split.
  - apply (proj1 (process_file_polls_for_300_seconds 400 (late_workers demo_pipeline)
                    demo_pipeline "a.mp4" empty_world ltac:(lia))
             10%nat (mkState "a.mp4" EXPORT "completed" 1 demo_merged None 9)).
    + lia.
    + intros j Hj.
      do 10 (destruct j as [|j]; [vm_compute; reflexivity|]). lia.
    + vm_compute. reflexivity.
    + reflexivity.
  - apply (proj2 (process_file_polls_for_300_seconds 400 (fun w => w)
                    demo_pipeline "a.mp4" empty_world ltac:(lia))).
    intros j Hj.
    do 300 (destruct j as [|j]; [vm_compute; reflexivity|]). lia.
Defined.

(** ** What has happened stays in the trace *)

Lemma extends_refl (w : world) : extends w w.
Proof. exists []. by rewrite app_nil_r. Qed.

Lemma extends_trans (w1 w2 w3 : world) : extends w1 w2 -> extends w2 w3 -> extends w1 w3.
Proof. intros [l1 H1] [l2 H2]. exists (l1 ++ l2). by rewrite H2, H1, app_assoc. Qed.

Lemma extends_same_trace (w w' : world) : trace w' = trace w -> extends w w'.
Proof. intros H. exists []. by rewrite app_nil_r. Qed.

Lemma extends_log_event (e : event) (w : world) : extends w (log_event e w).
Proof. by exists [e]. Qed.

Lemma extends_elem (e : event) (w w' : world) : extends w w' -> e ∈ trace w -> e ∈ trace w'.
Proof. intros [l ->] H. apply elem_of_app. by left. Qed.

Lemma grows_ret {A} (a : A) : grows (M_ret a).
Proof. intros w. apply extends_refl. Qed.

Lemma grows_bind {A B} (m : M A) (k : A -> M B) :
  grows m -> (forall a, grows (k a)) -> grows (M_bind m k).
Proof.
  intros Hm Hk w. unfold M_bind. specialize (Hm w).
  destruct (m w) as [[a|e] w1]; simpl in Hm |- *; [|exact Hm].
  eapply extends_trans; [exact Hm|apply Hk].
Qed.

Lemma grows_gets {A} (f : world -> A) : grows (gets f).
Proof. intros w. apply extends_refl. Qed.

Lemma grows_lift {A} (r : res A) : grows (lift r).
Proof. intros w. apply extends_refl. Qed.

Lemma grows_emit (e : event) : grows (emit e).
Proof. intros w. apply extends_log_event. Qed.

Lemma grows_queue_put (q : ProcessingStage) (x : option string) : grows (queue_put q x).
Proof. intros w. by apply extends_same_trace. Qed.

Lemma grows_notify_progress (self : StreamingPipeline) (st : ProcessingState) :
  grows (notify_progress self st).
Proof.
  unfold notify_progress. destruct (progress_callback self); [apply grows_emit|apply grows_ret].
Qed.

Lemma grows_save_state (st : ProcessingState) : grows (save_state st).
Proof.
  intros w. destruct (save_state_run st w) as [E|[E|E]]; rewrite E; cbn [snd].
  - by apply extends_same_trace.
  - apply extends_log_event.
  - eapply extends_trans; [|apply extends_log_event]. by apply extends_same_trace.
Qed.

Lemma grows_complete_with self state r next : grows (complete_with self state r next).
Proof.
  unfold complete_with. apply grows_bind; [apply grows_gets|intros t].
  apply grows_bind; [apply grows_save_state|intros _].
  apply grows_bind; [apply grows_notify_progress|intros _]. apply grows_queue_put.
Qed.

Lemma grows_fail_with self state err : grows (fail_with self state err).
Proof.
  unfold fail_with. apply grows_bind; [apply grows_gets|intros t].
  apply grows_bind; [apply grows_save_state|intros _]. apply grows_notify_progress.
Qed.

(** The end of a worker's turn keeps what the body left in the trace. *)
Lemma turn_end_extends (r : res unit * world) (msg : string) (w : world) :
  extends w (snd r) ->
  extends w (snd (match r with
                  | (Ok _, w2) => (Continue, w2)
                  | (Raise _, w2) => (Continue, log_event (EvLogError msg) w2)
                  end)).
Proof.
  destruct r as [[u|e] w2]; simpl; intros H; [exact H|].
  eapply extends_trans; [exact H|apply extends_log_event].
Qed.

(** ** Submitting again *)

(** C1, as the code has it. Whatever the store holds for a file, all seven
    records completed included, [start_processing] overwrites the Extract
    record with a pending one before it enqueues the token; the Extract
    worker therefore does not take its skip path and calls the
    preprocessor. *)
Theorem resubmission_invokes_preprocessor
  (self : StreamingPipeline) (fp : string) (w : world) :
  queues w EXTRACT_AUDIO = [] ->
  disk_fault w (get_state_file_path fp EXTRACT_AUDIO) = false ->
  let w1 := snd (start_processing self fp w) in
  let w2 := snd (_extraction_worker self w1) in
  stored fp EXTRACT_AUDIO w1 = Some (mkState fp EXTRACT_AUDIO "pending" 0 PyNone None (clock w))
  /\ EvCall (CallPreprocessor fp) ∈ trace w2.
Proof.
  intros Hq Hd w1 w2.
  set (pending := mkState fp EXTRACT_AUDIO "pending" 0 PyNone None (clock w)).
  assert (E1 : w1 = queue_set EXTRACT_AUDIO [Some fp] (put_record pending w)).
  { unfold w1, start_processing. rewrite bind_time_time.
    rewrite bind_save_state_ok; [|exact Hd|reflexivity].
    unfold queue_put, modify. cbn [snd]. autorewrite with world. by rewrite Hq. }
  assert (Hst : stored fp EXTRACT_AUDIO w1 = Some pending).
  { rewrite E1. autorewrite with world. by apply stored_put_record_eq. }
  split; [exact Hst|].
  unfold w2, _extraction_worker.
  rewrite (worker_turn_token _ _ _ _ fp []) by (rewrite E1; by autorewrite with world).
  unfold extraction_body. load_step. rewrite Hst. cbv beta iota.
  change (is_completed (Some pending)) with false. cbv beta iota.
  erewrite M_bind_ok
    by (apply begin_running_ok; autorewrite with world; rewrite E1; exact Hd).
  rewrite bind_invoke.
  match goal with
  | |- context [log_event (EvCall (CallPreprocessor fp)) ?W] =>
      set (w3 := log_event (EvCall (CallPreprocessor fp)) W)
  end.
  apply (extends_elem _ w3).
  - apply turn_end_extends.
    destruct (process_audio_pipeline self fp) as [v|e]; [|apply extends_refl].
    destruct (py_truthy v); [apply grows_complete_with|apply grows_fail_with].
  - unfold w3. rewrite trace_log_event. apply elem_of_app. right.
    by apply list_elem_of_singleton.
Qed.

Lemma resubmission_invokes_preprocessor_witness :
  Forall (fun s => is_completed (stored "a.mp4" s all_completed_world) = true) all_stages /\
  let w1 := snd (start_processing demo_pipeline "a.mp4" all_completed_world) in
  let w2 := snd (_extraction_worker demo_pipeline w1) in
  stored "a.mp4" EXTRACT_AUDIO w1
  = Some (mkState "a.mp4" EXTRACT_AUDIO "pending" 0 PyNone None (clock all_completed_world))
  /\ EvCall (CallPreprocessor "a.mp4") ∈ trace w2.
Proof.
  split; [repeat constructor|].
  apply (resubmission_invokes_preprocessor demo_pipeline "a.mp4" all_completed_world);
    reflexivity.
Defined.

(** The whole run of such a resubmission: extraction is done again, the
    other stages are skipped, Export fires the completion callback. *)
Example resubmission_full_run :
  trace (drain 20 demo_pipeline
           (snd (start_processing demo_pipeline "a.mp4" all_completed_world)))
  = [EvProgress (running_state "a.mp4" EXTRACT_AUDIO 0);
     EvCall (CallPreprocessor "a.mp4");
     EvProgress (completed_state (running_state "a.mp4" EXTRACT_AUDIO 0)
                   (PyStr "temp/a_normalized.wav") 0);
     EvProgress (mkState "a.mp4" EXPORT "completed" 1 demo_merged None 0);
     EvCompletion "a.mp4" demo_merged].
Proof. vm_compute. reflexivity. Qed.

Lemma stored_started_ne self s s' fp rest w :
  s <> s' -> stored fp s' (started self s fp rest w) = stored fp s' w.
Proof.
  intros H. unfold started. autorewrite with world.
  rewrite stored_put_record_ne; [by autorewrite with world|reflexivity|exact H].
Qed.

Lemma stored_failed_world_ne self s s' fp rest c w :
  s <> s' -> stored fp s' (failed_world self s fp rest c w) = stored fp s' w.
Proof.
  intros H. unfold failed_world. cbv zeta. autorewrite with world.
  rewrite stored_put_record_ne; [|reflexivity|exact H].
  autorewrite with world. by apply stored_started_ne.
Qed.

(** ** No speech *)

(** The Transcribe worker on an empty list of sub-clips *)
Lemma transcription_turn_no_speech (self : StreamingPipeline) (device fp : string)
  (rest : list (option string)) (w : world) (vs : ProcessingState) :
  transcription_worker_device self = Ok device ->
  queues w TRANSCRIPTION = Some fp :: rest ->
  is_completed (stored fp TRANSCRIPTION w) = false ->
  stored fp VAD_SEGMENTATION w = Some vs ->
  status vs = "completed" ->
  result vs = PyList [] ->
  disk_fault w (get_state_file_path fp TRANSCRIPTION) = false ->
  let done := completed_state (running_state fp TRANSCRIPTION (clock w)) (PyList []) (clock w) in
  snd (_transcription_worker self w)
  = queue_set ALIGNMENT (queues w ALIGNMENT ++ [Some fp])
      (notified self done (put_record done (started self TRANSCRIPTION fp rest w))).
Proof.
  intros Hdev Hq Hown Hvs Hst Hres Hd done.
  unfold _transcription_worker. rewrite Hdev.
  rewrite (worker_turn_token _ _ _ _ _ _ Hq).
  unfold transcription_body. load_step. rewrite Hown. cbv beta iota.
  load_step. rewrite Hvs. cbv beta iota. rewrite Hst, String.eqb_refl.
  change (after_load fp VAD_SEGMENTATION
            (after_load fp TRANSCRIPTION (queue_set TRANSCRIPTION rest w)))
    with (after_loads fp (stage_loads TRANSCRIPTION) (queue_set TRANSCRIPTION rest w)).
  erewrite M_bind_ok by (by apply begin_running_started).
  rewrite Hres. rewrite bind_lift. cbn [py_len]. cbv beta iota.
  rewrite bind_lift. cbn [py_iter]. cbv beta iota.
  cbn [transcribe_segments]. unfold M_bind at 1. cbn [M_ret fst snd].
  rewrite complete_with_ok; [|autorewrite with world; exact Hd|reflexivity].
  cbn [snd]. autorewrite with world.
  rewrite queues_started_ne by discriminate. reflexivity.
Qed.

(** C5, as the code has it. For a file whose completed SegmentSpeech record
    holds an empty list, Transcribe completes with an empty list, the Align
    worker calls the aligner on no segments, and an empty (or [None])
    answer makes it write a failed Align record, "Word alignment failed":
    the token goes no further, and no Merge or Export record is written. *)
Theorem no_speech_fails_at_alignment
  (self : StreamingPipeline) (device fp : string) (rest : list (option string))
  (w : world) (vs au : ProcessingState) (v : pyval) :
  transcription_worker_device self = Ok device ->
  queues w TRANSCRIPTION = Some fp :: rest ->
  queues w ALIGNMENT = [] ->
  stored fp VAD_SEGMENTATION w = Some vs ->
  status vs = "completed" ->
  result vs = PyList [] ->
  is_completed (stored fp TRANSCRIPTION w) = false ->
  is_completed (stored fp ALIGNMENT w) = false ->
  stored fp EXTRACT_AUDIO w = Some au ->
  align_words self (PyList []) (result au) PyNone = Ok v ->
  py_truthy v = false ->
  disk_fault w (get_state_file_path fp TRANSCRIPTION) = false ->
  disk_fault w (get_state_file_path fp ALIGNMENT) = false ->
  let w1 := snd (_transcription_worker self w) in
  let w2 := snd (_alignment_worker self w1) in
  (exists ts, stored fp TRANSCRIPTION w1 = Some ts /\
              status ts = "completed" /\ result ts = PyList []) /\
  (exists st, stored fp ALIGNMENT w2 = Some st /\
              status st = "failed" /\ error st = Some "Word alignment failed") /\
  queues w2 DIARIZATION = queues w DIARIZATION /\
  queues w2 MERGE_SEGMENTS = queues w MERGE_SEGMENTS /\
  queues w2 EXPORT = queues w EXPORT /\
  stored fp MERGE_SEGMENTS w2 = stored fp MERGE_SEGMENTS w /\
  stored fp EXPORT w2 = stored fp EXPORT w.
Proof.
  intros Hdev Hq Hqa Hvs Hst Hres Hown Hown' Hau Hans Hv Hd Hd' w1 w2.
  pose proof (transcription_turn_no_speech self device fp rest w vs
                Hdev Hq Hown Hvs Hst Hres Hd) as E1.
  cbv zeta in E1. fold w1 in E1. rewrite Hqa in E1. simpl app in E1.
  set (done := completed_state (running_state fp TRANSCRIPTION (clock w)) (PyList []) (clock w))
    in E1.
  assert (Hts : stored fp TRANSCRIPTION w1 = Some done).
  { rewrite E1. autorewrite with world. by apply stored_put_record_eq. }
  assert (Hother : forall s, s <> TRANSCRIPTION -> stored fp s w1 = stored fp s w).
  { intros s Hs. rewrite E1. autorewrite with world.
    rewrite stored_put_record_ne; [|reflexivity|by intros <-].
    apply stored_started_ne. by intros <-. }
  assert (Hqs : forall q, q <> ALIGNMENT -> q <> TRANSCRIPTION -> queues w1 q = queues w q).
  { intros q H1 H2. rewrite E1. rewrite queues_queue_set_ne by exact H1.
    autorewrite with world. by apply queues_started_ne. }
  destruct (turn_failed self ALIGNMENT fp [] w1 v) as [c Hc].
  - apply elem_of_cons. right. apply elem_of_cons. right. apply elem_of_cons. by left.
  - rewrite E1. by autorewrite with world.
  - unfold due. rewrite Hts, (Hother ALIGNMENT), (Hother EXTRACT_AUDIO), Hown', Hau
      by discriminate. reflexivity.
  - unfold collaborator_answer. rewrite Hts, (Hother EXTRACT_AUDIO), Hau by discriminate.
    simpl. by rewrite Hans.
  - simpl. by rewrite Hv.
  - rewrite E1. autorewrite with world. exact Hd'.
  - unfold w2. change (_alignment_worker self w1) with (worker_of ALIGNMENT self w1).
    rewrite Hc. cbn [snd].
    split; [exists done; by repeat split|].
    split; [eexists; split; [apply stored_failed_world|by split]|].
    rewrite !queues_failed_world_ne by discriminate.
    rewrite !stored_failed_world_ne by discriminate.
    rewrite !Hqs by discriminate. rewrite !Hother by discriminate.
    by repeat split.
Qed.

Lemma no_speech_fails_at_alignment_witness :
  let self := empty_aligner_pipeline in
  let w := no_speech_world in
  let w1 := snd (_transcription_worker self w) in
  let w2 := snd (_alignment_worker self w1) in
  (exists ts, stored "a.mp4" TRANSCRIPTION w1 = Some ts /\
              status ts = "completed" /\ result ts = PyList []) /\
  (exists st, stored "a.mp4" ALIGNMENT w2 = Some st /\
              status st = "failed" /\ error st = Some "Word alignment failed") /\
  queues w2 DIARIZATION = queues w DIARIZATION /\
  queues w2 MERGE_SEGMENTS = queues w MERGE_SEGMENTS /\
  queues w2 EXPORT = queues w EXPORT /\
  stored "a.mp4" MERGE_SEGMENTS w2 = stored "a.mp4" MERGE_SEGMENTS w /\
  stored "a.mp4" EXPORT w2 = stored "a.mp4" EXPORT w.
Proof.
  apply (no_speech_fails_at_alignment empty_aligner_pipeline "cuda:0" "a.mp4" []
           no_speech_world
           (completed_record "a.mp4" VAD_SEGMENTATION (PyList []))
           (completed_record "a.mp4" EXTRACT_AUDIO (PyStr "temp/a_normalized.wav"))
           (PyList [])); reflexivity.
Defined.

(** The whole run on such a file stops at Align: there is no Merge and no
    Export record, and the completion callback is never called. *)
Example no_speech_full_run :
  let w := drain 20 empty_aligner_pipeline no_speech_world in
  status <$> stored "a.mp4" ALIGNMENT w = Some "failed" /\
  stored "a.mp4" MERGE_SEGMENTS w = None /\
  stored "a.mp4" EXPORT w = None /\
  Forall (fun s => queues w s = []) all_stages.
Proof. vm_compute. repeat split; repeat constructor. Qed.

(** ** Upstream records that are not completed *)

(** C7, as the code has it. The Align worker asks of the Extract record
    only that it is there (`all([transcription_state, audio_state])`), not
    that its status is completed. With a completed Transcribe record and an
    Extract record in any other status, the worker does not drop the token:
    it calls the aligner with that record's result and writes an Align
    record, failed when the aligner gives nothing, completed otherwise, and
    then it forwards the token. *)
Theorem alignment_runs_on_unfinished_extraction
  (self : StreamingPipeline) (fp : string) (rest : list (option string)) (w : world)
  (ts au : ProcessingState) (v : pyval) :
  queues w ALIGNMENT = Some fp :: rest ->
  is_completed (stored fp ALIGNMENT w) = false ->
  stored fp TRANSCRIPTION w = Some ts ->
  status ts = "completed" ->
  stored fp EXTRACT_AUDIO w = Some au ->
  status au <> "completed" ->
  collaborator_answer self ALIGNMENT fp w = Some (Ok v) ->
  json_serializable v = true ->
  disk_fault w (get_state_file_path fp ALIGNMENT) = false ->
  let w' := snd (_alignment_worker self w) in
  exists st,
    stored fp ALIGNMENT w' = Some st /\
    ((py_truthy v = false /\ status st = "failed") \/
     (py_truthy v = true /\ status st = "completed" /\
      queues w' DIARIZATION = queues w DIARIZATION ++ [Some fp])).
Proof.
  intros Hq Hown Hts Hst Hau Hnot Hans Hjson Hd w'.
  destruct (py_truthy v) eqn:Hv.
  - (* the aligner gave something *)
    exists (completed_state (running_state fp ALIGNMENT (clock w)) v (clock w)).
    unfold collaborator_answer in Hans. rewrite Hts, Hau in Hans.
    destruct (py_iter (result ts)) as [items|] eqn:Ei; simpl in Hans; [|discriminate].
    destruct (prepare_alignment items [] PyNone) as [p|] eqn:Ep; [|discriminate].
    injection Hans as Hans.
    assert (E : w' = queue_set DIARIZATION (queues w DIARIZATION ++ [Some fp])
                  (notified self
                     (completed_state (running_state fp ALIGNMENT (clock w)) v (clock w))
                     (put_record
                        (completed_state (running_state fp ALIGNMENT (clock w)) v (clock w))
                        (log_event (EvCall (CallAligner (PyList (fst p)) (result au) (snd p)))
                           (started self ALIGNMENT fp rest w))))).
    { unfold w', _alignment_worker. rewrite (worker_turn_token _ _ _ _ _ _ Hq).
      unfold alignment_body. load_step. rewrite Hown. cbv beta iota.
      load_step. load_step. rewrite Hts, Hau. cbv beta iota. rewrite Hst, String.eqb_refl.
      change (after_load fp EXTRACT_AUDIO
                (after_load fp TRANSCRIPTION
                   (after_load fp ALIGNMENT (queue_set ALIGNMENT rest w))))
        with (after_loads fp (stage_loads ALIGNMENT) (queue_set ALIGNMENT rest w)).
      erewrite M_bind_ok by (by apply begin_running_started).
      rewrite bind_lift, Ei. cbv beta iota. rewrite bind_lift, Ep. cbv beta iota.
      rewrite bind_invoke, Hans. cbv beta iota. rewrite Hv.
      rewrite complete_with_ok; [|autorewrite with world; exact Hd|exact Hjson].
      cbn [snd]. autorewrite with world.
      by rewrite queues_started_ne by discriminate. }
    split.
    + rewrite E. autorewrite with world. by apply stored_put_record_eq.
    + right. split; [reflexivity|]. split; [reflexivity|].
      rewrite E. by autorewrite with world.
  - (* the aligner gave nothing *)
    destruct (turn_failed self ALIGNMENT fp rest w v) as [c Hc].
    + apply elem_of_cons. right. apply elem_of_cons. right. apply elem_of_cons. by left.
    + exact Hq.
    + unfold due. rewrite Hown, Hts, Hau. simpl. by rewrite Hst.
    + exact Hans.
    + simpl. by rewrite Hv.
    + exact Hd.
    + unfold w'. change (_alignment_worker self w) with (worker_of ALIGNMENT self w).
      rewrite Hc. cbn [snd]. eexists. split; [apply stored_failed_world|].
      left. by split.
Qed.

Lemma alignment_runs_on_unfinished_extraction_witness :
  let w := failed_extract_world in
  (status <$> stored "a.mp4" EXTRACT_AUDIO w = Some "failed" /\
   stored "a.mp4" ALIGNMENT w = None) /\
  let w' := snd (_alignment_worker strict_aligner_pipeline w) in
  exists st,
    stored "a.mp4" ALIGNMENT w' = Some st /\
    ((py_truthy PyNone = false /\ status st = "failed") \/
     (py_truthy PyNone = true /\ status st = "completed" /\
      queues w' DIARIZATION = queues w DIARIZATION ++ [Some "a.mp4"])).
Proof.
  split; [by split|].
  apply (alignment_runs_on_unfinished_extraction strict_aligner_pipeline "a.mp4" []
           failed_extract_world
           (completed_record "a.mp4" TRANSCRIPTION
              (PyList [PyDict [("segment_path", PyStr "segments/segment_0000.wav");
                               ("result", PyDict [("language", PyStr "en");
                                                  ("segments", PyList [])])]]))
           (mkState "a.mp4" EXTRACT_AUDIO "failed" 0 PyNone (Some "Audio extraction failed") 0)
           PyNone); try reflexivity.
  discriminate.
Defined.

(** On the same store the sibling workers drop the token and write
    nothing: the Diarize worker tests the status of the Extract record. *)
Example diarization_drops_on_unfinished_extraction :
  let w := queue_set DIARIZATION [Some "a.mp4"] failed_extract_world in
  let w' := snd (_diarization_worker demo_pipeline w) in
  states_dir w' = states_dir w /\
  queues w' MERGE_SEGMENTS = [] /\
  trace w' = [EvLogError "Missing or incomplete audio extraction for a.mp4"].
Proof. vm_compute. repeat split; reflexivity. Qed.

(** ** What a Merge turn writes *)

Lemma bind_save_state_unserializable {B} (st : ProcessingState) (k : unit -> M B)
  (w : world) :
  disk_fault w (state_file_of st) = false ->
  json_serializable (result st) = false ->
  M_bind (save_state st) k w
  = k tt (log_event (EvLogError ("Failed to save state for " +:+ file_path st))
            (write_file (state_file_of st) Unparseable w)).
Proof.
  intros Hd Hj. apply M_bind_ok.
  unfold save_state, try_except, M_bind, open_w, json_dump, open_fails.
  fold (state_file_of st). rewrite Hd. cbn [fst snd andb]. by rewrite Hj.
Qed.

(** The Merge record after a turn of the Merge worker that found the work
    due: completed with the result of [perform_merge], or not completed. *)
Lemma merge_turn_record (self : StreamingPipeline) (fp : string)
  (rest : list (option string)) (w : world) (als st : ProcessingState) :
  queues w MERGE_SEGMENTS = Some fp :: rest ->
  is_completed (stored fp MERGE_SEGMENTS w) = false ->
  stored fp ALIGNMENT w = Some als ->
  status als = "completed" ->
  disk_fault w (get_state_file_path fp MERGE_SEGMENTS) = false ->
  stored fp MERGE_SEGMENTS (snd (_merge_worker self w)) = Some st ->
  status st = "completed" ->
  perform_merge (result als) (diarization_segments_of fp w) = Ok (result st).
Proof.
  intros Hq Hown Hals Hst Hd Hrec Hdone.
  unfold _merge_worker in Hrec. rewrite (worker_turn_token _ _ _ _ _ _ Hq) in Hrec.
  unfold merge_body in Hrec. revert Hrec. load_step. rewrite Hown. cbv beta iota.
  load_step. load_step. rewrite Hals. cbv beta iota. rewrite Hst, String.eqb_refl.
  erewrite M_bind_ok by (apply begin_running_ok; autorewrite with world; exact Hd).
  fold (diarization_segments_of fp w).
  rewrite bind_lift.
  destruct (perform_merge (result als) (diarization_segments_of fp w)) as [final|e].
  - unfold complete_with. rewrite bind_time_time.
    destruct (json_serializable final) eqn:Hj.
    + rewrite bind_save_state_ok; [|autorewrite with world; exact Hd|exact Hj].
      rewrite bind_notify_progress. unfold queue_put, modify. cbn [snd].
      autorewrite with world. rewrite stored_put_record_eq by reflexivity.
      intros H. injection H as <-. reflexivity.
    + rewrite bind_save_state_unserializable; [|autorewrite with world; exact Hd|exact Hj].
      rewrite bind_notify_progress. unfold queue_put, modify. cbn [snd].
      autorewrite with world.
      change (state_file_of _) with (get_state_file_path fp MERGE_SEGMENTS).
      rewrite stored_unparseable. discriminate.
  - cbn [snd]. autorewrite with world. rewrite stored_put_record_eq by reflexivity.
    intros H. injection H as <-. discriminate Hdone.
Qed.

(** A word of a merged segment is what [assign_speaker] made of a word. *)
Lemma merge_segment_word_origin (timeline : list (span * pyval)) (x seg w : pyval) :
  merge_segment timeline x = Ok seg ->
  w ∈ words_of seg ->
  exists w0, assign_speaker timeline w0 = Ok w.
Proof.
  unfold merge_segment. intros H Hw.
  destruct (py_contains "words" x) as [[|]|] eqn:Ec; simpl in H; [| |discriminate].
  - destruct (py_getitem x "words") as [words|] eqn:Eg; simpl in H; [|discriminate].
    destruct (py_iter words) as [ws|] eqn:Ei; simpl in H; [|discriminate].
    destruct (res_map (assign_speaker timeline) ws) as [ws'|] eqn:Em; simpl in H;
      [|discriminate].
    assert (Hsame : seg = x -> ws = [] -> False).
    { intros -> ->. unfold words_of in Hw. rewrite Eg, Ei in Hw.
      by apply elem_of_nil in Hw. }
    destruct words as [| | | |l|kvs|]; simpl in Ei; try discriminate.
    + injection H as <-. injection Ei as <-.
      destruct s as [|a s]; simpl in Em; [by destruct Hsame|discriminate].
    + injection Ei as <-.
      destruct x; simpl in H, Eg; try discriminate. injection H as <-.
      unfold words_of in Hw. simpl in Hw. rewrite string_dict_get_set_eq in Hw.
      simpl in Hw. destruct (res_map_elem _ _ _ _ Em Hw) as (w0 & _ & Hw0).
      by exists w0.
    + injection H as <-. injection Ei as <-.
      destruct kvs as [|kv kvs]; simpl in Em; [by destruct Hsame|discriminate].
  - injection H as <-. exfalso.
    unfold words_of in Hw. destruct x; simpl in Ec, Hw; try by apply elem_of_nil in Hw.
    unfold dict_has in Ec. injection Ec as Ec.
    destruct (dict_get String.eqb "words" kvs); [discriminate|].
    by apply elem_of_nil in Hw.
Qed.

(** What [assign_speaker] leaves in a word: the times it had, and the label
    that the inner loop found for its midpoint. *)
Lemma assign_speaker_find (timeline : list (span * pyval)) (w0 w : pyval) :
  assign_speaker timeline w0 = Ok w ->
  exists m sp,
    word_mid_point w = Ok m /\ py_getitem w "speaker" = Ok sp /\
    find_speaker m timeline = Ok sp.
Proof.
  unfold assign_speaker. intros H.
  destruct (word_mid_point w0) as [m|] eqn:Em; simpl in H; [|discriminate].
  destruct (find_speaker m timeline) as [sp|] eqn:Es; simpl in H; [|discriminate].
  destruct w0; simpl in H; try discriminate. injection H as <-.
  exists m, sp. split; [by rewrite word_mid_point_setitem|].
  split; [|exact Es].
  simpl. by rewrite string_dict_get_set_eq.
Qed.

(** The merge with a list of intervals as the Diarize stage records them *)
Lemma perform_merge_intervals (aligned final : pyval) (l : list DiarizationSegment) :
  perform_merge aligned (PyList (map segment_dict l)) = Ok final ->
  exists fs,
    final = PyList fs /\
    forall seg word, seg ∈ fs -> word ∈ words_of seg ->
      exists a b,
        number_at word "start" a /\ number_at word "end" b /\
        py_getitem word "speaker" = Ok (PyStr (assigned_label (a + (b - a) / 2) l)).
Proof.
  unfold perform_merge. cbn [py_iter res_bind]. rewrite speaker_timeline_segments.
  cbn [res_bind]. intros H.
  destruct (py_iter aligned) as [asegs|] eqn:Ea; simpl in H; [|discriminate].
  destruct (res_map (merge_segment (fill_timeline l [])) asegs) as [fs|] eqn:Em;
    simpl in H; [|discriminate].
  injection H as <-. exists fs. split; [reflexivity|].
  intros seg word Hseg Hword.
  destruct (res_map_elem _ _ _ _ Em Hseg) as (x & _ & Hx).
  destruct (merge_segment_word_origin _ _ _ _ Hx Hword) as (w0 & Hw0).
  destruct (assign_speaker_find _ _ _ Hw0) as (m & sp & Hm & Hsp & Hfind).
  destruct (word_mid_point_formula _ _ Hm) as (a & b & Ha & Hb & ->).
  exists a, b. split; [exact Ha|]. split; [exact Hb|].
  rewrite find_speaker_timeline in Hfind by constructor.
  injection Hfind as <-. exact Hsp.
Qed.

(** Two intervals with one span, (1, 2, "A") and then (1, 2, "B"), and a word
    over [1, 2]. The midpoint of the word is 1.5; the first interval of the
    list contains it, and it is the only span there is; the Merge worker
    gives the word the label "B" of the second interval. *)
Lemma first_interval_label_is_overwritten :
  let w := duplicate_span_world in
  let first := mkSegment 1 2 "A" in
  diarization_segments_of "a.mp4" w = PyList (map segment_dict [first; mkSegment 1 2 "B"]) /\
  (1 + (2 - 1) / 2 = 1.5)%float /\
  (PrimFloat.leb (start first) 1.5 = true /\ PrimFloat.leb 1.5 (end_ first) = true) /\
  stored "a.mp4" MERGE_SEGMENTS (snd (_merge_worker demo_pipeline w))
  = Some (completed_state (running_state "a.mp4" MERGE_SEGMENTS 0)
            (PyList [PyDict [("words",
               PyList [PyDict [("word", PyStr "w"); ("start", PyNum 1); ("end", PyNum 2);
                               ("speaker", PyStr "B")]])]]) 0).
Proof. vm_compute. repeat split; reflexivity. Qed.

(** C2, amended. For every turn of the Merge worker that finds a completed
    Align record and a list of diarization intervals, and writes a
    completed Merge record, every word of the Merge result has a number
    [a] as start and a number [b] as end and, with [m = a + (b - a) / 2],
    carries as [speaker]: the sentinel "UNKNOWN" when no interval of the
    list has [start <= m <= end]; otherwise the label of the last interval
    of the list that has the same [(start, end)] as the first interval, in
    the order of the list, with [start <= m <= end]. That is the label of
    this first interval itself unless a later interval repeats its span.
    The list is that of the stored Diarize record, as the Diarize stage
    writes it, and empty when the store has no Diarize record. *)
Theorem merge_assigns_last_label_of_first_span
  (self : StreamingPipeline) (fp : string) (rest : list (option string)) (w : world)
  (als st : ProcessingState) (l : list DiarizationSegment) :
  queues w MERGE_SEGMENTS = Some fp :: rest ->
  is_completed (stored fp MERGE_SEGMENTS w) = false ->
  stored fp ALIGNMENT w = Some als ->
  status als = "completed" ->
  diarization_segments_of fp w = PyList (map segment_dict l) ->
  disk_fault w (get_state_file_path fp MERGE_SEGMENTS) = false ->
  stored fp MERGE_SEGMENTS (snd (_merge_worker self w)) = Some st ->
  status st = "completed" ->
  exists fs,
    result st = PyList fs /\
    forall seg word, seg ∈ fs -> word ∈ words_of seg ->
      exists a b,
        number_at word "start" a /\ number_at word "end" b /\
        py_getitem word "speaker" = Ok (PyStr (assigned_label (a + (b - a) / 2) l)).
Proof.
  intros Hq Hown Hals Hst Hl Hd Hrec Hdone.
  apply (perform_merge_intervals (result als)).
  rewrite <- Hl. by apply (merge_turn_record self fp rest w als st).
Qed.

Lemma merge_assigns_last_label_of_first_span_witness :
  let w := tie_break_world in
  let l := [mkSegment 0 1.5 "A"; mkSegment 1.5 3 "B"] in
  let st := completed_state (running_state "a.mp4" MERGE_SEGMENTS 0)
              (PyList [PyDict [("words",
                 PyList [PyDict [("word", PyStr "w"); ("start", PyNum 1); ("end", PyNum 2);
                                 ("speaker", PyStr "A")]])]]) 0 in
  stored "a.mp4" MERGE_SEGMENTS (snd (_merge_worker demo_pipeline w)) = Some st /\
  assigned_label (1 + (2 - 1) / 2) l = "A" /\
  exists fs,
    result st = PyList fs /\
    forall seg word, seg ∈ fs -> word ∈ words_of seg ->
      exists a b,
        number_at word "start" a /\ number_at word "end" b /\
        py_getitem word "speaker" = Ok (PyStr (assigned_label (a + (b - a) / 2) l)).
Proof.
  intros w l st. split; [reflexivity|]. split; [reflexivity|].
  apply (merge_assigns_last_label_of_first_span demo_pipeline "a.mp4" [] w
           (completed_record "a.mp4" ALIGNMENT
              (PyList [PyDict [("words", PyList [py_word "w" 1 2])]])) st l);
    reflexivity.
Defined.

(** ** More about the state store *)

Lemma stored_put_record_other (fp : string) (s : ProcessingStage) (st : ProcessingState)
  (w : world) :
  (fp, s) <> (file_path st, stage st) ->
  stored fp s (put_record st w) = stored fp s w.
Proof.
  intros Hne. unfold stored, put_record, write_file; simpl.
  rewrite lookup_insert_ne; [reflexivity|].
  intros H. apply get_state_file_path_pair_inj in H as [H1 H2]. apply Hne. by rewrite H1, H2.
Qed.

(** X1. A record that [save_state] writes on a disk that takes the write,
    with a result that JSON can hold, is the record that [load_state]
    returns for its file and stage, whatever the store held before; the
    load logs nothing, and the record of every other file or stage is the
    one that was there. *)
Theorem load_state_returns_saved_record (st : ProcessingState) (w : world) :
  disk_fault w (state_file_of st) = false ->
  json_serializable (result st) = true ->
  let w' := snd (save_state st w) in
  load_state (file_path st) (stage st) w' = (Ok (Some st), w') /\
  trace w' = trace w /\
  forall fp s, (fp, s) <> (file_path st, stage st) -> stored fp s w' = stored fp s w.
Proof.
  intros Hd Hj w'. unfold w'. rewrite save_state_ok by assumption. cbn [snd].
  split.
  - rewrite load_state_spec, stored_put_record. f_equal.
    unfold after_load, load_log.
    assert (states_dir (put_record st w) !! get_state_file_path (file_path st) (stage st)
            = Some (JsonOf st)) as ->
      by (unfold put_record, write_file; simpl; apply lookup_insert_eq).
    apply with_trace_nil.
  - split; [reflexivity|]. intros fp s Hne. by apply stored_put_record_other.
Qed.

Lemma load_state_returns_saved_record_witness :
  let st := completed_record "a.mp4" EXTRACT_AUDIO (PyStr "temp/a_normalized.wav") in
  let w' := snd (save_state st all_completed_world) in
  load_state "a.mp4" EXTRACT_AUDIO w' = (Ok (Some st), w') /\
  trace w' = trace all_completed_world /\
  forall fp s, (fp, s) <> ("a.mp4", EXTRACT_AUDIO) ->
               stored fp s w' = stored fp s all_completed_world.
Proof.
  apply (load_state_returns_saved_record
           (completed_record "a.mp4" EXTRACT_AUDIO (PyStr "temp/a_normalized.wav"))
           all_completed_world); reflexivity.
Defined.

(** X2. The string that [get_state_file_path] digests for a file and a
    stage is the digested string of no other file or stage: no file path
    that ends like a stage name makes two records share a state file. *)
Theorem state_file_name_tells_file_and_stage (fp1 fp2 : string) (s1 s2 : ProcessingStage) :
  (fp1, s1) <> (fp2, s2) ->
  get_state_file_path fp1 s1 <> get_state_file_path fp2 s2.
Proof.
  intros Hne H. apply get_state_file_path_pair_inj in H as [H1 H2].
  apply Hne. by rewrite H1, H2.
Qed.

Lemma state_file_name_tells_file_and_stage_witness :
  get_state_file_path "take_vad" EXPORT <> get_state_file_path "take" VAD_SEGMENTATION.
Proof.
  apply (state_file_name_tells_file_and_stage "take_vad" "take" EXPORT VAD_SEGMENTATION).
  discriminate.
Defined.

(** X3. A record whose result JSON cannot hold (an object of a class) is
    not stored, and on a disk that takes the write it costs the store the
    record that was there: the file is opened for writing before the dump
    raises, so afterwards [load_state] finds a file that does not parse,
    logs it and returns [None]. The caller of [save_state] sees a normal
    return. *)
Theorem unserializable_result_erases_record (st : ProcessingState) (w : world) :
  disk_fault w (state_file_of st) = false ->
  json_serializable (result st) = false ->
  let w' := snd (save_state st w) in
  fst (save_state st w) = Ok tt /\
  fst (load_state (file_path st) (stage st) w') = Ok None /\
  trace (snd (load_state (file_path st) (stage st) w'))
  = trace w ++ [EvLogError ("Failed to save state for " +:+ file_path st);
                EvLogError ("Failed to load state for " +:+ file_path st)] /\
  forall fp s, (fp, s) <> (file_path st, stage st) -> stored fp s w' = stored fp s w.
Proof.
  intros Hd Hj w'.
  assert (Hw : w' = log_event (EvLogError ("Failed to save state for " +:+ file_path st))
                      (write_file (state_file_of st) Unparseable w)).
  { unfold w', save_state, try_except, M_bind, open_w, json_dump, open_fails.
    fold (state_file_of st). rewrite Hd. cbn [fst snd andb]. by rewrite Hj. }
  split; [apply save_state_returns|].
  rewrite Hw, load_state_spec. cbn [fst snd].
  split; [|split].
  - f_equal. rewrite stored_log_event. apply stored_unparseable.
  - unfold after_load, load_log, log_event, write_file, state_file_of; simpl.
    rewrite lookup_insert_eq. by rewrite <- app_assoc.
  - intros fp s Hne. unfold stored, log_event, write_file, state_file_of; simpl.
    rewrite lookup_insert_ne; [reflexivity|].
    intros H. apply get_state_file_path_pair_inj in H as [H1 H2]. apply Hne. by rewrite H1, H2.
Qed.

Lemma unserializable_result_erases_record_witness :
  let st := completed_record "a.mp4" TRANSCRIPTION
              (PyList [PyDict [("segment_path", PyStr "segments/segment_0000.wav");
                               ("result", PyObject "TranscriptionResult" [])]]) in
  let w' := snd (save_state st all_completed_world) in
  fst (save_state st all_completed_world) = Ok tt /\
  fst (load_state "a.mp4" TRANSCRIPTION w') = Ok None /\
  trace (snd (load_state "a.mp4" TRANSCRIPTION w'))
  = trace all_completed_world ++ [EvLogError "Failed to save state for a.mp4";
                                  EvLogError "Failed to load state for a.mp4"] /\
  forall fp s, (fp, s) <> ("a.mp4", TRANSCRIPTION) ->
               stored fp s w' = stored fp s all_completed_world.
Proof.
  apply (unserializable_result_erases_record
           (completed_record "a.mp4" TRANSCRIPTION
              (PyList [PyDict [("segment_path", PyStr "segments/segment_0000.wav");
                               ("result", PyObject "TranscriptionResult" [])]]))
           all_completed_world); reflexivity.
Defined.

(** ** More about the turns of the workers *)

Lemma after_load_completed (fp : string) (s : ProcessingStage) (w : world) :
  is_completed (stored fp s w) = true -> after_load fp s w = w.
Proof.
  unfold stored, after_load, load_log.
  destruct (states_dir w !! get_state_file_path fp s) as [[st|]|]; try discriminate.
  intros _. apply with_trace_nil.
Qed.

Lemma transcription_worker_with_device (self : StreamingPipeline) (w : world) :
  gpu_devices self <> [] ->
  exists device,
    _transcription_worker self w
    = worker_turn transcription_queue (transcription_body self device)
        "Error in transcription worker" w.
Proof.
  intros H. unfold _transcription_worker, transcription_worker_device.
  destruct (gpu_devices self) as [|device ds]; [done|]. by exists device.
Qed.

(** A turn on a token whose record of the worker's own stage is completed *)
Lemma turn_skipped (self : StreamingPipeline) (s next : ProcessingStage) (fp : string)
  (rest : list (option string)) (w : world) :
  next_stage s = Some next ->
  queues w s = Some fp :: rest ->
  is_completed (stored fp s w) = true ->
  (s = TRANSCRIPTION -> gpu_devices self <> []) ->
  worker_of s self w
  = (Continue, queue_set next (queues w next ++ [Some fp]) (queue_set s rest w)).
Proof.
  intros Hn Hq Hown Hdev.
  assert (Hl : after_load fp s (queue_set s rest w) = queue_set s rest w)
    by (by apply after_load_completed).
  destruct s; simpl in Hn; try discriminate; injection Hn as <-; unfold worker_of.
  - unfold _extraction_worker. rewrite (worker_turn_token _ _ _ _ _ _ Hq).
    unfold extraction_body. load_step. rewrite Hown, Hl. cbv beta iota.
    unfold queue_put, modify. by autorewrite with world.
  - unfold _vad_worker. rewrite (worker_turn_token _ _ _ _ _ _ Hq).
    unfold vad_body. load_step. rewrite Hown, Hl. cbv beta iota.
    unfold queue_put, modify. by autorewrite with world.
  - destruct (transcription_worker_with_device self w (Hdev eq_refl)) as [device ->].
    rewrite (worker_turn_token _ _ _ _ _ _ Hq).
    unfold transcription_body. load_step. rewrite Hown, Hl. cbv beta iota.
    unfold queue_put, modify. by autorewrite with world.
  - unfold _alignment_worker. rewrite (worker_turn_token _ _ _ _ _ _ Hq).
    unfold alignment_body. load_step. rewrite Hown, Hl. cbv beta iota.
    unfold queue_put, modify. by autorewrite with world.
  - unfold _diarization_worker. rewrite (worker_turn_token _ _ _ _ _ _ Hq).
    unfold diarization_body. cbv zeta.
    destruct (py_truthy (settings_get self "diarization" (PyBool true))); cbn [negb];
      cbv beta iota.
    + load_step. rewrite Hown, Hl. cbv beta iota.
      unfold queue_put, modify. by autorewrite with world.
    + unfold queue_put, modify. by autorewrite with world.
  - unfold _merge_worker. rewrite (worker_turn_token _ _ _ _ _ _ Hq).
    unfold merge_body. load_step. rewrite Hown, Hl. cbv beta iota.
    unfold queue_put, modify. by autorewrite with world.
Qed.

(** X4. A worker that takes a token whose record of its own stage is
    completed does none of the stage's work: it puts the token on the queue
    of the next stage and nothing else changes. No record is written, no
    collaborator is called, no callback is called and no error or warning
    is logged. This holds for the six stages from Extract to Merge. *)
Theorem completed_stage_is_skipped (self : StreamingPipeline) (s next : ProcessingStage)
  (fp : string) (rest : list (option string)) (w : world) :
  next_stage s = Some next ->
  queues w s = Some fp :: rest ->
  is_completed (stored fp s w) = true ->
  (s = TRANSCRIPTION -> gpu_devices self <> []) ->
  let w' := snd (worker_of s self w) in
  fst (worker_of s self w) = Continue /\
  states_dir w' = states_dir w /\
  trace w' = trace w /\
  clock w' = clock w /\
  queues w' s = rest /\
  queues w' next = queues w next ++ [Some fp] /\
  forall q, q <> s -> q <> next -> queues w' q = queues w q.
Proof.
  intros Hn Hq Hown Hdev w'. unfold w'.
  rewrite (turn_skipped self s next fp rest w Hn Hq Hown Hdev). cbn [fst snd].
  assert (Hne : s <> next) by (destruct s; simpl in Hn; try discriminate; by injection Hn as <-).
  split; [reflexivity|]. split; [reflexivity|]. split; [reflexivity|].
  split; [reflexivity|].
  split; [rewrite queues_queue_set_ne by exact Hne; apply queues_queue_set_eq|].
  split; [apply queues_queue_set_eq|].
  intros q H1 H2. by rewrite !queues_queue_set_ne.
Qed.

Lemma completed_stage_is_skipped_witness :
  let w := queue_set ALIGNMENT [Some "a.mp4"] all_completed_world in
  let w' := snd (worker_of ALIGNMENT demo_pipeline w) in
  fst (worker_of ALIGNMENT demo_pipeline w) = Continue /\
  states_dir w' = states_dir w /\
  trace w' = trace w /\
  clock w' = clock w /\
  queues w' ALIGNMENT = [] /\
  queues w' DIARIZATION = queues w DIARIZATION ++ [Some "a.mp4"] /\
  forall q, q <> ALIGNMENT -> q <> DIARIZATION -> queues w' q = queues w q.
Proof.
  apply (completed_stage_is_skipped demo_pipeline ALIGNMENT DIARIZATION "a.mp4" []
           (queue_set ALIGNMENT [Some "a.mp4"] all_completed_world)).
  - reflexivity.
  - reflexivity.
  - reflexivity.
  - discriminate.
Defined.

Lemma load_log_is_log (fp : string) (s : ProcessingStage) (w : world) :
  forallb is_log (load_log fp s w) = true.
Proof.
  unfold load_log. by destruct (states_dir w !! get_state_file_path fp s) as [[st|]|].
Qed.

Lemma trace_after_loads (fp : string) (l : list ProcessingStage) (w : world) :
  exists evs, trace (after_loads fp l w) = trace w ++ evs /\ forallb is_log evs = true.
Proof.
  revert w. induction l as [|s l IH]; intros w; simpl.
  - exists []. by rewrite app_nil_r.
  - destruct (IH (after_load fp s w)) as (evs & E & Hevs).
    exists (load_log fp s w ++ evs). split.
    + by rewrite E, trace_after_load, app_assoc.
    + rewrite forallb_app, load_log_is_log. exact Hevs.
Qed.

Lemma not_completed_cases (st : option ProcessingState) :
  is_completed st = false ->
  st = None \/ exists es, st = Some es /\ String.eqb (status es) "completed" = false.
Proof. destruct st as [es|]; simpl; [|by left]. intros H. right. by exists es. Qed.

(** A turn on a token for which the upstream test of the worker fails *)
Lemma turn_starved (self : StreamingPipeline) (s : ProcessingStage) (fp : string)
  (rest : list (option string)) (w : world) :
  queues w s = Some fp :: rest ->
  (s <> EXPORT -> is_completed (stored fp s w) = false) ->
  (s = DIARIZATION -> py_truthy (settings_get self "diarization" (PyBool true)) = true) ->
  (s = TRANSCRIPTION -> gpu_devices self <> []) ->
  starved s fp w = true ->
  worker_of s self w
  = (Continue, log_event (EvLogError (missing_message s fp))
                 (after_loads fp (stage_loads s) (queue_set s rest w))).
Proof.
  intros Hq Hown Hen Hdev Hst.
  destruct s; simpl in Hst; try discriminate; unfold worker_of.
  - specialize (Hown ltac:(discriminate)).
    apply negb_true_iff in Hst.
    unfold _vad_worker. rewrite (worker_turn_token _ _ _ _ _ _ Hq).
    unfold vad_body. load_step. rewrite Hown. cbv beta iota. load_step.
    destruct (not_completed_cases _ Hst) as [->|(es & -> & E)]; cbv beta iota;
      [|rewrite E]; reflexivity.
  - specialize (Hown ltac:(discriminate)).
    apply negb_true_iff in Hst.
    destruct (transcription_worker_with_device self w (Hdev eq_refl)) as [device ->].
    rewrite (worker_turn_token _ _ _ _ _ _ Hq).
    unfold transcription_body. load_step. rewrite Hown. cbv beta iota. load_step.
    destruct (not_completed_cases _ Hst) as [->|(es & -> & E)]; cbv beta iota;
      [|rewrite E]; reflexivity.
  - specialize (Hown ltac:(discriminate)).
    unfold _alignment_worker. rewrite (worker_turn_token _ _ _ _ _ _ Hq).
    unfold alignment_body. load_step. rewrite Hown. cbv beta iota. load_step. load_step.
    destruct (stored fp TRANSCRIPTION w) as [ts|] eqn:Ets; [|reflexivity].
    destruct (stored fp EXTRACT_AUDIO w) as [au|] eqn:Eau; [|reflexivity].
    simpl in Hst. rewrite orb_false_r in Hst. apply negb_true_iff in Hst.
    cbv beta iota. by rewrite Hst.
  - specialize (Hown ltac:(discriminate)). specialize (Hen eq_refl).
    apply negb_true_iff in Hst.
    unfold _diarization_worker. rewrite (worker_turn_token _ _ _ _ _ _ Hq).
    unfold diarization_body. cbv zeta. rewrite Hen. cbn [negb]. cbv beta iota.
    load_step. rewrite Hown. cbv beta iota. load_step.
    destruct (not_completed_cases _ Hst) as [->|(es & -> & E)]; cbv beta iota;
      [|rewrite E]; reflexivity.
  - specialize (Hown ltac:(discriminate)).
    apply negb_true_iff in Hst.
    unfold _merge_worker. rewrite (worker_turn_token _ _ _ _ _ _ Hq).
    unfold merge_body. load_step. rewrite Hown. cbv beta iota. load_step. load_step.
    destruct (not_completed_cases _ Hst) as [->|(es & -> & E)]; cbv beta iota;
      [|rewrite E]; reflexivity.
  - apply negb_true_iff in Hst.
    unfold _export_worker. rewrite (worker_turn_token _ _ _ _ _ _ Hq).
    unfold export_body. load_step.
    destruct (not_completed_cases _ Hst) as [->|(es & -> & E)]; cbv beta iota;
      [|rewrite E]; reflexivity.
Qed.

(** X5. A worker whose upstream test fails for a token drops it. The test
    fails when the record the stage builds on is missing or not completed
    (for Align: the Transcribe record is missing or not completed, or there
    is no Extract record at all). The worker then writes no record, puts
    the token on no queue, calls no collaborator and no callback: all it
    leaves is error lines in the log, the last of which names the missing
    input. *)
Theorem starved_token_is_dropped (self : StreamingPipeline) (s : ProcessingStage)
  (fp : string) (rest : list (option string)) (w : world) :
  queues w s = Some fp :: rest ->
  (s <> EXPORT -> is_completed (stored fp s w) = false) ->
  (s = DIARIZATION -> py_truthy (settings_get self "diarization" (PyBool true)) = true) ->
  (s = TRANSCRIPTION -> gpu_devices self <> []) ->
  starved s fp w = true ->
  let w' := snd (worker_of s self w) in
  fst (worker_of s self w) = Continue /\
  states_dir w' = states_dir w /\
  queues w' s = rest /\
  (forall q, q <> s -> queues w' q = queues w q) /\
  exists evs,
    trace w' = trace w ++ evs /\
    forallb is_log evs = true /\
    last evs = Some (EvLogError (missing_message s fp)).
Proof.
  intros Hq Hown Hen Hdev Hst w'. unfold w'.
  rewrite (turn_starved self s fp rest w Hq Hown Hen Hdev Hst). cbn [fst snd].
  autorewrite with world.
  split; [reflexivity|]. split; [reflexivity|]. split; [reflexivity|].
  split; [intros q Hne; by rewrite queues_queue_set_ne|].
  destruct (trace_after_loads fp (stage_loads s) (queue_set s rest w)) as (evs & E & Hevs).
  exists (evs ++ [EvLogError (missing_message s fp)]).
  split; [by rewrite E, trace_queue_set, app_assoc|].
  split; [rewrite forallb_app, Hevs; reflexivity|apply last_snoc].
Qed.

Lemma starved_token_is_dropped_witness :
  let w := queue_set MERGE_SEGMENTS [Some "a.mp4"] (extracted_world VAD_SEGMENTATION) in
  let w' := snd (worker_of MERGE_SEGMENTS demo_pipeline w) in
  fst (worker_of MERGE_SEGMENTS demo_pipeline w) = Continue /\
  states_dir w' = states_dir w /\
  queues w' MERGE_SEGMENTS = [] /\
  (forall q, q <> MERGE_SEGMENTS -> queues w' q = queues w q) /\
  exists evs,
    trace w' = trace w ++ evs /\
    forallb is_log evs = true /\
    last evs = Some (EvLogError (missing_message MERGE_SEGMENTS "a.mp4")).
Proof.
  apply (starved_token_is_dropped demo_pipeline MERGE_SEGMENTS "a.mp4" []
           (queue_set MERGE_SEGMENTS [Some "a.mp4"] (extracted_world VAD_SEGMENTATION))).
  - reflexivity.
  - reflexivity.
  - discriminate.
  - discriminate.
  - reflexivity.
Defined.

Lemma elem_of_collaborator_stages (s : ProcessingStage) :
  s ∈ [EXTRACT_AUDIO; VAD_SEGMENTATION; ALIGNMENT; DIARIZATION] ->
  s = EXTRACT_AUDIO \/ s = VAD_SEGMENTATION \/ s = ALIGNMENT \/ s = DIARIZATION.
Proof.
  intros Hs. repeat (apply elem_of_cons in Hs as [->|Hs]); auto.
  by apply elem_of_nil in Hs.
Qed.

(** The world after a turn in which the collaborator, called as [c], gave
    what the worker recorded as [r] *)
Lemma turn_completed (self : StreamingPipeline) (s next : ProcessingStage) (fp : string)
  (rest : list (option string)) (w : world) (v r : pyval) :
  s ∈ [EXTRACT_AUDIO; VAD_SEGMENTATION; ALIGNMENT; DIARIZATION] ->
  next_stage s = Some next ->
  queues w s = Some fp :: rest ->
  due self s fp w = true ->
  collaborator_answer self s fp w = Some (Ok v) ->
  failure_sentinel s v = false ->
  recorded_result s v = Ok r ->
  json_serializable r = true ->
  disk_fault w (get_state_file_path fp s) = false ->
  exists c,
    worker_of s self w
    = (Continue,
       queue_set next (queues w next ++ [Some fp])
         (notified self (completed_state (running_state fp s (clock w)) r (clock w))
            (put_record (completed_state (running_state fp s (clock w)) r (clock w))
               (log_event (EvCall c) (started self s fp rest w))))).
Proof.
  intros Hs Hn Hq Hdue Hans Hv Hr Hj Hd.
  unfold due in Hdue. apply andb_prop in Hdue as [Hown Hup].
  apply negb_true_iff in Hown.
  destruct (elem_of_collaborator_stages s Hs) as [->|[->|[->| ->]]];
    simpl in Hans, Hv, Hup, Hr, Hn; injection Hn as <-.
  - (* Extract *)
    injection Hans as Hans. apply negb_false_iff in Hv. injection Hr as <-.
    exists (CallPreprocessor fp).
    unfold worker_of, _extraction_worker. rewrite (worker_turn_token _ _ _ _ _ _ Hq).
    unfold extraction_body. load_step. rewrite Hown. cbv beta iota.
    change (after_load fp EXTRACT_AUDIO (queue_set EXTRACT_AUDIO rest w))
      with (after_loads fp (stage_loads EXTRACT_AUDIO) (queue_set EXTRACT_AUDIO rest w)).
    erewrite M_bind_ok by (by apply begin_running_started).
    rewrite bind_invoke, Hans. cbv beta iota. rewrite Hv.
    rewrite complete_with_ok; [|autorewrite with world; exact Hd|exact Hj].
    autorewrite with world. by rewrite queues_started_ne by discriminate.
  - (* SegmentSpeech *)
    apply is_completed_true in Hup as (es & Hes & Hst).
    rewrite Hes in Hans. injection Hans as Hans. injection Hr as <-.
    exists (CallVad (result es)).
    unfold worker_of, _vad_worker. rewrite (worker_turn_token _ _ _ _ _ _ Hq).
    unfold vad_body. load_step. rewrite Hown. cbv beta iota.
    load_step. rewrite Hes. cbv beta iota. rewrite Hst, String.eqb_refl.
    change (after_load fp EXTRACT_AUDIO
              (after_load fp VAD_SEGMENTATION (queue_set VAD_SEGMENTATION rest w)))
      with (after_loads fp (stage_loads VAD_SEGMENTATION)
              (queue_set VAD_SEGMENTATION rest w)).
    erewrite M_bind_ok by (by apply begin_running_started).
    rewrite bind_invoke, Hans. cbv beta iota.
    assert (E : forall (a b : M unit), match v with PyNone => a | _ => b end = b)
      by (intros a b; by destruct v).
    rewrite E.
    rewrite complete_with_ok; [|autorewrite with world; exact Hd|exact Hj].
    autorewrite with world. by rewrite queues_started_ne by discriminate.
  - (* Align *)
    apply andb_prop in Hup as [Hts Hau].
    apply is_completed_true in Hts as (ts & Hts & Hst).
    rewrite Hts in Hans.
    destruct (stored fp EXTRACT_AUDIO w) as [au|] eqn:Eau; [|discriminate].
    destruct (py_iter (result ts)) as [items|] eqn:Ei; simpl in Hans; [|discriminate].
    destruct (prepare_alignment items [] PyNone) as [p|] eqn:Ep; [|discriminate].
    injection Hans as Hans. apply negb_false_iff in Hv. injection Hr as <-.
    exists (CallAligner (PyList (fst p)) (result au) (snd p)).
    unfold worker_of, _alignment_worker. rewrite (worker_turn_token _ _ _ _ _ _ Hq).
    unfold alignment_body. load_step. rewrite Hown. cbv beta iota.
    load_step. load_step. rewrite Hts, Eau. cbv beta iota. rewrite Hst, String.eqb_refl.
    change (after_load fp EXTRACT_AUDIO
              (after_load fp TRANSCRIPTION
                 (after_load fp ALIGNMENT (queue_set ALIGNMENT rest w))))
      with (after_loads fp (stage_loads ALIGNMENT) (queue_set ALIGNMENT rest w)).
    erewrite M_bind_ok by (by apply begin_running_started).
    rewrite bind_lift, Ei. cbv beta iota. rewrite bind_lift, Ep. cbv beta iota.
    rewrite bind_invoke, Hans. cbv beta iota. rewrite Hv.
    rewrite complete_with_ok; [|autorewrite with world; exact Hd|exact Hj].
    autorewrite with world. by rewrite queues_started_ne by discriminate.
  - (* Diarize *)
    apply andb_prop in Hup as [Hen Hup].
    apply is_completed_true in Hup as (au & Hau & Hst).
    rewrite Hau in Hans. injection Hans as Hans. apply negb_false_iff in Hv.
    destruct (py_iter v) as [segs|] eqn:Ei; simpl in Hr; [|discriminate].
    destruct (res_map asdict segs) as [dicts|] eqn:Em; simpl in Hr; [|discriminate].
    injection Hr as <-.
    exists (CallDiarizer (result au)).
    unfold worker_of, _diarization_worker. rewrite (worker_turn_token _ _ _ _ _ _ Hq).
    unfold diarization_body. cbv zeta. rewrite Hen. cbn [negb]. cbv beta iota.
    load_step. rewrite Hown. cbv beta iota.
    load_step. rewrite Hau. cbv beta iota. rewrite Hst, String.eqb_refl.
    change (after_load fp EXTRACT_AUDIO
              (after_load fp DIARIZATION (queue_set DIARIZATION rest w)))
      with (after_loads fp (stage_loads DIARIZATION) (queue_set DIARIZATION rest w)).
    erewrite M_bind_ok by (by apply begin_running_started).
    rewrite bind_invoke, Hans. cbv beta iota. rewrite Hv.
    rewrite bind_lift, Ei. cbv beta iota. rewrite bind_lift, Em. cbv beta iota.
    rewrite complete_with_ok; [|autorewrite with world; exact Hd|exact Hj].
    autorewrite with world. by rewrite queues_started_ne by discriminate.
Qed.

(** X6. When the work of the Extract, SegmentSpeech, Align or Diarize stage
    is due and the collaborator gives an answer that is no failure, the
    worker stores a completed record of its stage with progress 1 and the
    answer as result (for Diarize, the intervals as dicts), announces it
    through the progress callback, which is the last event of the turn, and
    puts the token at the end of the next stage's queue and nowhere else.
    The records of the other stages of the file stay as they were. *)
Theorem collaborator_answer_is_recorded (self : StreamingPipeline)
  (s next : ProcessingStage) (fp : string) (rest : list (option string)) (w : world)
  (v r : pyval) :
  s ∈ [EXTRACT_AUDIO; VAD_SEGMENTATION; ALIGNMENT; DIARIZATION] ->
  next_stage s = Some next ->
  queues w s = Some fp :: rest ->
  due self s fp w = true ->
  collaborator_answer self s fp w = Some (Ok v) ->
  failure_sentinel s v = false ->
  recorded_result s v = Ok r ->
  json_serializable r = true ->
  disk_fault w (get_state_file_path fp s) = false ->
  let w' := snd (worker_of s self w) in
  stored fp s w' = Some (mkState fp s "completed" 1 r None (clock w)) /\
  (progress_callback self = true ->
   last (trace w') = Some (EvProgress (mkState fp s "completed" 1 r None (clock w)))) /\
  queues w' s = rest /\
  queues w' next = queues w next ++ [Some fp] /\
  (forall q, q <> s -> q <> next -> queues w' q = queues w q) /\
  (forall s', s' <> s -> stored fp s' w' = stored fp s' w).
Proof.
  intros Hs Hn Hq Hdue Hans Hv Hr Hj Hd w'.
  destruct (turn_completed self s next fp rest w v r Hs Hn Hq Hdue Hans Hv Hr Hj Hd)
    as [c Hc].
  assert (Hne : s <> next) by (destruct s; simpl in Hn; try discriminate; by injection Hn as <-).
  unfold w'. rewrite Hc. cbn [snd].
  change (completed_state (running_state fp s (clock w)) r (clock w))
    with (mkState fp s "completed" 1 r None (clock w)).
  split; [autorewrite with world; by apply stored_put_record_eq|].
  split.
  { intros Hcb. autorewrite with world. rewrite Hcb. apply last_snoc. }
  split.
  { rewrite queues_queue_set_ne by exact Hne. by autorewrite with world. }
  split; [apply queues_queue_set_eq|].
  split.
  { intros q H1 H2. rewrite queues_queue_set_ne by exact H2. autorewrite with world.
    by apply queues_started_ne. }
  intros s' Hs'. autorewrite with world.
  rewrite stored_put_record_ne; [|reflexivity|simpl; congruence].
  autorewrite with world. by apply stored_started_ne.
Qed.

Lemma collaborator_answer_is_recorded_witness :
  let w := extracted_world DIARIZATION in
  let r := PyList [py_interval 0 3 "SPEAKER_00"] in
  let w' := snd (worker_of DIARIZATION demo_pipeline w) in
  stored "a.mp4" DIARIZATION w' = Some (mkState "a.mp4" DIARIZATION "completed" 1 r None 0) /\
  (progress_callback demo_pipeline = true ->
   last (trace w')
   = Some (EvProgress (mkState "a.mp4" DIARIZATION "completed" 1 r None 0))) /\
  queues w' DIARIZATION = [] /\
  queues w' MERGE_SEGMENTS = queues w MERGE_SEGMENTS ++ [Some "a.mp4"] /\
  (forall q, q <> DIARIZATION -> q <> MERGE_SEGMENTS -> queues w' q = queues w q) /\
  (forall s', s' <> DIARIZATION -> stored "a.mp4" s' w' = stored "a.mp4" s' w).
Proof.
  apply (collaborator_answer_is_recorded demo_pipeline DIARIZATION MERGE_SEGMENTS "a.mp4" []
           (extracted_world DIARIZATION)
           (PyList [PyObject "DiarizationSegment"
                      [("start", PyNum 0); ("end", PyNum 3);
                       ("speaker", PyStr "SPEAKER_00")]])
           (PyList [py_interval 0 3 "SPEAKER_00"])).
  - do 3 (apply elem_of_cons; right). apply elem_of_cons. by left.
  - reflexivity.
  - reflexivity.
  - vm_compute. reflexivity.
  - vm_compute. reflexivity.
  - reflexivity.
  - reflexivity.
  - reflexivity.
  - reflexivity.
Defined.

(** The world after a turn in which the collaborator, called as [c], raised *)
Lemma turn_raised (self : StreamingPipeline) (s : ProcessingStage) (fp : string)
  (rest : list (option string)) (w : world) (e : exn) :
  s ∈ [EXTRACT_AUDIO; VAD_SEGMENTATION; ALIGNMENT; DIARIZATION] ->
  queues w s = Some fp :: rest ->
  due self s fp w = true ->
  collaborator_answer self s fp w = Some (Raise e) ->
  disk_fault w (get_state_file_path fp s) = false ->
  exists c,
    worker_of s self w
    = (Continue,
       log_event (EvLogError (worker_message s))
         (log_event (EvCall c) (started self s fp rest w))).
Proof.
  intros Hs Hq Hdue Hans Hd.
  unfold due in Hdue. apply andb_prop in Hdue as [Hown Hup].
  apply negb_true_iff in Hown.
  destruct (elem_of_collaborator_stages s Hs) as [->|[->|[->| ->]]];
    simpl in Hans, Hup.
  - (* Extract *)
    injection Hans as Hans.
    exists (CallPreprocessor fp).
    unfold worker_of, _extraction_worker. rewrite (worker_turn_token _ _ _ _ _ _ Hq).
    unfold extraction_body. load_step. rewrite Hown. cbv beta iota.
    change (after_load fp EXTRACT_AUDIO (queue_set EXTRACT_AUDIO rest w))
      with (after_loads fp (stage_loads EXTRACT_AUDIO) (queue_set EXTRACT_AUDIO rest w)).
    erewrite M_bind_ok by (by apply begin_running_started).
    by rewrite bind_invoke, Hans.
  - (* SegmentSpeech *)
    apply is_completed_true in Hup as (es & Hes & Hst).
    rewrite Hes in Hans. injection Hans as Hans.
    exists (CallVad (result es)).
    unfold worker_of, _vad_worker. rewrite (worker_turn_token _ _ _ _ _ _ Hq).
    unfold vad_body. load_step. rewrite Hown. cbv beta iota.
    load_step. rewrite Hes. cbv beta iota. rewrite Hst, String.eqb_refl.
    change (after_load fp EXTRACT_AUDIO
              (after_load fp VAD_SEGMENTATION (queue_set VAD_SEGMENTATION rest w)))
      with (after_loads fp (stage_loads VAD_SEGMENTATION)
              (queue_set VAD_SEGMENTATION rest w)).
    erewrite M_bind_ok by (by apply begin_running_started).
    by rewrite bind_invoke, Hans.
  - (* Align *)
    apply andb_prop in Hup as [Hts Hau].
    apply is_completed_true in Hts as (ts & Hts & Hst).
    rewrite Hts in Hans.
    destruct (stored fp EXTRACT_AUDIO w) as [au|] eqn:Eau; [|discriminate].
    destruct (py_iter (result ts)) as [items|] eqn:Ei; simpl in Hans; [|discriminate].
    destruct (prepare_alignment items [] PyNone) as [p|] eqn:Ep; [|discriminate].
    injection Hans as Hans.
    exists (CallAligner (PyList (fst p)) (result au) (snd p)).
    unfold worker_of, _alignment_worker. rewrite (worker_turn_token _ _ _ _ _ _ Hq).
    unfold alignment_body. load_step. rewrite Hown. cbv beta iota.
    load_step. load_step. rewrite Hts, Eau. cbv beta iota. rewrite Hst, String.eqb_refl.
    change (after_load fp EXTRACT_AUDIO
              (after_load fp TRANSCRIPTION
                 (after_load fp ALIGNMENT (queue_set ALIGNMENT rest w))))
      with (after_loads fp (stage_loads ALIGNMENT) (queue_set ALIGNMENT rest w)).
    erewrite M_bind_ok by (by apply begin_running_started).
    rewrite bind_lift, Ei. cbv beta iota. rewrite bind_lift, Ep. cbv beta iota.
    by rewrite bind_invoke, Hans.
  - (* Diarize *)
    apply andb_prop in Hup as [Hen Hup].
    apply is_completed_true in Hup as (au & Hau & Hst).
    rewrite Hau in Hans. injection Hans as Hans.
    exists (CallDiarizer (result au)).
    unfold worker_of, _diarization_worker. rewrite (worker_turn_token _ _ _ _ _ _ Hq).
    unfold diarization_body. cbv zeta. rewrite Hen. cbn [negb]. cbv beta iota.
    load_step. rewrite Hown. cbv beta iota.
    load_step. rewrite Hau. cbv beta iota. rewrite Hst, String.eqb_refl.
    change (after_load fp EXTRACT_AUDIO
              (after_load fp DIARIZATION (queue_set DIARIZATION rest w)))
      with (after_loads fp (stage_loads DIARIZATION) (queue_set DIARIZATION rest w)).
    erewrite M_bind_ok by (by apply begin_running_started).
    by rewrite bind_invoke, Hans.
Qed.

Lemma trace_started (self : StreamingPipeline) (s : ProcessingStage) (fp : string)
  (rest : list (option string)) (w : world) :
  exists evs,
    trace (started self s fp rest w)
    = trace w ++ evs
        ++ (if progress_callback self then [EvProgress (running_state fp s (clock w))] else [])
    /\ forallb is_log evs = true.
Proof.
  destruct (trace_after_loads fp (stage_loads s) (queue_set s rest w)) as (evs & E & Hevs).
  exists evs. split; [|exact Hevs].
  unfold started. autorewrite with world. by rewrite E, trace_queue_set, app_assoc.
Qed.

(** X7. When the collaborator of the Extract, SegmentSpeech, Align or
    Diarize stage raises, the turn ends in the handler of the loop: the
    record of the stage stays "running", the token goes to no queue, and
    after the running record was announced nothing follows but the call and
    one error line in the log. No failed record is written and the loop
    goes on with the next token. *)
Theorem raising_collaborator_leaves_running_record (self : StreamingPipeline)
  (s : ProcessingStage) (fp : string) (rest : list (option string)) (w : world) (e : exn) :
  s ∈ [EXTRACT_AUDIO; VAD_SEGMENTATION; ALIGNMENT; DIARIZATION] ->
  queues w s = Some fp :: rest ->
  due self s fp w = true ->
  collaborator_answer self s fp w = Some (Raise e) ->
  disk_fault w (get_state_file_path fp s) = false ->
  let w' := snd (worker_of s self w) in
  fst (worker_of s self w) = Continue /\
  stored fp s w' = Some (mkState fp s "running" 0 PyNone None (clock w)) /\
  queues w' s = rest /\
  (forall q, q <> s -> queues w' q = queues w q) /\
  exists evs c,
    trace w'
    = trace w ++ evs
        ++ (if progress_callback self
            then [EvProgress (mkState fp s "running" 0 PyNone None (clock w))] else [])
        ++ [EvCall c; EvLogError (worker_message s)]
    /\ forallb is_log evs = true.
Proof.
  intros Hs Hq Hdue Hans Hd w'.
  destruct (turn_raised self s fp rest w e Hs Hq Hdue Hans Hd) as [c Hc].
  unfold w'. rewrite Hc. cbn [fst snd]. autorewrite with world.
  split; [reflexivity|]. split; [reflexivity|]. split; [reflexivity|].
  split; [intros q Hne; by apply queues_started_ne|].
  destruct (trace_started self s fp rest w) as (evs & E & Hevs).
  exists evs, c. split; [|exact Hevs].
  rewrite E. rewrite <- !app_assoc. reflexivity.
Qed.

Lemma raising_collaborator_leaves_running_record_witness :
  let w := queue_set EXTRACT_AUDIO [Some "a.mp4"] empty_world in
  let w' := snd (worker_of EXTRACT_AUDIO raising_extract_pipeline w) in
  fst (worker_of EXTRACT_AUDIO raising_extract_pipeline w) = Continue /\
  stored "a.mp4" EXTRACT_AUDIO w'
  = Some (mkState "a.mp4" EXTRACT_AUDIO "running" 0 PyNone None 0) /\
  queues w' EXTRACT_AUDIO = [] /\
  (forall q, q <> EXTRACT_AUDIO -> queues w' q = queues w q) /\
  exists evs c,
    trace w'
    = trace w ++ evs
        ++ (if progress_callback raising_extract_pipeline
            then [EvProgress (mkState "a.mp4" EXTRACT_AUDIO "running" 0 PyNone None 0)]
            else [])
        ++ [EvCall c; EvLogError (worker_message EXTRACT_AUDIO)]
    /\ forallb is_log evs = true.
Proof.
  apply (raising_collaborator_leaves_running_record raising_extract_pipeline EXTRACT_AUDIO
           "a.mp4" [] (queue_set EXTRACT_AUDIO [Some "a.mp4"] empty_world)
           (CollaboratorError "ffmpeg")).
  - apply elem_of_cons. by left.
  - reflexivity.
  - reflexivity.
  - reflexivity.
  - reflexivity.
Defined.

(** X8. The Export worker has no test of its own record: whenever the Merge
    record of the token's file is completed, it writes a completed Export
    record with the Merge result, whatever Export record the store held,
    and calls the completion callback with that result as the last thing it
    does. It puts the token on no queue. *)
Theorem export_turn_publishes_merge_result (self : StreamingPipeline) (fp : string)
  (rest : list (option string)) (w : world) (ms : ProcessingState) :
  queues w EXPORT = Some fp :: rest ->
  stored fp MERGE_SEGMENTS w = Some ms ->
  status ms = "completed" ->
  json_serializable (result ms) = true ->
  disk_fault w (get_state_file_path fp EXPORT) = false ->
  let w' := snd (_export_worker self w) in
  let state := mkState fp EXPORT "completed" 1 (result ms) None (clock w) in
  fst (_export_worker self w) = Continue /\
  stored fp EXPORT w' = Some state /\
  trace w'
  = trace w ++ (if progress_callback self then [EvProgress state] else [])
      ++ (if completion_callback self then [EvCompletion fp (result ms)] else []) /\
  queues w' EXPORT = rest /\
  (forall q, q <> EXPORT -> queues w' q = queues w q) /\
  (forall s, s <> EXPORT -> stored fp s w' = stored fp s w).
Proof.
  intros Hq Hms Hst Hj Hd w' state.
  assert (Hl : after_load fp MERGE_SEGMENTS (queue_set EXPORT rest w) = queue_set EXPORT rest w).
  { apply after_load_completed. autorewrite with world. rewrite Hms. simpl.
    by rewrite Hst. }
  assert (E : _export_worker self w
              = (Continue,
                 (if completion_callback self
                  then log_event (EvCompletion fp (result ms)) else id)
                   (notified self state (put_record state (queue_set EXPORT rest w))))).
  { unfold _export_worker. rewrite (worker_turn_token _ _ _ _ _ _ Hq).
    unfold export_body. load_step. rewrite Hms, Hl. cbv beta iota.
    rewrite Hst, String.eqb_refl. rewrite bind_time_time. autorewrite with world.
    rewrite bind_save_state_ok; [|autorewrite with world; exact Hd|exact Hj].
    rewrite bind_notify_progress. unfold notify_completion.
    by destruct (completion_callback self). }
  unfold w'. rewrite E. cbn [fst snd].
  split; [reflexivity|].
  split.
  { destruct (completion_callback self); unfold id; autorewrite with world;
      by apply stored_put_record_eq. }
  split.
  { destruct (completion_callback self); unfold id; autorewrite with world;
      rewrite <- ?app_assoc; [reflexivity|]. by rewrite app_nil_r. }
  split.
  { destruct (completion_callback self); unfold id; by autorewrite with world. }
  split.
  { intros q Hne. destruct (completion_callback self); unfold id; autorewrite with world;
      by apply queues_queue_set_ne. }
  intros s Hne. destruct (completion_callback self); unfold id; autorewrite with world;
    (rewrite stored_put_record_ne; [by autorewrite with world|reflexivity|simpl; congruence]).
Qed.

Lemma export_turn_publishes_merge_result_witness :
  let w := queue_set EXPORT [Some "a.mp4"] all_completed_world in
  let w' := snd (_export_worker demo_pipeline w) in
  let state := mkState "a.mp4" EXPORT "completed" 1 demo_merged None 0 in
  fst (_export_worker demo_pipeline w) = Continue /\
  stored "a.mp4" EXPORT w' = Some state /\
  trace w'
  = trace w ++ (if progress_callback demo_pipeline then [EvProgress state] else [])
      ++ (if completion_callback demo_pipeline then [EvCompletion "a.mp4" demo_merged] else []) /\
  queues w' EXPORT = [] /\
  (forall q, q <> EXPORT -> queues w' q = queues w q) /\
  (forall s, s <> EXPORT -> stored "a.mp4" s w' = stored "a.mp4" s w).
Proof.
  apply (export_turn_publishes_merge_result demo_pipeline "a.mp4" []
           (queue_set EXPORT [Some "a.mp4"] all_completed_world)
           (completed_record "a.mp4" MERGE_SEGMENTS demo_merged)); reflexivity.
Defined.

(** ** More about the synchronous wrapper *)

(** X9. [process_file] on a file whose Export record is already completed
    returns the result of that record at its first poll: no second goes by
    and nothing that the workers do meanwhile is waited for, although the
    call has put the file on the extraction queue once more and has written
    a new Extract record when the disk took it. *)
Theorem process_file_returns_earlier_export (fuel : nat) (others : world -> world)
  (self : StreamingPipeline) (fp : string) (w : world) (es : ProcessingState) :
  stored fp EXPORT w = Some es ->
  status es = "completed" ->
  let r := process_file (S fuel) others self fp w in
  fst r = Ok (Some (result es)) /\
  clock (snd r) = clock w /\
  queues (snd r) EXTRACT_AUDIO = queues w EXTRACT_AUDIO ++ [Some fp] /\
  (disk_fault w (get_state_file_path fp EXTRACT_AUDIO) = false ->
   stored fp EXTRACT_AUDIO (snd r)
   = Some (mkState fp EXTRACT_AUDIO "pending" 0 PyNone None (clock w))).
Proof.
  intros Hes Hst r. unfold r. rewrite process_file_unfold.
  set (pending := mkState fp EXTRACT_AUDIO "pending" 0 PyNone None (clock w)).
  assert (H : exists w0,
             snd (start_processing self fp w)
             = queue_set EXTRACT_AUDIO (queues w EXTRACT_AUDIO ++ [Some fp]) w0 /\
             stored fp EXPORT w0 = Some es /\ clock w0 = clock w /\
             queues w0 = queues w /\
             (disk_fault w (get_state_file_path fp EXTRACT_AUDIO) = false ->
              stored fp EXTRACT_AUDIO w0 = Some pending)).
  { unfold start_processing. rewrite bind_time_time. fold pending.
    destruct (disk_fault w (get_state_file_path fp EXTRACT_AUDIO)) eqn:Hd;
      [destruct (fault_after_open w (get_state_file_path fp EXTRACT_AUDIO)) eqn:Ha|].
    - rewrite bind_save_state_write_fault by assumption. unfold queue_put, modify.
      cbn [snd]. eexists. split; [reflexivity|].
      split; [|split; [reflexivity|split; [reflexivity|discriminate]]].
      rewrite stored_log_event. unfold stored, write_file; simpl.
      rewrite lookup_insert_ne by (apply get_state_file_path_ne; discriminate).
      exact Hes.
    - rewrite bind_save_state_fault by assumption. unfold queue_put, modify. cbn [snd].
      eexists. split; [by autorewrite with world|].
      split; [by autorewrite with world|]. split; [reflexivity|].
      split; [reflexivity|discriminate].
    - rewrite bind_save_state_ok; [|exact Hd|reflexivity]. unfold queue_put, modify.
      cbn [snd]. eexists. split; [by autorewrite with world|].
      split; [by autorewrite with world|]. split; [reflexivity|].
      split; [reflexivity|]. intros _. by apply stored_put_record_eq. }
  destruct H as (w0 & -> & Hes0 & Hc & Hq0 & Hpend).
  rewrite (wait_for_export_found _ _ _ _ _ es);
    [|autorewrite with world; rewrite Hc; unfold max_wait_time; lia
     |autorewrite with world; exact Hes0|exact Hst].
  cbn [fst snd]. autorewrite with world.
  split; [reflexivity|]. split; [exact Hc|]. split; [reflexivity|exact Hpend].
Qed.

Lemma process_file_returns_earlier_export_witness :
  let r := process_file 1 (fun w => w) demo_pipeline "a.mp4" all_completed_world in
  fst r = Ok (Some demo_merged) /\
  clock (snd r) = 0%Z /\
  queues (snd r) EXTRACT_AUDIO = [Some "a.mp4"] /\
  (disk_fault all_completed_world (get_state_file_path "a.mp4" EXTRACT_AUDIO) = false ->
   stored "a.mp4" EXTRACT_AUDIO (snd r)
   = Some (mkState "a.mp4" EXTRACT_AUDIO "pending" 0 PyNone None 0)).
Proof.
  apply (process_file_returns_earlier_export 0 (fun w => w) demo_pipeline "a.mp4"
           all_completed_world (completed_record "a.mp4" EXPORT demo_merged)); reflexivity.
Defined.

(** ** More about Merge *)

Lemma res_map_Forall2 {A B} (f : A -> res B) (l : list A) (l' : list B) :
  res_map f l = Ok l' -> Forall2 (fun x y => f x = Ok y) l l'.
Proof.
  revert l'. induction l as [|a l IH]; simpl; intros l' H.
  - injection H as <-. constructor.
  - destruct (f a) as [b|e] eqn:Ea; simpl in H; [|discriminate].
    destruct (res_map f l) as [bs|e] eqn:El; simpl in H; [|discriminate].
    injection H as <-. constructor; [exact Ea|by apply IH].
Qed.

Lemma res_map_raise {A B} (f : A -> res B) (l : list A) (x : A) (e : exn) :
  x ∈ l -> f x = Raise e -> exists e', res_map f l = Raise e'.
Proof.
  intros Hx Hf. induction l as [|a l IH]; [by apply elem_of_nil in Hx|].
  simpl. apply elem_of_cons in Hx as [<-|Hx].
  - rewrite Hf. by exists e.
  - destruct (f a) as [b|e1]; simpl; [|by exists e1].
    destruct (IH Hx) as [e' ->]. by exists e'.
Qed.

Lemma same_but_refl (key : string) (a : pyval) : same_but key a a.
Proof. by intros k _. Qed.

Lemma Forall2_same_but_refl (key : string) (l : list pyval) :
  Forall2 (same_but key) l l.
Proof. induction l; constructor; [apply same_but_refl|assumption]. Qed.

Lemma py_setitem_same_but (key : string) (a b x : pyval) :
  py_setitem a key x = Ok b -> same_but key a b.
Proof.
  destruct a; simpl; try discriminate. intros H. injection H as <-.
  intros k Hk. simpl. by rewrite string_dict_get_set_ne.
Qed.

Lemma assign_speaker_same_but (timeline : list (span * pyval)) (w0 w : pyval) :
  assign_speaker timeline w0 = Ok w -> same_but "speaker" w0 w.
Proof.
  unfold assign_speaker. intros H.
  destruct (word_mid_point w0) as [m|]; simpl in H; [|discriminate].
  destruct (find_speaker m timeline) as [sp|]; simpl in H; [|discriminate].
  by apply (py_setitem_same_but _ _ _ sp).
Qed.

Lemma merge_segment_same_but (timeline : list (span * pyval)) (a f : pyval) :
  merge_segment timeline a = Ok f ->
  same_but "words" a f /\ Forall2 (same_but "speaker") (words_of a) (words_of f).
Proof.
  unfold merge_segment. intros H.
  destruct (py_contains "words" a) as [[|]|] eqn:Ec; simpl in H; [| |discriminate].
  - destruct (py_getitem a "words") as [words|] eqn:Eg; simpl in H; [|discriminate].
    destruct (py_iter words) as [ws|] eqn:Ei; simpl in H; [|discriminate].
    destruct (res_map (assign_speaker timeline) ws) as [ws'|] eqn:Em; simpl in H;
      [|discriminate].
    assert (Hkeep : f = a ->
              same_but "words" a f /\ Forall2 (same_but "speaker") (words_of a) (words_of f)).
    { intros ->. split; [apply same_but_refl|apply Forall2_same_but_refl]. }
    destruct words as [| | | |l|kvs|]; try (injection H as <-; by apply Hkeep).
    split; [by apply (py_setitem_same_but _ _ _ (PyList ws'))|].
    simpl in Ei. injection Ei as ->.
    assert (Ea : words_of a = ws) by (unfold words_of; by rewrite Eg).
    assert (Ef : words_of f = ws').
    { destruct a; simpl in H; try discriminate. injection H as <-.
      unfold words_of. simpl. by rewrite string_dict_get_set_eq. }
    rewrite Ea, Ef. apply res_map_Forall2 in Em.
    eapply Forall2_impl; [exact Em|]. intros x y Hxy. by apply assign_speaker_same_but in Hxy.
  - injection H as <-. split; [apply same_but_refl|apply Forall2_same_but_refl].
Qed.

(** X10. The merge adds speakers and changes nothing else. Its result has
    one segment for each aligned segment, in the same order; a segment
    keeps the value of every key but "words", and its words are the words
    it had, in the same order, each with the value of every key but
    "speaker" as it was. *)
Theorem merge_changes_speakers_only (aligned_segments diarization_segments final : pyval)
  (asegs : list pyval) :
  perform_merge aligned_segments diarization_segments = Ok final ->
  py_iter aligned_segments = Ok asegs ->
  exists fs,
    final = PyList fs /\
    Forall2 (fun a f =>
               same_but "words" a f /\
               Forall2 (same_but "speaker") (words_of a) (words_of f))
            asegs fs.
Proof.
  unfold perform_merge. intros H Ha.
  destruct (py_iter diarization_segments) as [dsegs|]; simpl in H; [|discriminate].
  destruct (speaker_timeline dsegs []) as [timeline|]; simpl in H; [|discriminate].
  rewrite Ha in H. simpl in H.
  destruct (res_map (merge_segment timeline) asegs) as [fs|] eqn:Em; simpl in H;
    [|discriminate].
  injection H as <-. exists fs. split; [reflexivity|].
  apply res_map_Forall2 in Em. eapply Forall2_impl; [exact Em|].
  intros a f Haf. by apply (merge_segment_same_but timeline).
Qed.

Lemma merge_changes_speakers_only_witness :
  exists fs,
    demo_merged = PyList fs /\
    Forall2 (fun a f =>
               same_but "words" a f /\
               Forall2 (same_but "speaker") (words_of a) (words_of f))
            [PyDict [("text", PyStr "hi"); ("words", PyList [py_word "hi" 1 2])]] fs.
Proof.
  apply (merge_changes_speakers_only demo_aligned (PyList [py_interval 0 3 "SPEAKER_00"])
           demo_merged); reflexivity.
Defined.

(** A turn of the Merge worker in which the merge raises *)
Lemma merge_turn_raised (self : StreamingPipeline) (fp : string)
  (rest : list (option string)) (w : world) (als : ProcessingState) (e : exn) :
  queues w MERGE_SEGMENTS = Some fp :: rest ->
  is_completed (stored fp MERGE_SEGMENTS w) = false ->
  stored fp ALIGNMENT w = Some als ->
  status als = "completed" ->
  disk_fault w (get_state_file_path fp MERGE_SEGMENTS) = false ->
  perform_merge (result als) (diarization_segments_of fp w) = Raise e ->
  _merge_worker self w
  = (Continue, log_event (EvLogError (worker_message MERGE_SEGMENTS))
                 (started self MERGE_SEGMENTS fp rest w)).
Proof.
  intros Hq Hown Hals Hst Hd He.
  unfold _merge_worker. rewrite (worker_turn_token _ _ _ _ _ _ Hq).
  unfold merge_body. load_step. rewrite Hown. cbv beta iota.
  load_step. load_step. rewrite Hals. cbv beta iota. rewrite Hst, String.eqb_refl.
  change (after_load fp DIARIZATION
            (after_load fp ALIGNMENT
               (after_load fp MERGE_SEGMENTS (queue_set MERGE_SEGMENTS rest w))))
    with (after_loads fp (stage_loads MERGE_SEGMENTS) (queue_set MERGE_SEGMENTS rest w)).
  erewrite M_bind_ok by (by apply begin_running_started).
  fold (diarization_segments_of fp w). by rewrite bind_lift, He.
Qed.

Lemma merge_stops (self : StreamingPipeline) (fp : string)
  (rest : list (option string)) (w : world) (als : ProcessingState) (e : exn) :
  queues w MERGE_SEGMENTS = Some fp :: rest ->
  is_completed (stored fp MERGE_SEGMENTS w) = false ->
  stored fp ALIGNMENT w = Some als ->
  status als = "completed" ->
  disk_fault w (get_state_file_path fp MERGE_SEGMENTS) = false ->
  perform_merge (result als) (diarization_segments_of fp w) = Raise e ->
  let w' := snd (_merge_worker self w) in
  stored fp MERGE_SEGMENTS w' = Some (mkState fp MERGE_SEGMENTS "running" 0 PyNone None (clock w)) /\
  last (trace w') = Some (EvLogError "Error in merge worker") /\
  queues w' MERGE_SEGMENTS = rest /\
  forall q, q <> MERGE_SEGMENTS -> queues w' q = queues w q.
Proof.
  intros Hq Hown Hals Hst Hd He w'. unfold w'.
  rewrite (merge_turn_raised self fp rest w als e Hq Hown Hals Hst Hd He). cbn [snd].
  autorewrite with world.
  split; [reflexivity|]. split; [apply last_snoc|]. split; [reflexivity|].
  intros q Hne. by apply queues_started_ne.
Qed.

(** X11. A Diarize record without intervals in it stops the Merge of the
    file. When the store holds a Diarize record whose result is [None], as
    every failed or running Diarize record has it, a Merge worker that finds
    the Align record completed raises while it builds the speaker timeline:
    the Merge record stays "running", the error is logged and the token
    goes to no queue, so the file is never exported. The status of the
    Diarize record is not looked at. *)
Theorem merge_stops_on_diarize_record_without_result (self : StreamingPipeline)
  (fp : string) (rest : list (option string)) (w : world) (als ds : ProcessingState) :
  queues w MERGE_SEGMENTS = Some fp :: rest ->
  is_completed (stored fp MERGE_SEGMENTS w) = false ->
  stored fp ALIGNMENT w = Some als ->
  status als = "completed" ->
  stored fp DIARIZATION w = Some ds ->
  result ds = PyNone ->
  disk_fault w (get_state_file_path fp MERGE_SEGMENTS) = false ->
  let w' := snd (_merge_worker self w) in
  stored fp MERGE_SEGMENTS w' = Some (mkState fp MERGE_SEGMENTS "running" 0 PyNone None (clock w)) /\
  last (trace w') = Some (EvLogError "Error in merge worker") /\
  queues w' MERGE_SEGMENTS = rest /\
  forall q, q <> MERGE_SEGMENTS -> queues w' q = queues w q.
Proof.
  intros Hq Hown Hals Hst Hds Hr Hd.
  apply (merge_stops self fp rest w als TypeError); try assumption.
  unfold diarization_segments_of. rewrite Hds, Hr. reflexivity.
Qed.

Lemma merge_stops_on_diarize_record_without_result_witness :
  let failed := mkState "a.mp4" DIARIZATION "failed" 0 PyNone
                  (Some "Speaker diarization failed") 0 in
  let w := queue_set MERGE_SEGMENTS [Some "a.mp4"] (put_record failed aligned_world) in
  let w' := snd (_merge_worker diarization_off_pipeline w) in
  stored "a.mp4" MERGE_SEGMENTS w'
  = Some (mkState "a.mp4" MERGE_SEGMENTS "running" 0 PyNone None 0) /\
  last (trace w') = Some (EvLogError "Error in merge worker") /\
  queues w' MERGE_SEGMENTS = [] /\
  forall q, q <> MERGE_SEGMENTS -> queues w' q = queues w q.
Proof.
  apply (merge_stops_on_diarize_record_without_result diarization_off_pipeline "a.mp4" []
           (queue_set MERGE_SEGMENTS [Some "a.mp4"]
              (put_record (mkState "a.mp4" DIARIZATION "failed" 0 PyNone
                             (Some "Speaker diarization failed") 0) aligned_world))
           (completed_record "a.mp4" ALIGNMENT demo_aligned)
           (mkState "a.mp4" DIARIZATION "failed" 0 PyNone
              (Some "Speaker diarization failed") 0)); reflexivity.
Defined.

(** X12. One word without a start or an end time stops the Merge of the
    file. When a segment of the completed Align record has a list of words
    and one of them is a dict that lacks the key "start" or the key "end",
    and the stored intervals make a timeline, the Merge worker raises at
    that word: the Merge record stays "running", the error is logged and
    the token goes to no queue. *)
Theorem merge_stops_on_word_without_times (self : StreamingPipeline)
  (fp : string) (rest : list (option string)) (w : world) (als : ProcessingState)
  (asegs dsegs ws : list pyval) (timeline : list (span * pyval)) (seg : pyval)
  (kvs : list (string * pyval)) :
  queues w MERGE_SEGMENTS = Some fp :: rest ->
  is_completed (stored fp MERGE_SEGMENTS w) = false ->
  stored fp ALIGNMENT w = Some als ->
  status als = "completed" ->
  disk_fault w (get_state_file_path fp MERGE_SEGMENTS) = false ->
  py_iter (diarization_segments_of fp w) = Ok dsegs ->
  speaker_timeline dsegs [] = Ok timeline ->
  result als = PyList asegs ->
  seg ∈ asegs ->
  py_getitem seg "words" = Ok (PyList ws) ->
  PyDict kvs ∈ ws ->
  dict_has String.eqb "start" kvs && dict_has String.eqb "end" kvs = false ->
  let w' := snd (_merge_worker self w) in
  stored fp MERGE_SEGMENTS w' = Some (mkState fp MERGE_SEGMENTS "running" 0 PyNone None (clock w)) /\
  last (trace w') = Some (EvLogError "Error in merge worker") /\
  queues w' MERGE_SEGMENTS = rest /\
  forall q, q <> MERGE_SEGMENTS -> queues w' q = queues w q.
Proof.
  intros Hq Hown Hals Hst Hd Hiter Htl Hres Hseg Hwords Hword Hkeys.
  assert (Hw : exists e, assign_speaker timeline (PyDict kvs) = Raise e).
  { unfold assign_speaker, word_mid_point, py_getitem, dict_has in *.
    destruct (dict_get String.eqb "start" kvs) as [a|]; [|by exists KeyError].
    destruct (dict_get String.eqb "end" kvs) as [b|]; [discriminate Hkeys|by exists KeyError]. }
  destruct Hw as [e1 Hw].
  destruct (res_map_raise (assign_speaker timeline) ws _ e1 Hword Hw) as [e2 Hws].
  assert (Hs : exists e, merge_segment timeline seg = Raise e).
  { unfold merge_segment.
    destruct seg as [| | | | |skvs|]; simpl in Hwords; try discriminate.
    simpl. unfold dict_has.
    destruct (dict_get String.eqb "words" skvs) as [x|]; [|discriminate].
    injection Hwords as ->. simpl. rewrite Hws. simpl. by exists e2. }
  destruct Hs as [e3 Hs].
  destruct (res_map_raise (merge_segment timeline) asegs _ e3 Hseg Hs) as [e4 Hm].
  apply (merge_stops self fp rest w als e4); try assumption.
  unfold perform_merge. rewrite Hiter. simpl. rewrite Htl. simpl.
  rewrite Hres. simpl. by rewrite Hm.
Qed.

Lemma merge_stops_on_word_without_times_witness :
  let untimed := PyDict [("word", PyStr "2024")] in
  let aligned := PyList [PyDict [("text", PyStr "in 2024");
                                 ("words", PyList [py_word "in" 1 2; untimed])]] in
  let w := queue_set MERGE_SEGMENTS [Some "a.mp4"]
             (put_record (completed_record "a.mp4" ALIGNMENT aligned) empty_world) in
  let w' := snd (_merge_worker demo_pipeline w) in
  stored "a.mp4" MERGE_SEGMENTS w'
  = Some (mkState "a.mp4" MERGE_SEGMENTS "running" 0 PyNone None 0) /\
  last (trace w') = Some (EvLogError "Error in merge worker") /\
  queues w' MERGE_SEGMENTS = [] /\
  forall q, q <> MERGE_SEGMENTS -> queues w' q = queues w q.
Proof.
  apply (merge_stops_on_word_without_times demo_pipeline "a.mp4" []
           (queue_set MERGE_SEGMENTS [Some "a.mp4"]
              (put_record
                 (completed_record "a.mp4" ALIGNMENT
                    (PyList [PyDict [("text", PyStr "in 2024");
                                     ("words", PyList [py_word "in" 1 2;
                                                       PyDict [("word", PyStr "2024")]])]]))
                 empty_world))
           (completed_record "a.mp4" ALIGNMENT
              (PyList [PyDict [("text", PyStr "in 2024");
                               ("words", PyList [py_word "in" 1 2;
                                                 PyDict [("word", PyStr "2024")]])]]))
           [PyDict [("text", PyStr "in 2024");
                    ("words", PyList [py_word "in" 1 2; PyDict [("word", PyStr "2024")]])]]
           [] [py_word "in" 1 2; PyDict [("word", PyStr "2024")]] []
           (PyDict [("text", PyStr "in 2024");
                    ("words", PyList [py_word "in" 1 2; PyDict [("word", PyStr "2024")]])])
           [("word", PyStr "2024")]); try reflexivity.
  - apply elem_of_cons. by left.
  - apply elem_of_cons. right. apply elem_of_cons. by left.
Defined.

(** ** More about Transcribe *)


#[local] Hint Rewrite queues_write_file clock_write_file disk_fault_write_file
  trace_write_file : world.

Lemma complete_with_unserializable (self : StreamingPipeline) (state : ProcessingState)
  (r : pyval) (next : ProcessingStage) (w : world) :
  disk_fault w (state_file_of state) = false ->
  json_serializable r = false ->
  complete_with self state r next w
  = (Ok tt, queue_set next (queues w next ++ [Some (file_path state)])
              (notified self (completed_state state r (clock w))
                 (log_event (EvLogError ("Failed to save state for " +:+ file_path state))
                    (write_file (state_file_of state) Unparseable w)))).
Proof.
  intros Hd Hj. unfold complete_with. rewrite bind_time_time.
  rewrite bind_save_state_unserializable; [|exact Hd|exact Hj].
  rewrite bind_notify_progress. unfold queue_put, modify.
  by autorewrite with world.
Qed.

(** The loop over the sub-clips with a transcriber that returns: the
    entries of the true answers are appended in the order of the clips;
    the loop writes the Transcribe record only and puts nothing on a queue. *)
Lemma transcribe_segments_run (self : StreamingPipeline) (device fp : string)
  (answer : pyval -> pyval) (total : nat) (paths : list pyval) :
  (forall p, p ∈ paths ->
     transcribe self device p (py_or_none (settings_get self "language" PyNone))
     = Ok (answer p)) ->
  forall (i : nat) (state : ProcessingState) (acc : list pyval) (w : world),
    file_path state = fp -> stage state = TRANSCRIPTION -> result state = PyNone ->
    disk_fault w (get_state_file_path fp TRANSCRIPTION) = false ->
    exists state' w',
      transcribe_segments self device total i paths state acc w
      = (Ok (state', acc ++ kept_transcriptions answer paths), w') /\
      file_path state' = fp /\ stage state' = TRANSCRIPTION /\ error state' = error state /\
      disk_fault w' = disk_fault w /\ queues w' = queues w /\ clock w' = clock w /\
      (forall s, s <> TRANSCRIPTION -> stored fp s w' = stored fp s w).
Proof.
  intros Hans. induction paths as [|p paths IH]; intros i state acc w Hfp Hs Hr Hd.
  - exists state, w. simpl. unfold kept_transcriptions; simpl. rewrite app_nil_r.
    by repeat split.
  - set (st1 := set_progress (float_of_nat i / float_of_nat total) state).
    set (w1 := log_event
                 (EvCall (CallTranscriber device p
                            (py_or_none (settings_get self "language" PyNone))))
                 (notified self st1 (put_record st1 w))).
    set (acc1 := if py_truthy (answer p)
                 then acc ++ [PyDict [("segment_path", p); ("result", answer p)]]
                 else acc).
    destruct (IH (fun q Hq => Hans q (proj2 (elem_of_cons paths q p) (or_intror Hq))) (S i) st1 acc1 w1)
      as (state' & w' & E & H1 & H2 & H3 & H4 & H5 & H6 & H7);
      [exact Hfp|exact Hs|exact Hr|unfold w1; autorewrite with world; exact Hd|].
    exists state', w'. split.
    + cbn [transcribe_segments]. cbv zeta. fold st1.
      rewrite bind_save_state_ok;
        [|unfold state_file_of; simpl; rewrite Hfp, Hs; exact Hd|simpl; by rewrite Hr].
      rewrite bind_notify_progress. rewrite bind_invoke.
      rewrite (Hans p) by (apply elem_of_cons; by left).
      fold w1. fold acc1. rewrite E. f_equal. f_equal.
      unfold acc1, kept_transcriptions. simpl.
      destruct (py_truthy (answer p)); simpl; [|reflexivity].
      by rewrite <- app_assoc.
    + split; [exact H1|]. split; [exact H2|]. split; [exact H3|].
      split; [rewrite H4; unfold w1; by autorewrite with world|].
      split; [rewrite H5; unfold w1; by autorewrite with world|].
      split; [rewrite H6; unfold w1; by autorewrite with world|].
      intros s Hne. rewrite H7 by exact Hne. unfold w1. autorewrite with world.
      apply stored_put_record_ne; [exact Hfp|]. simpl. rewrite Hs. congruence.
Qed.

(** The entries that the Transcribe loop keeps cannot go into JSON when one
    of the answers is an object of a class. *)
Lemma kept_transcriptions_object (answer : pyval -> pyval) (paths : list pyval) (p : pyval)
  (cls : string) (fields : list (string * pyval)) :
  p ∈ paths -> answer p = PyObject cls fields ->
  json_serializable (PyList (kept_transcriptions answer paths)) = false.
Proof.
  intros Hp Ha. unfold kept_transcriptions.
  induction paths as [|q paths IH]; [by apply elem_of_nil in Hp|].
  apply elem_of_cons in Hp as [<-|Hp].
  - simpl. rewrite Ha. simpl. rewrite Ha. simpl. by rewrite andb_false_r.
  - simpl. destruct (py_truthy (answer q)); [|by apply IH].
    simpl. simpl in IH. rewrite (IH Hp). apply andb_false_r.
Qed.

(** The world after a Transcribe turn on a completed SegmentSpeech record,
    with a transcriber that returns *)
Lemma transcription_turn (self : StreamingPipeline) (device fp : string)
  (ds : list string) (rest : list (option string)) (w : world) (vs : ProcessingState)
  (paths : list pyval) (answer : pyval -> pyval) :
  gpu_devices self = device :: ds ->
  queues w TRANSCRIPTION = Some fp :: rest ->
  is_completed (stored fp TRANSCRIPTION w) = false ->
  stored fp VAD_SEGMENTATION w = Some vs ->
  status vs = "completed" ->
  result vs = PyList paths ->
  (forall p, p ∈ paths ->
     transcribe self device p (py_or_none (settings_get self "language" PyNone))
     = Ok (answer p)) ->
  disk_fault w (get_state_file_path fp TRANSCRIPTION) = false ->
  let r := PyList (kept_transcriptions answer paths) in
  let completed := mkState fp TRANSCRIPTION "completed" 1 r None (clock w) in
  exists w2,
    _transcription_worker self w
    = (Continue,
       queue_set ALIGNMENT (queues w ALIGNMENT ++ [Some fp])
         (notified self completed
            (if json_serializable r then put_record completed w2
             else log_event (EvLogError ("Failed to save state for " +:+ fp))
                    (write_file (get_state_file_path fp TRANSCRIPTION) Unparseable w2))))
    /\ queues w2 TRANSCRIPTION = rest
    /\ (forall q, q <> TRANSCRIPTION -> queues w2 q = queues w q)
    /\ clock w2 = clock w
    /\ disk_fault w2 = disk_fault w
    /\ (forall s, s <> TRANSCRIPTION -> stored fp s w2 = stored fp s w).
Proof.
  intros Hdev Hq Hown Hvs Hst Hres Hans Hd r completed.
  destruct (transcribe_segments_run self device fp answer (length paths) paths Hans 0
              (running_state fp TRANSCRIPTION (clock w)) []
              (started self TRANSCRIPTION fp rest w))
    as (state' & w2 & E & H1 & H2 & H3 & H4 & H5 & H6 & H7);
    [reflexivity|reflexivity|reflexivity|autorewrite with world; exact Hd|].
  assert (Hc : completed_state state' r (clock w) = completed).
  { unfold completed_state, completed, set_timestamp, set_result, set_progress, set_status.
    simpl. by rewrite H1, H2, H3. }
  assert (Hfile : state_file_of state' = get_state_file_path fp TRANSCRIPTION)
    by (unfold state_file_of; by rewrite H1, H2).
  assert (Hclock : clock w2 = clock w) by (rewrite H6; by autorewrite with world).
  assert (Hd2 : disk_fault w2 = disk_fault w) by (rewrite H4; by autorewrite with world).
  assert (Hqa : queues w2 ALIGNMENT = queues w ALIGNMENT)
    by (rewrite H5; by apply queues_started_ne).
  exists w2. split.
  - unfold _transcription_worker, transcription_worker_device. rewrite Hdev.
    rewrite (worker_turn_token _ _ _ _ _ _ Hq).
    unfold transcription_body. load_step. rewrite Hown. cbv beta iota.
    load_step. rewrite Hvs. cbv beta iota. rewrite Hst, String.eqb_refl.
    change (after_load fp VAD_SEGMENTATION
              (after_load fp TRANSCRIPTION (queue_set TRANSCRIPTION rest w)))
      with (after_loads fp (stage_loads TRANSCRIPTION) (queue_set TRANSCRIPTION rest w)).
    erewrite M_bind_ok by (by apply begin_running_started).
    rewrite Hres. rewrite bind_lift. cbn [py_len]. cbv beta iota.
    rewrite bind_lift. cbn [py_iter]. cbv beta iota.
    erewrite M_bind_ok by exact E. cbn [fst snd app]. fold r.
    destruct (json_serializable r) eqn:Hj.
    + rewrite complete_with_ok; [|rewrite Hfile, Hd2; exact Hd|exact Hj].
      by rewrite Hclock, Hc, H1, Hqa.
    + rewrite complete_with_unserializable; [|rewrite Hfile, Hd2; exact Hd|exact Hj].
      by rewrite Hclock, Hc, H1, Hfile, Hqa.
  - split; [rewrite H5; by autorewrite with world|].
    split; [intros q Hne; rewrite H5; by apply queues_started_ne|].
    split; [exact Hclock|]. split; [exact Hd2|].
    intros s Hne. rewrite H7 by exact Hne. by apply stored_started_ne.
Qed.

(** X13. The Transcribe stage has no failure branch. With a transcriber
    that returns for every sub-clip of the completed SegmentSpeech record,
    the worker keeps an entry for each clip whose answer is true, in the
    order of the clips, leaves the other clips out, announces a completed
    record with these entries and forwards the token to the alignment
    queue. The record is stored when JSON can hold the entries; when it
    cannot, the stage is still announced as completed and the token is
    still forwarded, but the store holds no Transcribe record. *)
Theorem transcription_keeps_true_answers (self : StreamingPipeline) (device fp : string)
  (ds : list string) (rest : list (option string)) (w : world) (vs : ProcessingState)
  (paths : list pyval) (answer : pyval -> pyval) :
  gpu_devices self = device :: ds ->
  queues w TRANSCRIPTION = Some fp :: rest ->
  is_completed (stored fp TRANSCRIPTION w) = false ->
  stored fp VAD_SEGMENTATION w = Some vs ->
  status vs = "completed" ->
  result vs = PyList paths ->
  (forall p, p ∈ paths ->
     transcribe self device p (py_or_none (settings_get self "language" PyNone))
     = Ok (answer p)) ->
  disk_fault w (get_state_file_path fp TRANSCRIPTION) = false ->
  let w' := snd (_transcription_worker self w) in
  let r := PyList (kept_transcriptions answer paths) in
  let completed := mkState fp TRANSCRIPTION "completed" 1 r None (clock w) in
  fst (_transcription_worker self w) = Continue /\
  queues w' TRANSCRIPTION = rest /\
  queues w' ALIGNMENT = queues w ALIGNMENT ++ [Some fp] /\
  (progress_callback self = true -> last (trace w') = Some (EvProgress completed)) /\
  (json_serializable r = true -> stored fp TRANSCRIPTION w' = Some completed) /\
  (json_serializable r = false -> stored fp TRANSCRIPTION w' = None) /\
  (forall s, s <> TRANSCRIPTION -> stored fp s w' = stored fp s w).
Proof.
  intros Hdev Hq Hown Hvs Hst Hres Hans Hd w' r completed.
  destruct (transcription_turn self device fp ds rest w vs paths answer
              Hdev Hq Hown Hvs Hst Hres Hans Hd)
    as (w2 & E & Hq2 & Hqo & Hc2 & Hd2 & Hs2).
  unfold w'. rewrite E. cbn [fst snd]. fold r. fold completed.
  split; [reflexivity|].
  split.
  { rewrite queues_queue_set_ne by discriminate. rewrite queues_notified.
    destruct (json_serializable r); by autorewrite with world. }
  split; [apply queues_queue_set_eq|].
  split; [intros Hcb; autorewrite with world; rewrite Hcb; apply last_snoc|].
  split.
  { intros ->. autorewrite with world. by apply stored_put_record_eq. }
  split.
  { intros ->. autorewrite with world. apply stored_unparseable. }
  intros s Hne. autorewrite with world. destruct (json_serializable r).
  - rewrite stored_put_record_ne; [by apply Hs2|reflexivity|simpl; congruence].
  - autorewrite with world. unfold stored at 1, write_file; simpl.
    rewrite lookup_insert_ne by (by apply get_state_file_path_ne).
    by apply Hs2.
Qed.

Lemma transcription_keeps_true_answers_witness :
  let w := segmented_world TRANSCRIPTION in
  let answer := fun p => match p with PyStr "segments/segment_0000.wav" => PyNone
                                   | _ => PyDict [("language", PyStr "en")] end in
  let paths := [PyStr "segments/segment_0000.wav"; PyStr "segments/segment_0001.wav"] in
  let self := with_transcribe (fun _ p _ => Ok (answer p)) demo_pipeline in
  let w0 := put_record (completed_record "a.mp4" VAD_SEGMENTATION (PyList paths)) w in
  let w' := snd (_transcription_worker self w0) in
  let r := PyList [PyDict [("segment_path", PyStr "segments/segment_0001.wav");
                           ("result", PyDict [("language", PyStr "en")])]] in
  let completed := mkState "a.mp4" TRANSCRIPTION "completed" 1 r None 0 in
  fst (_transcription_worker self w0) = Continue /\
  queues w' TRANSCRIPTION = [] /\
  queues w' ALIGNMENT = queues w0 ALIGNMENT ++ [Some "a.mp4"] /\
  (progress_callback self = true -> last (trace w') = Some (EvProgress completed)) /\
  (json_serializable r = true -> stored "a.mp4" TRANSCRIPTION w' = Some completed) /\
  (json_serializable r = false -> stored "a.mp4" TRANSCRIPTION w' = None) /\
  (forall s, s <> TRANSCRIPTION -> stored "a.mp4" s w' = stored "a.mp4" s w0).
Proof.
  intros w answer paths self w0.
  apply (transcription_keeps_true_answers self "cuda:0" "a.mp4" ["cuda:1"] [] w0
           (completed_record "a.mp4" VAD_SEGMENTATION (PyList paths)) paths answer);
    try reflexivity.
Defined.

(** X14. A transcriber whose answers are objects of a class stalls the file
    between Transcribe and Align. When the answer for one of the sub-clips
    is such an object, the Transcribe worker announces the stage as
    completed and forwards the token, but the record cannot be written; the
    Align worker that takes the token next finds no Transcribe record,
    logs that the transcription is missing and drops the token. No Align
    record is written and nothing is left on the alignment or the
    diarization queue for the file. *)
Theorem object_answers_stall_before_alignment (self : StreamingPipeline)
  (device fp : string) (ds : list string) (rest : list (option string)) (w : world)
  (vs : ProcessingState) (paths : list pyval) (answer : pyval -> pyval) (p : pyval)
  (cls : string) (fields : list (string * pyval)) :
  gpu_devices self = device :: ds ->
  queues w TRANSCRIPTION = Some fp :: rest ->
  queues w ALIGNMENT = [] ->
  is_completed (stored fp TRANSCRIPTION w) = false ->
  is_completed (stored fp ALIGNMENT w) = false ->
  stored fp VAD_SEGMENTATION w = Some vs ->
  status vs = "completed" ->
  result vs = PyList paths ->
  (forall p, p ∈ paths ->
     transcribe self device p (py_or_none (settings_get self "language" PyNone))
     = Ok (answer p)) ->
  p ∈ paths ->
  answer p = PyObject cls fields ->
  disk_fault w (get_state_file_path fp TRANSCRIPTION) = false ->
  let w1 := snd (_transcription_worker self w) in
  let w2 := snd (_alignment_worker self w1) in
  (progress_callback self = true ->
   exists st, last (trace w1) = Some (EvProgress st) /\
              stage st = TRANSCRIPTION /\ status st = "completed") /\
  queues w1 ALIGNMENT = [Some fp] /\
  stored fp TRANSCRIPTION w2 = None /\
  stored fp ALIGNMENT w2 = stored fp ALIGNMENT w /\
  queues w2 ALIGNMENT = [] /\
  queues w2 DIARIZATION = queues w DIARIZATION /\
  last (trace w2) = Some (EvLogError ("Missing or incomplete transcription for " +:+ fp)).
Proof.
  intros Hdev Hq Hqa Hown Hal Hvs Hst Hres Hans Hp Hobj Hd w1 w2.
  destruct (transcription_turn self device fp ds rest w vs paths answer
              Hdev Hq Hown Hvs Hst Hres Hans Hd)
    as (w0 & E & Hq2 & Hqo & Hc2 & Hd2 & Hs2).
  rewrite (kept_transcriptions_object answer paths p cls fields Hp Hobj) in E.
  rewrite Hqa in E. simpl app in E.
  assert (E1 : w1 = snd (_transcription_worker self w)) by reflexivity.
  rewrite E in E1. cbn [snd] in E1.
  assert (Hq1 : queues w1 ALIGNMENT = [Some fp]) by (rewrite E1; apply queues_queue_set_eq).
  assert (Ht1 : stored fp TRANSCRIPTION w1 = None).
  { rewrite E1. autorewrite with world. apply stored_unparseable. }
  assert (Ha1 : stored fp ALIGNMENT w1 = stored fp ALIGNMENT w).
  { rewrite E1. autorewrite with world. unfold stored at 1, write_file; simpl.
    rewrite lookup_insert_ne by (by apply get_state_file_path_ne).
    by apply Hs2. }
  assert (Hqd : queues w1 DIARIZATION = queues w DIARIZATION).
  { rewrite E1. rewrite queues_queue_set_ne by discriminate. autorewrite with world.
    by apply Hqo. }
  assert (E2 : _alignment_worker self w1
               = (Continue, log_event (EvLogError (missing_message ALIGNMENT fp))
                              (after_loads fp (stage_loads ALIGNMENT)
                                 (queue_set ALIGNMENT [] w1)))).
  { apply (turn_starved self ALIGNMENT fp [] w1 Hq1).
    - intros _. by rewrite Ha1.
    - discriminate.
    - discriminate.
    - simpl. by rewrite Ht1. }
  split.
  { intros Hcb. eexists. split; [|split].
    - rewrite E1. autorewrite with world. rewrite Hcb. apply last_snoc.
    - reflexivity.
    - reflexivity. }
  split; [exact Hq1|].
  unfold w2. rewrite E2. cbn [snd]. autorewrite with world.
  split; [exact Ht1|]. split; [exact Ha1|]. split; [reflexivity|].
  split; [exact Hqd|].
  apply last_snoc.
Qed.

Lemma object_answers_stall_before_alignment_witness :
  let answer := fun _ : pyval =>
                  PyObject "TranscriptionResult"
                    [("segments", PyList []); ("language", PyStr "en");
                     ("language_probability", PyNum 1)] in
  let self := with_transcribe (fun _ p _ => Ok (answer p)) demo_pipeline in
  let w := segmented_world TRANSCRIPTION in
  let w1 := snd (_transcription_worker self w) in
  let w2 := snd (_alignment_worker self w1) in
  (progress_callback self = true ->
   exists st, last (trace w1) = Some (EvProgress st) /\
              stage st = TRANSCRIPTION /\ status st = "completed") /\
  queues w1 ALIGNMENT = [Some "a.mp4"] /\
  stored "a.mp4" TRANSCRIPTION w2 = None /\
  stored "a.mp4" ALIGNMENT w2 = stored "a.mp4" ALIGNMENT w /\
  queues w2 ALIGNMENT = [] /\
  queues w2 DIARIZATION = queues w DIARIZATION /\
  last (trace w2) = Some (EvLogError "Missing or incomplete transcription for a.mp4").
Proof.
  intros answer self w.
  apply (object_answers_stall_before_alignment self "cuda:0" "a.mp4" ["cuda:1"] [] w
           (completed_record "a.mp4" VAD_SEGMENTATION
              (PyList [PyStr "segments/segment_0000.wav"]))
           [PyStr "segments/segment_0000.wav"] answer (PyStr "segments/segment_0000.wav")
           "TranscriptionResult"
           [("segments", PyList []); ("language", PyStr "en");
            ("language_probability", PyNum 1)]); try reflexivity.
  apply elem_of_cons. by left.
Defined.

(** ** Records as dictionaries *)

Lemma stage_of_value_stage_value (s : ProcessingStage) :
  stage_of_value (PyStr (stage_value s)) = Some s.
Proof. by destruct s. Qed.

Lemma stage_of_value_Some (v : pyval) (s : ProcessingStage) :
  stage_of_value v = Some s -> v = PyStr (stage_value s).
Proof.
  destruct v as [| | |str| | |]; unfold stage_of_value; cbv beta iota; try discriminate.
  intros H. apply find_some in H as [_ H]. apply String.eqb_eq in H. by rewrite H.
Qed.

Lemma existsb_eqb_elem (k : string) (l : list string) :
  existsb (String.eqb k) l = true <-> k ∈ l.
Proof.
  rewrite existsb_exists. split.
  - intros (x & Hx & E). apply String.eqb_eq in E. subst x. by apply list_elem_of_In.
  - intros H. exists k. split; [by apply list_elem_of_In|apply String.eqb_refl].
Qed.

(** X15. [from_dict] undoes [to_dict]: the dict of a record gives back an
    object with the values of the seven fields of the record, the stage as
    the enum member. The dict is one that JSON can hold exactly when the
    result of the record is: the other six values are strings, floats or
    [None]. *)
Theorem from_dict_undoes_to_dict (st : ProcessingState) :
  from_dict (to_dict st) = inr (object_of st) /\
  json_serializable (PyDict (to_dict st)) = json_serializable (result st).
Proof.
  split.
  - unfold from_dict, to_dict. cbn [dict_get String.eqb Ascii.eqb Bool.eqb].
    rewrite stage_of_value_stage_value. reflexivity.
  - unfold to_dict. cbn [json_serializable forallb]. destruct (error st); simpl;
      by rewrite andb_true_r.
Qed.

(** X16. [from_dict] gives an object exactly for the dicts that name a
    stage under "stage", have "file_path", "status" and "progress", and
    have no key that is not one of the seven fields. The object has the
    values of the dict, the stage as the enum member, and [None], [None]
    and [0.0] for a "result", an "error" and a "timestamp" that the dict
    does not have. *)
Theorem from_dict_succeeds_iff (data : list (string * pyval)) (o : StateObject) :
  from_dict data = inr o <->
  dict_get String.eqb "stage" data = Some (PyStr (stage_value (o_stage o))) /\
  Forall (fun kv => fst kv ∈ field_names) data /\
  dict_get String.eqb "file_path" data = Some (o_file_path o) /\
  dict_get String.eqb "status" data = Some (o_status o) /\
  dict_get String.eqb "progress" data = Some (o_progress o) /\
  o_result o = default PyNone (dict_get String.eqb "result" data) /\
  o_error o = default PyNone (dict_get String.eqb "error" data) /\
  o_timestamp o = default (PyNum 0) (dict_get String.eqb "timestamp" data).
Proof.
  unfold from_dict. split.
  - destruct (dict_get String.eqb "stage" data) as [v|] eqn:Ev; [|discriminate].
    destruct (stage_of_value v) as [s|] eqn:Es; [|discriminate].
    apply stage_of_value_Some in Es. subst v.
    destruct (List.find _ data) as [kv|] eqn:Ef; [discriminate|].
    unfold required_fields, dict_has. cbn [List.filter].
    destruct (dict_get String.eqb "file_path" data) as [fp|]; [|discriminate].
    destruct (dict_get String.eqb "status" data) as [stt|]; [|discriminate].
    destruct (dict_get String.eqb "progress" data) as [pr|]; [|discriminate].
    cbn. intros H. injection H as <-. cbn.
    split; [reflexivity|]. split; [|by repeat split].
    apply Forall_forall. intros kv Hkv.
    pose proof (find_none _ _ Ef kv (proj1 (list_elem_of_In _ _) Hkv)) as Hn.
    apply negb_false_iff in Hn. by apply existsb_eqb_elem in Hn.
  - intros (Hs & Hall & Hfp & Hst & Hpr & Hr & He & Ht).
    rewrite Hs, stage_of_value_stage_value.
    assert (Ef : List.find (fun kv => negb (existsb (String.eqb (fst kv)) field_names)) data
                 = None).
    { destruct (List.find _ data) as [kv|] eqn:Ef; [|reflexivity].
      apply find_some in Ef as [Hin Hn]. apply negb_true_iff in Hn.
      rewrite Forall_forall in Hall.
      apply list_elem_of_In in Hin.
      apply Hall, existsb_eqb_elem in Hin. congruence. }
    rewrite Ef. unfold required_fields, dict_has. cbn [List.filter].
    rewrite Hfp, Hst, Hpr. cbn. rewrite <- Hr, <- He, <- Ht. by destruct o.
Qed.

(** ** Devices and shutdown *)

(** X17. The device list that [__init__] keeps is never empty: without any
    device given, or with an empty list, it is ["cuda:0"] on a machine with
    CUDA, and on a machine without CUDA it is ["cpu"] whatever list was
    given. So [start_workers] always starts a transcription thread, and the
    [gpu_devices[0]] with which each transcription thread begins never
    raises. *)
Theorem init_gpu_devices_never_empty (self : StreamingPipeline)
  (given : option (list string)) (_has_cuda : bool) :
  gpu_devices self = init_gpu_devices given _has_cuda ->
  (exists device, transcription_worker_device self = Ok device) /\
  (1 <= threads_of self TRANSCRIPTION)%nat /\
  (_has_cuda = false -> gpu_devices self = ["cpu"]) /\
  (_has_cuda = true -> (given = None \/ given = Some []) -> gpu_devices self = ["cuda:0"]) /\
  (_has_cuda = true -> forall d ds, given = Some (d :: ds) -> gpu_devices self = d :: ds).
Proof.
  intros H.
  assert (Hne : exists d ds, gpu_devices self = d :: ds).
  { rewrite H. unfold init_gpu_devices. destruct _has_cuda; [|by eexists _, _].
    destruct given as [[|d ds]|]; by eexists _, _. }
  destruct Hne as (d & ds & E).
  split; [exists d; unfold transcription_worker_device; by rewrite E|].
  split.
  { unfold threads_of. rewrite filter_transcription_threads, E. simpl. lia. }
  split; [intros ->; exact H|].
  split.
  - intros -> [->| ->]; exact H.
  - intros -> d' ds' ->. exact H.
Qed.

Lemma init_gpu_devices_never_empty_witness :
  (exists device, transcription_worker_device demo_pipeline = Ok device) /\
  (1 <= threads_of demo_pipeline TRANSCRIPTION)%nat /\
  (true = false -> gpu_devices demo_pipeline = ["cpu"]) /\
  (true = true -> (Some ["cuda:0"; "cuda:1"] = None \/ Some ["cuda:0"; "cuda:1"] = Some []) ->
   gpu_devices demo_pipeline = ["cuda:0"]) /\
  (true = true -> forall d ds, Some ["cuda:0"; "cuda:1"] = Some (d :: ds) ->
                               gpu_devices demo_pipeline = d :: ds).
Proof.
  apply (init_gpu_devices_never_empty demo_pipeline (Some ["cuda:0"; "cuda:1"]) true).
  reflexivity.
Defined.

Lemma put_signals (q : ProcessingStage) (n a : nat) (w : world) :
  exists w',
    fold_right (fun _ more => (do queue_put q None ;; more)%M) (M_ret tt) (seq a n) w
    = (Ok tt, w') /\
    states_dir w' = states_dir w /\ trace w' = trace w /\ clock w' = clock w /\
    queues w' q = queues w q ++ repeat None n /\
    forall q', q' <> q -> queues w' q' = queues w q'.
Proof.
  revert a w. induction n as [|n IH]; intros a w.
  - exists w. simpl. rewrite app_nil_r. by repeat split.
  - destruct (IH (S a) (queue_set q (queues w q ++ [None]) w))
      as (w' & E & H1 & H2 & H3 & H4 & H5).
    exists w'. split; [exact E|].
    split; [exact H1|]. split; [exact H2|]. split; [exact H3|].
    split.
    + rewrite H4, queues_queue_set_eq. by rewrite <- app_assoc.
    + intros q' Hne. rewrite H5 by exact Hne. by apply queues_queue_set_ne.
Qed.

Lemma threads_of_cases (self : StreamingPipeline) (s : ProcessingStage) :
  threads_of self s
  = match s with
    | EXTRACT_AUDIO | VAD_SEGMENTATION => Z.to_nat (Z.min 2 (max_workers self))
    | TRANSCRIPTION => length (gpu_devices self)
    | _ => 1%nat
    end.
Proof.
  assert (Hrep : forall (t : ProcessingStage) n,
             length (List.filter (fun x => bool_decide (x = s)) (repeat t n))
             = if bool_decide (t = s) then n else 0%nat).
  { intros t n. induction n as [|n IH]; simpl; [by destruct (bool_decide (t = s))|].
    destruct (bool_decide (t = s)); simpl; [by rewrite IH|exact IH]. }
  assert (Hmap : forall (l : list string),
             length (List.filter (fun x => bool_decide (x = s))
                       (map (fun _ => TRANSCRIPTION) l))
             = if bool_decide (TRANSCRIPTION = s) then length l else 0%nat).
  { intros l. induction l as [|d l IH]; simpl; [by destruct (bool_decide (TRANSCRIPTION = s))|].
    destruct (bool_decide (TRANSCRIPTION = s)); simpl; [by rewrite IH|exact IH]. }
  unfold threads_of, start_workers. cbv zeta.
  rewrite !List.filter_app, !length_app, !Hrep, Hmap.
  destruct s; simpl; lia.
Qed.

(** X18. [stop_workers] puts [max_workers * 2] shutdown signals at the end
    of each of the seven queues, behind the tokens that wait there, and
    changes nothing else. Every thread that [start_workers] started has a
    signal of its own on its queue exactly when [max_workers] is at least 1
    and there are no more than [max_workers * 2] devices: with more
    devices some transcription threads never get a signal, and with
    [max_workers] below 1 no thread does. *)
Theorem stop_workers_signals (self : StreamingPipeline) (w : world) :
  let n := Z.to_nat (max_workers self * 2) in
  let w' := snd (stop_workers self w) in
  fst (stop_workers self w) = Ok tt /\
  states_dir w' = states_dir w /\
  trace w' = trace w /\
  (forall q, queues w' q = queues w q ++ repeat None n) /\
  ((forall s, (threads_of self s <= n)%nat) <->
   (1 <= max_workers self)%Z /\ (length (gpu_devices self) <= n)%nat).
Proof.
  intros n w'.
  assert (H : exists w1, stop_workers self w = (Ok tt, w1) /\
                         states_dir w1 = states_dir w /\ trace w1 = trace w /\
                         forall q, queues w1 q = queues w q ++ repeat None n).
  { unfold stop_workers, all_stages. cbn [fold_right]. fold n.
    destruct (put_signals EXTRACT_AUDIO n 0 w) as (w1 & E1 & S1 & T1 & _ & Q1 & O1).
    destruct (put_signals VAD_SEGMENTATION n 0 w1) as (w2 & E2 & S2 & T2 & _ & Q2 & O2).
    destruct (put_signals TRANSCRIPTION n 0 w2) as (w3 & E3 & S3 & T3 & _ & Q3 & O3).
    destruct (put_signals ALIGNMENT n 0 w3) as (w4 & E4 & S4 & T4 & _ & Q4 & O4).
    destruct (put_signals DIARIZATION n 0 w4) as (w5 & E5 & S5 & T5 & _ & Q5 & O5).
    destruct (put_signals MERGE_SEGMENTS n 0 w5) as (w6 & E6 & S6 & T6 & _ & Q6 & O6).
    destruct (put_signals EXPORT n 0 w6) as (w7 & E7 & S7 & T7 & _ & Q7 & O7).
    exists w7. split.
    { rewrite (M_bind_ok _ _ _ _ _ E1), (M_bind_ok _ _ _ _ _ E2), (M_bind_ok _ _ _ _ _ E3),
        (M_bind_ok _ _ _ _ _ E4), (M_bind_ok _ _ _ _ _ E5), (M_bind_ok _ _ _ _ _ E6),
        (M_bind_ok _ _ _ _ _ E7). reflexivity. }
    split; [congruence|]. split; [congruence|].
    intros q. destruct q.
    - rewrite O7, O6, O5, O4, O3, O2 by discriminate. exact Q1.
    - rewrite O7, O6, O5, O4, O3 by discriminate. rewrite Q2. by rewrite O1 by discriminate.
    - rewrite O7, O6, O5, O4 by discriminate. rewrite Q3. by rewrite O2, O1 by discriminate.
    - rewrite O7, O6, O5 by discriminate. rewrite Q4. by rewrite O3, O2, O1 by discriminate.
    - rewrite O7, O6 by discriminate. rewrite Q5. by rewrite O4, O3, O2, O1 by discriminate.
    - rewrite O7 by discriminate. rewrite Q6. by rewrite O5, O4, O3, O2, O1 by discriminate.
    - rewrite Q7. by rewrite O6, O5, O4, O3, O2, O1 by discriminate. }
  destruct H as (w1 & E & Hs & Ht & Hq).
  unfold w'. rewrite E. cbn [fst snd].
  split; [reflexivity|]. split; [exact Hs|]. split; [exact Ht|]. split; [exact Hq|].
  split.
  - intros Hall. pose proof (Hall ALIGNMENT) as Ha. pose proof (Hall TRANSCRIPTION) as Htr.
    rewrite threads_of_cases in Ha, Htr. split; [|exact Htr]. unfold n in Ha. lia.
  - intros [Hm Hg] s. rewrite threads_of_cases. destruct s; unfold n in *; lia.
Qed.

(** ** The preprocessor behind the Extract stage *)





(** ** What a turn can touch *)

Lemma writes_only_bind {A B} (name : string) (P : A -> Prop) (m : M A) (k : A -> M B) :
  writes_only name m -> returns P m -> (forall a, P a -> writes_only name (k a)) ->
  writes_only name (M_bind m k).
Proof.
  intros Hm Hp Hk w n Hn. specialize (Hm w n Hn). specialize (Hp w).
  unfold M_bind. destruct (m w) as [[a|e] w1]; simpl in *; [|exact Hm].
  rewrite (Hk a (Hp a eq_refl) w1 n Hn). exact Hm.
Qed.

Lemma writes_only_seq {A B} (name : string) (m : M A) (k : A -> M B) :
  writes_only name m -> (forall a, writes_only name (k a)) ->
  writes_only name (M_bind m k).
Proof.
  intros Hm Hk. apply (writes_only_bind name (fun _ => True) m k Hm); [done|].
  intros a _. apply Hk.
Qed.

Lemma writes_only_pure {A} (name : string) (m : M A) :
  (forall w, states_dir (snd (m w)) = states_dir w) -> writes_only name m.
Proof. intros H w n _. by rewrite H. Qed.

Lemma writes_only_ret {A} (name : string) (a : A) : writes_only name (M_ret a).
Proof. by apply writes_only_pure. Qed.
Lemma writes_only_time_time (name : string) : writes_only name time_time.
Proof. by apply writes_only_pure. Qed.
Lemma writes_only_lift {A} (name : string) (r : res A) : writes_only name (lift r).
Proof. by apply writes_only_pure. Qed.
Lemma writes_only_emit (name : string) (e : event) : writes_only name (emit e).
Proof. by apply writes_only_pure. Qed.
Lemma writes_only_logger_error (name msg : string) : writes_only name (logger_error msg).
Proof. by apply writes_only_pure. Qed.
Lemma writes_only_queue_put (name : string) q x : writes_only name (queue_put q x).
Proof. by apply writes_only_pure. Qed.
Lemma writes_only_invoke (name : string) c r : writes_only name (invoke c r).
Proof. apply writes_only_pure. intros w. unfold invoke, M_bind, emit, modify, lift. by destruct r. Qed.
Lemma writes_only_notify_progress (name : string) self st :
  writes_only name (notify_progress self st).
Proof. apply writes_only_pure. intros w. unfold notify_progress. by destruct (progress_callback self). Qed.
Lemma writes_only_notify_completion (name : string) self fp r :
  writes_only name (notify_completion self fp r).
Proof.
  apply writes_only_pure. intros w. unfold notify_completion.
  by destruct (completion_callback self).
Qed.
Lemma writes_only_load_state (name : string) fp s : writes_only name (load_state fp s).
Proof. apply writes_only_pure. intros w. by rewrite load_state_spec. Qed.

Lemma writes_only_save_state (st : ProcessingState) :
  writes_only (state_file_of st) (save_state st).
Proof.
  intros w n Hn.
  destruct (save_state_run st w) as [E|[E|E]]; rewrite E; cbn [snd];
    unfold put_record, log_event, write_file; simpl; fold (state_file_of st);
    rewrite ?lookup_insert_ne by done; reflexivity.
Qed.

Lemma writes_only_begin_running self fp s :
  writes_only (get_state_file_path fp s) (begin_running self fp s).
Proof.
  unfold begin_running. apply writes_only_seq; [apply writes_only_time_time|]. intros t.
  apply writes_only_seq; [apply (writes_only_save_state (running_state fp s t))|]. intros _.
  apply writes_only_seq; [apply writes_only_notify_progress|]. intros _.
  apply writes_only_ret.
Qed.

Lemma returns_begin_running self fp s :
  returns (fun st => state_file_of st = get_state_file_path fp s) (begin_running self fp s).
Proof.
  intros w a. unfold begin_running. rewrite bind_time_time.
  unfold M_bind. pose proof (save_state_returns (running_state fp s (clock w)) w) as H.
  destruct (save_state (running_state fp s (clock w)) w) as [[u|e] w1]; simpl in H;
    [|discriminate].
  rewrite notify_progress_run. simpl. intros E. by injection E as <-.
Qed.

Lemma writes_only_complete_with self state r next :
  writes_only (state_file_of state) (complete_with self state r next).
Proof.
  unfold complete_with. apply writes_only_seq; [apply writes_only_time_time|]. intros t.
  apply writes_only_seq.
  { apply (writes_only_save_state
             (set_timestamp t (set_result r (set_progress 1 (set_status "completed" state))))). }
  intros _. apply writes_only_seq; [apply writes_only_notify_progress|]. intros _.
  apply writes_only_queue_put.
Qed.

Lemma writes_only_fail_with self state err :
  writes_only (state_file_of state) (fail_with self state err).
Proof.
  unfold fail_with. apply writes_only_seq; [apply writes_only_time_time|]. intros t.
  apply writes_only_seq.
  { apply (writes_only_save_state (set_timestamp t (set_error err (set_status "failed" state)))). }
  intros _. apply writes_only_notify_progress.
Qed.

Lemma transcribe_segments_frame self device total (paths : list pyval) :
  forall i state acc,
    writes_only (state_file_of state)
      (transcribe_segments self device total i paths state acc) /\
    returns (fun p => state_file_of (fst p) = state_file_of state)
      (transcribe_segments self device total i paths state acc).
Proof.
  induction paths as [|p paths IH]; intros i state acc.
  - split; [apply writes_only_ret|]. intros w a E. by injection E as <-.
  - cbn [transcribe_segments]. cbv zeta.
    set (st1 := set_progress (float_of_nat i / float_of_nat total) state).
    split.
    + apply writes_only_seq; [apply (writes_only_save_state st1)|]. intros _.
      apply writes_only_seq; [apply writes_only_notify_progress|]. intros _.
      apply writes_only_seq; [apply writes_only_invoke|]. intros r.
      apply (IH (S i) st1).
    + intros w a. unfold M_bind.
      destruct (save_state st1 w) as [[u|e] w1]; simpl; [|discriminate].
      rewrite notify_progress_run.
      destruct (transcribe self device p _) as [r0|e0]; simpl; [|discriminate].
      intros E. exact (proj2 (IH (S i) st1 _) _ a E).
Qed.

Ltac frame_step :=
  first
    [ apply writes_only_ret | apply writes_only_load_state | apply writes_only_queue_put
    | apply writes_only_logger_error | apply writes_only_lift | apply writes_only_invoke
    | apply writes_only_notify_progress | apply writes_only_notify_completion
    | apply writes_only_time_time
    | match goal with
      | |- writes_only _ (if ?b then _ else _) => destruct b
      | |- writes_only _ (match ?x with _ => _ end) => destruct x
      end ].

Ltac frame_begin fp s :=
  apply (writes_only_bind _ (fun st => state_file_of st = get_state_file_path fp s));
    [apply writes_only_begin_running|apply returns_begin_running|];
    let st := fresh "st" in let Hst := fresh "Hst" in
    intros st Hst; rewrite <- Hst.

Lemma writes_only_extraction_body self fp :
  writes_only (get_state_file_path fp EXTRACT_AUDIO) (extraction_body self fp).
Proof.
  unfold extraction_body. apply writes_only_seq; [frame_step|]. intros state.
  destruct (is_completed state); [frame_step|].
  frame_begin fp EXTRACT_AUDIO.
  apply writes_only_seq; [frame_step|]. intros v.
  destruct (py_truthy v); [apply writes_only_complete_with|apply writes_only_fail_with].
Qed.

Lemma writes_only_vad_body self fp :
  writes_only (get_state_file_path fp VAD_SEGMENTATION) (vad_body self fp).
Proof.
  unfold vad_body. apply writes_only_seq; [frame_step|]. intros state.
  destruct (is_completed state); [frame_step|].
  apply writes_only_seq; [frame_step|]. intros [es|]; [|frame_step].
  destruct (String.eqb (status es) "completed"); [|frame_step].
  frame_begin fp VAD_SEGMENTATION.
  apply writes_only_seq; [frame_step|]. intros v.
  destruct v; first [apply writes_only_complete_with|apply writes_only_fail_with].
Qed.

Lemma writes_only_transcription_body self device fp :
  writes_only (get_state_file_path fp TRANSCRIPTION) (transcription_body self device fp).
Proof.
  unfold transcription_body. apply writes_only_seq; [frame_step|]. intros state.
  destruct (is_completed state); [frame_step|].
  apply writes_only_seq; [frame_step|]. intros [vs|]; [|frame_step].
  destruct (String.eqb (status vs) "completed"); [|frame_step].
  frame_begin fp TRANSCRIPTION.
  apply writes_only_seq; [frame_step|]. intros total.
  apply writes_only_seq; [frame_step|]. intros paths.
  destruct (transcribe_segments_frame self device total paths 0 st []) as [Hw Hr].
  apply (writes_only_bind _ _ _ _ Hw Hr). intros p Hp. rewrite <- Hp.
  apply writes_only_complete_with.
Qed.

Lemma writes_only_alignment_body self fp :
  writes_only (get_state_file_path fp ALIGNMENT) (alignment_body self fp).
Proof.
  unfold alignment_body. apply writes_only_seq; [frame_step|]. intros state.
  destruct (is_completed state); [frame_step|].
  apply writes_only_seq; [frame_step|]. intros ts.
  apply writes_only_seq; [frame_step|]. intros au.
  destruct ts as [ts|]; [|frame_step]. destruct au as [au|]; [|frame_step].
  destruct (String.eqb (status ts) "completed"); [|frame_step].
  frame_begin fp ALIGNMENT.
  apply writes_only_seq; [frame_step|]. intros items.
  apply writes_only_seq; [frame_step|]. intros p.
  apply writes_only_seq; [frame_step|]. intros v.
  destruct (py_truthy v); [apply writes_only_complete_with|apply writes_only_fail_with].
Qed.

Lemma writes_only_diarization_body self fp :
  writes_only (get_state_file_path fp DIARIZATION) (diarization_body self fp).
Proof.
  unfold diarization_body. cbv zeta.
  destruct (negb _); [frame_step|].
  apply writes_only_seq; [frame_step|]. intros state.
  destruct (is_completed state); [frame_step|].
  apply writes_only_seq; [frame_step|]. intros [au|]; [|frame_step].
  destruct (String.eqb (status au) "completed"); [|frame_step].
  frame_begin fp DIARIZATION.
  apply writes_only_seq; [frame_step|]. intros v.
  destruct (py_truthy v); [|apply writes_only_fail_with].
  apply writes_only_seq; [frame_step|]. intros segs.
  apply writes_only_seq; [frame_step|]. intros dicts.
  apply writes_only_complete_with.
Qed.

Lemma writes_only_merge_body self fp :
  writes_only (get_state_file_path fp MERGE_SEGMENTS) (merge_body self fp).
Proof.
  unfold merge_body. apply writes_only_seq; [frame_step|]. intros state.
  destruct (is_completed state); [frame_step|].
  apply writes_only_seq; [frame_step|]. intros als.
  apply writes_only_seq; [frame_step|]. intros ds.
  destruct als as [als|]; [|frame_step].
  destruct (String.eqb (status als) "completed"); [|frame_step].
  frame_begin fp MERGE_SEGMENTS. cbv zeta.
  apply writes_only_seq; [frame_step|]. intros final.
  apply writes_only_complete_with.
Qed.

Lemma writes_only_export_body self fp :
  writes_only (get_state_file_path fp EXPORT) (export_body self fp).
Proof.
  unfold export_body. apply writes_only_seq; [frame_step|]. intros [ms|]; [|frame_step].
  destruct (String.eqb (status ms) "completed"); [|frame_step].
  apply writes_only_seq; [frame_step|]. intros t.
  apply writes_only_seq.
  { apply (writes_only_save_state (mkState fp EXPORT "completed" 1 (result ms) None t)). }
  intros _. apply writes_only_seq; [frame_step|]. intros _. frame_step.
Qed.

Lemma worker_turn_frame (q : ProcessingStage) (body : string -> M unit) (msg : string)
  (name : string -> string) (w : world) :
  (forall fp, writes_only (name fp) (body fp)) ->
  match queues w q with
  | Some fp :: _ =>
      forall n, n <> name fp -> states_dir (snd (worker_turn q body msg w)) !! n
                                = states_dir w !! n
  | _ => states_dir (snd (worker_turn q body msg w)) = states_dir w
  end.
Proof.
  intros Hb. unfold worker_turn.
  destruct (queues w q) as [|[fp|] rest]; [reflexivity| |reflexivity].
  intros n Hn. specialize (Hb fp (queue_set q rest w) n Hn).
  destruct (body fp (queue_set q rest w)) as [[u|e] w2]; exact Hb.
Qed.

Lemma worker_of_frame (self : StreamingPipeline) (s : ProcessingStage) (w : world) :
  match queues w s with
  | Some fp :: _ =>
      forall n, n <> get_state_file_path fp s ->
                states_dir (snd (worker_of s self w)) !! n = states_dir w !! n
  | _ => states_dir (snd (worker_of s self w)) = states_dir w
  end.
Proof.
  destruct s; unfold worker_of.
  - apply (worker_turn_frame _ _ _ (fun fp => get_state_file_path fp EXTRACT_AUDIO)).
    intros fp. apply writes_only_extraction_body.
  - apply (worker_turn_frame _ _ _ (fun fp => get_state_file_path fp VAD_SEGMENTATION)).
    intros fp. apply writes_only_vad_body.
  - unfold _transcription_worker.
    destruct (transcription_worker_device self) as [device|e].
    + apply (worker_turn_frame _ _ _ (fun fp => get_state_file_path fp TRANSCRIPTION)).
      intros fp. apply writes_only_transcription_body.
    + simpl. by destruct (queues w TRANSCRIPTION) as [|[fp|] rest].
  - apply (worker_turn_frame _ _ _ (fun fp => get_state_file_path fp ALIGNMENT)).
    intros fp. apply writes_only_alignment_body.
  - apply (worker_turn_frame _ _ _ (fun fp => get_state_file_path fp DIARIZATION)).
    intros fp. apply writes_only_diarization_body.
  - apply (worker_turn_frame _ _ _ (fun fp => get_state_file_path fp MERGE_SEGMENTS)).
    intros fp. apply writes_only_merge_body.
  - apply (worker_turn_frame _ _ _ (fun fp => get_state_file_path fp EXPORT)).
    intros fp. apply writes_only_export_body.
Qed.

(** X20. A turn of a worker changes at most one record: that of its own
    stage for the file whose token it took. Whatever the collaborators
    return or raise, whatever the disk refuses and whatever the store
    holds, the record of every other stage of the file and every record of
    every other file is after the turn what it was before. A turn that
    finds its queue empty or takes a shutdown signal writes nothing. *)
Theorem turn_writes_own_record_only (self : StreamingPipeline) (s : ProcessingStage)
  (w : world) :
  let w' := snd (worker_of s self w) in
  match queues w s with
  | Some fp :: _ =>
      forall fp' s', (fp', s') <> (fp, s) -> stored fp' s' w' = stored fp' s' w
  | _ => states_dir w' = states_dir w
  end.
Proof.
  intros w'. pose proof (worker_of_frame self s w) as H. fold w' in H.
  destruct (queues w s) as [|[fp|] rest]; [exact H| |exact H].
  intros fp' s' Hne. unfold stored. rewrite H; [reflexivity|].
  intros E. apply get_state_file_path_pair_inj in E as [-> ->]. by apply Hne.
Qed.

Lemma keeps_queues_bind {A B} (P : A -> Prop) (m : M A) (k : A -> M B) :
  keeps_queues m -> returns P m -> (forall a, P a -> keeps_queues (k a)) ->
  keeps_queues (M_bind m k).
Proof.
  intros Hm Hp Hk w q. specialize (Hm w q). specialize (Hp w).
  unfold M_bind. destruct (m w) as [[a|e] w1]; simpl in *; [|exact Hm].
  rewrite (Hk a (Hp a eq_refl) w1 q). exact Hm.
Qed.

Lemma keeps_queues_seq {A B} (m : M A) (k : A -> M B) :
  keeps_queues m -> (forall a, keeps_queues (k a)) -> keeps_queues (M_bind m k).
Proof.
  intros Hm Hk. apply (keeps_queues_bind (fun _ => True) m k Hm); [done|].
  intros a _. apply Hk.
Qed.

Lemma puts_at_most_keeps {A} q item (m : M A) : keeps_queues m -> puts_at_most q item m.
Proof. intros H w. left. intros q'. apply H. Qed.

Lemma puts_at_most_bind {A B} q item (P : A -> Prop) (m : M A) (k : A -> M B) :
  keeps_queues m -> returns P m -> (forall a, P a -> puts_at_most q item (k a)) ->
  puts_at_most q item (M_bind m k).
Proof.
  intros Hm Hp Hk w. pose proof (Hm w) as Hq. specialize (Hp w).
  unfold M_bind. destruct (m w) as [[a|e] w1]; simpl in *; [|by left].
  destruct (Hk a (Hp a eq_refl) w1) as [H|[H1 H2]].
  - left. intros q'. by rewrite H, Hq.
  - right. split; [by rewrite H1, Hq|]. intros q' Hne. by rewrite H2, Hq.
Qed.

Lemma puts_at_most_seq {A B} q item (m : M A) (k : A -> M B) :
  keeps_queues m -> (forall a, puts_at_most q item (k a)) ->
  puts_at_most q item (M_bind m k).
Proof.
  intros Hm Hk. apply (puts_at_most_bind q item (fun _ => True) m k Hm); [done|].
  intros a _. apply Hk.
Qed.

Lemma puts_at_most_queue_put q item : puts_at_most q item (queue_put q item).
Proof.
  intros w. right. unfold queue_put, modify. cbn [snd].
  split; [apply queues_queue_set_eq|]. intros q' Hne. by apply queues_queue_set_ne.
Qed.

Lemma keeps_queues_pure {A} (m : M A) :
  (forall w, queues (snd (m w)) = queues w) -> keeps_queues m.
Proof. intros H w q. by rewrite H. Qed.

Lemma keeps_queues_ret {A} (a : A) : keeps_queues (M_ret a).
Proof. by apply keeps_queues_pure. Qed.
Lemma keeps_queues_time_time : keeps_queues time_time.
Proof. by apply keeps_queues_pure. Qed.
Lemma keeps_queues_lift {A} (r : res A) : keeps_queues (lift r).
Proof. by apply keeps_queues_pure. Qed.
Lemma keeps_queues_logger_error (msg : string) : keeps_queues (logger_error msg).
Proof. by apply keeps_queues_pure. Qed.
Lemma keeps_queues_invoke c r : keeps_queues (invoke c r).
Proof.
  apply keeps_queues_pure. intros w. unfold invoke, M_bind, emit, modify, lift. by destruct r.
Qed.
Lemma keeps_queues_notify_progress self st : keeps_queues (notify_progress self st).
Proof.
  apply keeps_queues_pure. intros w. unfold notify_progress.
  by destruct (progress_callback self).
Qed.
Lemma keeps_queues_notify_completion self fp r : keeps_queues (notify_completion self fp r).
Proof.
  apply keeps_queues_pure. intros w. unfold notify_completion.
  by destruct (completion_callback self).
Qed.
Lemma keeps_queues_load_state fp s : keeps_queues (load_state fp s).
Proof. apply keeps_queues_pure. intros w. by rewrite load_state_spec. Qed.
Lemma keeps_queues_save_state st : keeps_queues (save_state st).
Proof.
  apply keeps_queues_pure. intros w.
  by destruct (save_state_run st w) as [E|[E|E]]; rewrite E.
Qed.

Lemma keeps_queues_begin_running self fp s : keeps_queues (begin_running self fp s).
Proof.
  unfold begin_running. apply keeps_queues_seq; [apply keeps_queues_time_time|]. intros t.
  apply keeps_queues_seq; [apply keeps_queues_save_state|]. intros _.
  apply keeps_queues_seq; [apply keeps_queues_notify_progress|]. intros _.
  apply keeps_queues_ret.
Qed.

Lemma returns_begin_running_file self fp s :
  returns (fun st => file_path st = fp) (begin_running self fp s).
Proof.
  intros w a. unfold begin_running. rewrite bind_time_time.
  unfold M_bind. pose proof (save_state_returns (running_state fp s (clock w)) w) as H.
  destruct (save_state (running_state fp s (clock w)) w) as [[u|e] w1]; simpl in H;
    [|discriminate].
  rewrite notify_progress_run. simpl. intros E. by injection E as <-.
Qed.

Lemma keeps_queues_fail_with self state err : keeps_queues (fail_with self state err).
Proof.
  unfold fail_with. apply keeps_queues_seq; [apply keeps_queues_time_time|]. intros t.
  apply keeps_queues_seq; [apply keeps_queues_save_state|]. intros _.
  apply keeps_queues_notify_progress.
Qed.

Lemma puts_at_most_complete_with self state r next :
  puts_at_most next (Some (file_path state)) (complete_with self state r next).
Proof.
  unfold complete_with. apply puts_at_most_seq; [apply keeps_queues_time_time|]. intros t.
  apply puts_at_most_seq; [apply keeps_queues_save_state|]. intros _.
  apply puts_at_most_seq; [apply keeps_queues_notify_progress|]. intros _.
  apply (puts_at_most_queue_put next (Some (file_path state))).
Qed.

Lemma transcribe_segments_queues self device total (paths : list pyval) :
  forall i state acc,
    keeps_queues (transcribe_segments self device total i paths state acc) /\
    returns (fun p => file_path (fst p) = file_path state)
      (transcribe_segments self device total i paths state acc).
Proof.
  induction paths as [|p paths IH]; intros i state acc.
  - split; [apply keeps_queues_ret|]. intros w a E. by injection E as <-.
  - cbn [transcribe_segments]. cbv zeta.
    set (st1 := set_progress (float_of_nat i / float_of_nat total) state).
    split.
    + apply keeps_queues_seq; [apply keeps_queues_save_state|]. intros _.
      apply keeps_queues_seq; [apply keeps_queues_notify_progress|]. intros _.
      apply keeps_queues_seq; [apply keeps_queues_invoke|]. intros r.
      apply (IH (S i) st1).
    + intros w a. unfold M_bind.
      destruct (save_state st1 w) as [[u|e] w1]; simpl; [|discriminate].
      rewrite notify_progress_run.
      destruct (transcribe self device p _) as [r0|e0]; simpl; [|discriminate].
      intros E. exact (proj2 (IH (S i) st1 _) _ a E).
Qed.

Ltac queues_step :=
  first
    [ apply puts_at_most_queue_put
    | apply puts_at_most_keeps;
      first [ apply keeps_queues_ret | apply keeps_queues_logger_error
            | apply keeps_queues_fail_with ]
    | apply keeps_queues_load_state | apply keeps_queues_lift | apply keeps_queues_invoke
    | apply keeps_queues_time_time | apply keeps_queues_notify_progress
    | apply keeps_queues_save_state ].

Ltac queues_begin fp s :=
  apply (puts_at_most_bind _ _ (fun st => file_path st = fp));
    [apply keeps_queues_begin_running|apply returns_begin_running_file|];
    let st := fresh "st" in let Hst := fresh "Hst" in
    intros st Hst; rewrite <- Hst.

Lemma puts_at_most_extraction_body self fp :
  puts_at_most VAD_SEGMENTATION (Some fp) (extraction_body self fp).
Proof.
  unfold extraction_body. apply puts_at_most_seq; [queues_step|]. intros state.
  destruct (is_completed state); [queues_step|].
  queues_begin fp EXTRACT_AUDIO.
  apply puts_at_most_seq; [queues_step|]. intros v.
  destruct (py_truthy v); [apply puts_at_most_complete_with|queues_step].
Qed.

Lemma puts_at_most_vad_body self fp :
  puts_at_most TRANSCRIPTION (Some fp) (vad_body self fp).
Proof.
  unfold vad_body. apply puts_at_most_seq; [queues_step|]. intros state.
  destruct (is_completed state); [queues_step|].
  apply puts_at_most_seq; [queues_step|]. intros [es|]; [|queues_step].
  destruct (String.eqb (status es) "completed"); [|queues_step].
  queues_begin fp VAD_SEGMENTATION.
  apply puts_at_most_seq; [queues_step|]. intros v.
  destruct v; first [apply puts_at_most_complete_with|queues_step].
Qed.

Lemma puts_at_most_transcription_body self device fp :
  puts_at_most ALIGNMENT (Some fp) (transcription_body self device fp).
Proof.
  unfold transcription_body. apply puts_at_most_seq; [queues_step|]. intros state.
  destruct (is_completed state); [queues_step|].
  apply puts_at_most_seq; [queues_step|]. intros [vs|]; [|queues_step].
  destruct (String.eqb (status vs) "completed"); [|queues_step].
  queues_begin fp TRANSCRIPTION.
  apply puts_at_most_seq; [queues_step|]. intros total.
  apply puts_at_most_seq; [queues_step|]. intros paths.
  destruct (transcribe_segments_queues self device total paths 0 st []) as [Hw Hr].
  apply (puts_at_most_bind _ _ _ _ _ Hw Hr). intros p Hp. rewrite <- Hp.
  apply puts_at_most_complete_with.
Qed.

Lemma puts_at_most_alignment_body self fp :
  puts_at_most DIARIZATION (Some fp) (alignment_body self fp).
Proof.
  unfold alignment_body. apply puts_at_most_seq; [queues_step|]. intros state.
  destruct (is_completed state); [queues_step|].
  apply puts_at_most_seq; [queues_step|]. intros ts.
  apply puts_at_most_seq; [queues_step|]. intros au.
  destruct ts as [ts|]; [|queues_step]. destruct au as [au|]; [|queues_step].
  destruct (String.eqb (status ts) "completed"); [|queues_step].
  queues_begin fp ALIGNMENT.
  apply puts_at_most_seq; [queues_step|]. intros items.
  apply puts_at_most_seq; [queues_step|]. intros p.
  apply puts_at_most_seq; [queues_step|]. intros v.
  destruct (py_truthy v); [apply puts_at_most_complete_with|queues_step].
Qed.

Lemma puts_at_most_diarization_body self fp :
  puts_at_most MERGE_SEGMENTS (Some fp) (diarization_body self fp).
Proof.
  unfold diarization_body. cbv zeta.
  destruct (negb _); [queues_step|].
  apply puts_at_most_seq; [queues_step|]. intros state.
  destruct (is_completed state); [queues_step|].
  apply puts_at_most_seq; [queues_step|]. intros [au|]; [|queues_step].
  destruct (String.eqb (status au) "completed"); [|queues_step].
  queues_begin fp DIARIZATION.
  apply puts_at_most_seq; [queues_step|]. intros v.
  destruct (py_truthy v); [|queues_step].
  apply puts_at_most_seq; [queues_step|]. intros segs.
  apply puts_at_most_seq; [queues_step|]. intros dicts.
  apply puts_at_most_complete_with.
Qed.

Lemma puts_at_most_merge_body self fp :
  puts_at_most EXPORT (Some fp) (merge_body self fp).
Proof.
  unfold merge_body. apply puts_at_most_seq; [queues_step|]. intros state.
  destruct (is_completed state); [queues_step|].
  apply puts_at_most_seq; [queues_step|]. intros als.
  apply puts_at_most_seq; [queues_step|]. intros ds.
  destruct als as [als|]; [|queues_step].
  destruct (String.eqb (status als) "completed"); [|queues_step].
  queues_begin fp MERGE_SEGMENTS. cbv zeta.
  apply puts_at_most_seq; [queues_step|]. intros final.
  apply puts_at_most_complete_with.
Qed.

Lemma keeps_queues_export_body self fp : keeps_queues (export_body self fp).
Proof.
  unfold export_body. apply keeps_queues_seq; [apply keeps_queues_load_state|].
  intros [ms|]; [|apply keeps_queues_logger_error].
  destruct (String.eqb (status ms) "completed"); [|apply keeps_queues_logger_error].
  apply keeps_queues_seq; [apply keeps_queues_time_time|]. intros t.
  apply keeps_queues_seq; [apply keeps_queues_save_state|]. intros _.
  apply keeps_queues_seq; [apply keeps_queues_notify_progress|]. intros _.
  apply keeps_queues_notify_completion.
Qed.

Lemma worker_turn_queues (q next : ProcessingStage) (body : string -> M unit) (msg : string)
  (w : world) (fp : string) (rest : list (option string)) :
  queues w q = Some fp :: rest ->
  next <> q ->
  puts_at_most next (Some fp) (body fp) ->
  let w' := snd (worker_turn q body msg w) in
  queues w' q = rest /\
  ((forall q', q' <> q -> queues w' q' = queues w q') \/
   (queues w' next = queues w next ++ [Some fp] /\
    forall q', q' <> q -> q' <> next -> queues w' q' = queues w q')).
Proof.
  intros Hq Hne Hb w'. unfold w'. rewrite (worker_turn_token _ _ _ _ _ _ Hq).
  specialize (Hb (queue_set q rest w)).
  assert (E : forall r : res unit * world,
             queues (snd match r with
                         | (Ok _, w2) => (Continue, w2)
                         | (Raise _, w2) => (Continue, log_event (EvLogError msg) w2)
                         end) = queues (snd r))
    by (by intros [[u|e] w2]).
  rewrite E. destruct Hb as [H|[H1 H2]].
  - split; [rewrite H; apply queues_queue_set_eq|]. left.
    intros q' Hq'. rewrite H. by apply queues_queue_set_ne.
  - split; [rewrite H2 by congruence; apply queues_queue_set_eq|]. right.
    split; [rewrite H1; by rewrite queues_queue_set_ne by exact Hne|].
    intros q' Hq' Hn'. rewrite H2 by exact Hn'. by apply queues_queue_set_ne.
Qed.

(** X21. A turn that takes a token takes it off its own queue and puts it
    on at most one queue: on none, or once at the end of the queue of the
    next stage. Whatever the collaborators return or raise and whatever the
    store holds, no token is put twice, none goes backwards, and no other
    token is moved; the Export worker forwards nothing. *)
Theorem turn_forwards_at_most_once (self : StreamingPipeline) (s : ProcessingStage)
  (w : world) (fp : string) (rest : list (option string)) :
  queues w s = Some fp :: rest ->
  (s = TRANSCRIPTION -> gpu_devices self <> []) ->
  let w' := snd (worker_of s self w) in
  queues w' s = rest /\
  ((forall q, q <> s -> queues w' q = queues w q) \/
   (exists next,
      next_stage s = Some next /\
      queues w' next = queues w next ++ [Some fp] /\
      forall q, q <> s -> q <> next -> queues w' q = queues w q)).
Proof.
  intros Hq Hdev w'.
  assert (H : forall next body msg,
             worker_of s self w = worker_turn s body msg w ->
             next_stage s = Some next ->
             puts_at_most next (Some fp) (body fp) ->
             queues w' s = rest /\
             ((forall q, q <> s -> queues w' q = queues w q) \/
              (exists next,
                 next_stage s = Some next /\
                 queues w' next = queues w next ++ [Some fp] /\
                 forall q, q <> s -> q <> next -> queues w' q = queues w q))).
  { intros next body msg E Hn Hb. unfold w'. rewrite E.
    assert (Hne : next <> s)
      by (destruct s; simpl in Hn; try discriminate; by injection Hn as <-).
    destruct (worker_turn_queues s next body msg w fp rest Hq Hne Hb) as [H1 [H2|H2]].
    - split; [exact H1|by left].
    - split; [exact H1|]. right. by exists next. }
  destruct s.
  - apply (H VAD_SEGMENTATION (extraction_body self) "Error in extraction worker");
      [reflexivity|reflexivity|apply puts_at_most_extraction_body].
  - apply (H TRANSCRIPTION (vad_body self) "Error in VAD worker");
      [reflexivity|reflexivity|apply puts_at_most_vad_body].
  - destruct (transcription_worker_with_device self w (Hdev eq_refl)) as [device E].
    apply (H ALIGNMENT (transcription_body self device) "Error in transcription worker");
      [exact E|reflexivity|apply puts_at_most_transcription_body].
  - apply (H DIARIZATION (alignment_body self) "Error in alignment worker");
      [reflexivity|reflexivity|apply puts_at_most_alignment_body].
  - apply (H MERGE_SEGMENTS (diarization_body self) "Error in diarization worker");
      [reflexivity|reflexivity|apply puts_at_most_diarization_body].
  - apply (H EXPORT (merge_body self) "Error in merge worker");
      [reflexivity|reflexivity|apply puts_at_most_merge_body].
  - unfold w', worker_of, _export_worker. rewrite (worker_turn_token _ _ _ _ _ _ Hq).
    pose proof (keeps_queues_export_body self fp (queue_set EXPORT rest w)) as Hk.
    destruct (export_body self fp (queue_set EXPORT rest w)) as [[u|e] w2];
      cbn [snd] in Hk |- *; autorewrite with world.
    + split; [rewrite Hk; apply queues_queue_set_eq|]. left.
      intros q Hne. rewrite Hk. by apply queues_queue_set_ne.
    + split; [rewrite Hk; apply queues_queue_set_eq|]. left.
      intros q Hne. rewrite Hk. by apply queues_queue_set_ne.
Qed.

Lemma turn_forwards_at_most_once_witness :
  let w := extracted_world VAD_SEGMENTATION in
  let w' := snd (worker_of VAD_SEGMENTATION failing_vad_pipeline w) in
  queues w' VAD_SEGMENTATION = [] /\
  ((forall q, q <> VAD_SEGMENTATION -> queues w' q = queues w q) \/
   (exists next,
      next_stage VAD_SEGMENTATION = Some next /\
      queues w' next = queues w next ++ [Some "a.mp4"] /\
      forall q, q <> VAD_SEGMENTATION -> q <> next -> queues w' q = queues w q)).
Proof.
  apply (turn_forwards_at_most_once failing_vad_pipeline VAD_SEGMENTATION
           (extracted_world VAD_SEGMENTATION) "a.mp4" []).
  - reflexivity.
  - discriminate.
Defined.

(** ** The diarizer behind the Diarize stage *)

Lemma res_map_asdict_objects (tracks : list DiarizationSegment) :
  res_map asdict (map segment_object tracks) = Ok (map segment_dict tracks).
Proof. induction tracks as [|t l IH]; simpl; [reflexivity|]. by rewrite IH. Qed.

Lemma json_serializable_segment_dicts (tracks : list DiarizationSegment) :
  json_serializable (PyList (map segment_dict tracks)) = true.
Proof. induction tracks as [|t l IH]; simpl; [reflexivity|exact IH]. Qed.

(** X22. With [PyannoteDiarizer.diarize] behind it, the Diarize stage
    completes only when the diarization finds a turn. When the pyannote
    pipeline gives at least one turn, the worker stores a completed record
    whose result is one dict with start, end and speaker for each turn, in
    order, and forwards the token to the merge queue. When the pipeline
    raises, [diarize] returns [None]; when it finds no turn at all,
    [diarize] returns an empty list; in both cases the worker writes a
    failed record "Speaker diarization failed" and forwards nothing. *)
Theorem diarize_stage_with_pyannote
  (pipeline : pyval -> res (list DiarizationSegment)) (p : StreamingPipeline)
  (fp : string) (rest : list (option string)) (w : world) (au : ProcessingState) :
  let self := with_diarize (fun audio => Ok (pyannote_diarize pipeline audio)) p in
  queues w DIARIZATION = Some fp :: rest ->
  py_truthy (settings_get p "diarization" (PyBool true)) = true ->
  is_completed (stored fp DIARIZATION w) = false ->
  stored fp EXTRACT_AUDIO w = Some au ->
  status au = "completed" ->
  disk_fault w (get_state_file_path fp DIARIZATION) = false ->
  let w' := snd (_diarization_worker self w) in
  (forall tracks,
     pipeline (result au) = Ok tracks -> tracks <> [] ->
     stored fp DIARIZATION w'
     = Some (mkState fp DIARIZATION "completed" 1 (PyList (map segment_dict tracks)) None
               (clock w)) /\
     queues w' MERGE_SEGMENTS = queues w MERGE_SEGMENTS ++ [Some fp]) /\
  (pipeline (result au) = Ok [] \/ (exists e, pipeline (result au) = Raise e) ->
   stored fp DIARIZATION w'
   = Some (mkState fp DIARIZATION "failed" 0 PyNone (Some "Speaker diarization failed")
             (clock w)) /\
   queues w' MERGE_SEGMENTS = queues w MERGE_SEGMENTS).
Proof.
  intros self Hq Hen Hown Hau Hst Hd w'.
  assert (Hdue : due self DIARIZATION fp w = true).
  { unfold due. rewrite Hown, Hau. simpl. change (settings_get self) with (settings_get p).
    by rewrite Hen, Hst. }
  assert (Hin : DIARIZATION ∈ [EXTRACT_AUDIO; VAD_SEGMENTATION; ALIGNMENT; DIARIZATION])
    by (do 3 (apply elem_of_cons; right); apply elem_of_cons; by left).
  assert (Hans : collaborator_answer self DIARIZATION fp w
                 = Some (Ok (pyannote_diarize pipeline (result au))))
    by (simpl; by rewrite Hau).
  split.
  - intros tracks Ht Hne.
    assert (Ea : pyannote_diarize pipeline (result au) = PyList (map segment_object tracks))
      by (unfold pyannote_diarize; by rewrite Ht).
    rewrite Ea in Hans.
    destruct (turn_completed self DIARIZATION MERGE_SEGMENTS fp rest w
                (PyList (map segment_object tracks)) (PyList (map segment_dict tracks)))
      as [c Hc]; try done.
    + simpl. by destruct tracks.
    + simpl. by rewrite res_map_asdict_objects.
    + apply json_serializable_segment_dicts.
    + unfold w'. change (_diarization_worker self w) with (worker_of DIARIZATION self w).
      rewrite Hc. cbn [snd]. split; [|apply queues_queue_set_eq].
      autorewrite with world. by apply stored_put_record_eq.
  - intros Hfail.
    assert (Hv : failure_sentinel DIARIZATION (pyannote_diarize pipeline (result au)) = true).
    { unfold pyannote_diarize. by destruct Hfail as [->|[e ->]]. }
    destruct (turn_failed self DIARIZATION fp rest w _ Hin Hq Hdue Hans Hv Hd) as [c Hc].
    unfold w'. change (_diarization_worker self w) with (worker_of DIARIZATION self w).
    rewrite Hc. cbn [snd]. split; [apply stored_failed_world|].
    by apply queues_failed_world_ne.
Qed.

Lemma diarize_stage_with_pyannote_witness :
  let pipeline := fun _ : pyval => Ok ([] : list DiarizationSegment) in
  let self := with_diarize (fun audio => Ok (pyannote_diarize pipeline audio)) demo_pipeline in
  let w := extracted_world DIARIZATION in
  let w' := snd (_diarization_worker self w) in
  (forall tracks,
     pipeline (PyStr "temp/a_normalized.wav") = Ok tracks -> tracks <> [] ->
     stored "a.mp4" DIARIZATION w'
     = Some (mkState "a.mp4" DIARIZATION "completed" 1 (PyList (map segment_dict tracks)) None
               (clock w)) /\
     queues w' MERGE_SEGMENTS = queues w MERGE_SEGMENTS ++ [Some "a.mp4"]) /\
  (pipeline (PyStr "temp/a_normalized.wav") = Ok [] \/
   (exists e, pipeline (PyStr "temp/a_normalized.wav") = Raise e) ->
   stored "a.mp4" DIARIZATION w'
   = Some (mkState "a.mp4" DIARIZATION "failed" 0 PyNone (Some "Speaker diarization failed")
             (clock w)) /\
   queues w' MERGE_SEGMENTS = queues w MERGE_SEGMENTS).
Proof.
  intros pipeline.
  apply (diarize_stage_with_pyannote pipeline demo_pipeline "a.mp4" []
           (extracted_world DIARIZATION)
           (completed_record "a.mp4" EXTRACT_AUDIO (PyStr "temp/a_normalized.wav")));
    reflexivity.
Defined.

(** ** The editor that receives the result *)

Lemma word_of_fields (wd : pyval) (W : Editor.Word) :
  Editor.word_of wd = Some W ->
  exists kvs,
    wd = PyDict kvs /\
    Editor.text W = default (PyStr "") (dict_get String.eqb "word" kvs) /\
    Editor.start_time W = default (PyNum 0) (dict_get String.eqb "start" kvs) /\
    Editor.end_time W = default (PyNum 0) (dict_get String.eqb "end" kvs) /\
    Editor.speaker W = default (PyStr "UNKNOWN") (dict_get String.eqb "speaker" kvs).
Proof.
  unfold Editor.word_of, Editor.py_get.
  destruct wd as [| | | | |kvs|]; simpl; try discriminate.
  intros H. injection H as <-. exists kvs. simpl.
  split; [reflexivity|].
  repeat split; by destruct (dict_get String.eqb _ kvs).
Qed.

Lemma segment_of_words (i : nat) (f : pyval) (S : Editor.Segment) :
  Editor.segment_of i f = Some S ->
  Editor.id S = i /\
  Forall2 (fun wd W => Editor.word_of wd = Some W) (words_of f) (Editor.words S).
Proof.
  unfold Editor.segment_of. intros H.
  destruct (py_contains "words" f) as [has|] eqn:Ec; simpl in H; [|discriminate].
  assert (Hw : exists ws,
             (if has
              then ws0 ← Editor.of_res (py_getitem f "words");
                   (if py_truthy ws0
                    then l ← Editor.of_res (py_iter ws0); mapM Editor.word_of l
                    else Some [])
              else Some []) = Some ws /\
             Forall2 (fun wd W => Editor.word_of wd = Some W) (words_of f) ws /\
             Editor.words S = ws /\ Editor.id S = i).
  { destruct (if has then _ else _) as [ws|] eqn:Ew; simpl in H; [|discriminate].
    exists ws. split; [reflexivity|].
    destruct (Editor.py_get f "start" (PyNum 0)) as [a|]; simpl in H; [|discriminate].
    destruct (Editor.py_get f "end" (PyNum 0)) as [b|]; simpl in H; [|discriminate].
    destruct (Editor.py_get f "text" (PyStr "")) as [t|]; simpl in H; [|discriminate].
    injection H as <-. simpl. split; [|by split].
    destruct has.
    - unfold words_of.
      destruct (py_getitem f "words") as [ws0|] eqn:Eg; simpl in Ew; [|discriminate].
      destruct (py_truthy ws0) eqn:Et.
      + destruct (py_iter ws0) as [l|] eqn:Ei; simpl in Ew; [|discriminate].
        by apply mapM_Some in Ew.
      + injection Ew as <-.
        destruct ws0 as [| |x|str|l|kvs|]; simpl in Et |- *; try constructor;
          try discriminate.
        * apply negb_false_iff, String.eqb_eq in Et. subst str. constructor.
        * destruct l; [constructor|discriminate].
        * destruct kvs; [constructor|discriminate].
    - injection Ew as <-. unfold words_of.
      destruct f as [| | |str|l|kvs|]; simpl in Ec |- *; try discriminate; try constructor.
      injection Ec as Ec. unfold dict_has in Ec.
      destruct (dict_get String.eqb "words" kvs); [discriminate|constructor]. }
  destruct Hw as (ws & _ & Hf & <- & Hid). by split.
Qed.

Lemma segments_from_spec (l : list pyval) :
  forall (i : nat) (segs : list Editor.Segment),
    Editor.segments_from i l = Some segs ->
    map Editor.id segs = seq i (length l) /\
    Forall2 (fun f S => Forall2 (fun wd W => Editor.word_of wd = Some W)
                                (words_of f) (Editor.words S))
            l segs.
Proof.
  induction l as [|f l IH]; intros i segs H; simpl in H.
  - injection H as <-. by split.
  - destruct (Editor.segment_of i f) as [S|] eqn:Es; simpl in H; [|discriminate].
    destruct (Editor.segments_from (Datatypes.S i) l) as [rest|] eqn:Er; simpl in H;
      [|discriminate].
    injection H as <-. destruct (IH _ _ Er) as [Hids Hall].
    destruct (segment_of_words i f S Es) as [Hid Hw].
    split; [simpl; by rewrite Hid, Hids|by constructor].
Qed.

(** X23. What the main window hands to the editor for a Merge result: one
    segment for each merged segment, numbered from 0 in order, with one
    word for each word of the merged segment, in order. Every word comes
    with the speaker that the merge chose for it, the label of the first
    interval of the timeline that holds the midpoint of the word, or
    "UNKNOWN" when none does; the default speaker of the window is never
    what fills it in. *)
Theorem editor_words_carry_merged_speakers (aligned diar final : pyval)
  (segs : list Editor.Segment) :
  perform_merge aligned diar = Ok final ->
  Editor.segments_to_load final = Some segs ->
  exists dsegs timeline fs,
    py_iter diar = Ok dsegs /\
    speaker_timeline dsegs [] = Ok timeline /\
    final = PyList fs /\
    map Editor.id segs = seq 0 (length fs) /\
    Forall2
      (fun f S =>
         Forall2
           (fun wd W =>
              exists m,
                word_mid_point wd = Ok m /\
                py_getitem wd "speaker" = Ok (Editor.speaker W) /\
                first_containing m timeline (Editor.speaker W))
           (words_of f) (Editor.words S))
      fs segs.
Proof.
  intros Hm Hl.
  destruct (perform_merge_first_containing aligned diar final Hm)
    as (dsegs & timeline & fs & Hd & Ht & -> & Hwords).
  exists dsegs, timeline, fs. split; [exact Hd|]. split; [exact Ht|].
  split; [reflexivity|].
  assert (Hspec : map Editor.id segs = seq 0 (length fs) /\
                  Forall2 (fun f S => Forall2 (fun wd W => Editor.word_of wd = Some W)
                                              (words_of f) (Editor.words S))
                          fs segs).
  { unfold Editor.segments_to_load in Hl. destruct fs as [|f fs'].
    - simpl in Hl. injection Hl as <-. by split.
    - change (Editor.segments_from 0 (f :: fs') = Some segs) in Hl.
      by apply segments_from_spec in Hl. }
  destruct Hspec as [Hids Hall]. split; [exact Hids|].
  assert (Hmem : forall f, f ∈ fs -> forall wd, wd ∈ words_of f ->
             exists m sp, word_mid_point wd = Ok m /\ py_getitem wd "speaker" = Ok sp /\
                          first_containing m timeline sp)
    by (intros f Hf wd Hwd; by apply (Hwords f wd)).
  clear Hwords Hm Hl Hids.
  induction Hall as [|f S fs' segs' Hfs Hrest IH]; [constructor|].
  constructor.
  - assert (Hf : forall wd, wd ∈ words_of f ->
               exists m sp, word_mid_point wd = Ok m /\ py_getitem wd "speaker" = Ok sp /\
                            first_containing m timeline sp)
      by (intros wd Hwd; apply (Hmem f); [apply elem_of_cons; by left|exact Hwd]).
    clear Hmem IH Hrest.
    induction Hfs as [|wd W ws Ws HW Hws IHw]; [constructor|].
    constructor.
    + destruct (Hf wd) as (m & sp & H1 & H2 & H3); [apply elem_of_cons; by left|].
      destruct (word_of_fields wd W HW) as (kvs & -> & _ & _ & _ & Hsp).
      simpl in H2. destruct (dict_get String.eqb "speaker" kvs) as [v|] eqn:Ev;
        [|discriminate].
      injection H2 as <-. simpl in Hsp. rewrite Hsp.
      exists m. split; [exact H1|]. split; [simpl; by rewrite Ev|exact H3].
    + apply IHw. intros wd' Hwd'. apply Hf. apply elem_of_cons. by right.
  - apply IH. intros f' Hf'. apply Hmem. apply elem_of_cons. by right.
Qed.

Lemma editor_words_carry_merged_speakers_witness :
  exists dsegs timeline fs,
    py_iter (PyList [py_interval 0 3 "SPEAKER_00"]) = Ok dsegs /\
    speaker_timeline dsegs [] = Ok timeline /\
    demo_merged = PyList fs /\
    map Editor.id
      [Editor.mkSegment 0 (PyNum 0) (PyNum 0)
         [Editor.mkWord (PyStr "hi") (PyNum 1) (PyNum 2) (PyNum 0) (PyStr "SPEAKER_00") 0 0]
         (PyStr "hi")]
    = seq 0 (length fs) /\
    Forall2
      (fun f S =>
         Forall2
           (fun wd W =>
              exists m,
                word_mid_point wd = Ok m /\
                py_getitem wd "speaker" = Ok (Editor.speaker W) /\
                first_containing m timeline (Editor.speaker W))
           (words_of f) (Editor.words S))
      fs
      [Editor.mkSegment 0 (PyNum 0) (PyNum 0)
         [Editor.mkWord (PyStr "hi") (PyNum 1) (PyNum 2) (PyNum 0) (PyStr "SPEAKER_00") 0 0]
         (PyStr "hi")].
Proof.
  apply (editor_words_carry_merged_speakers demo_aligned
           (PyList [py_interval 0 3 "SPEAKER_00"]) demo_merged); reflexivity.
Defined.

(** ** The files of the sub-clips *)

Lemma uint_of_string_zeros (k : nat) (s : string) (d : Decimal.uint) :
  DecimalString.NilEmpty.uint_of_string s = Some d ->
  exists d', DecimalString.NilEmpty.uint_of_string (Vad.zeros k +:+ s) = Some d' /\
             Nat.of_uint d' = Nat.of_uint d.
Proof.
  intros H. induction k as [|k IH]; [by exists d|].
  destruct IH as (d' & E & Hd). exists (Decimal.D0 d').
  split; [|exact Hd].
  change (Vad.zeros (S k) +:+ s) with (String (Ascii.Ascii false false false false true true false false) (Vad.zeros k +:+ s)).
  cbn [DecimalString.NilEmpty.uint_of_string]. by rewrite E.
Qed.

Lemma format_04d_inj (i j : nat) : Vad.format_04d i = Vad.format_04d j -> i = j.
Proof.
  assert (H : forall n, exists d,
             DecimalString.NilEmpty.uint_of_string (Vad.format_04d n) = Some d /\
             Nat.of_uint d = n).
  { intros n. unfold Vad.format_04d. cbv zeta.
    destruct (uint_of_string_zeros
                (4 - String.length (DecimalString.NilEmpty.string_of_uint (Nat.to_uint n)))
                _ _ (DecimalString.NilEmpty.usu (Nat.to_uint n))) as (d & E & Hd).
    exists d. split; [exact E|]. rewrite Hd. apply DecimalNat.Unsigned.of_to. }
  intros E. destruct (H i) as (di & Ei & Hi). destruct (H j) as (dj & Ej & Hj).
  rewrite E, Ej in Ei. injection Ei as <-. congruence.
Qed.

Lemma string_app_inv_tail (a b c : string) : a +:+ c = b +:+ c -> a = b.
Proof.
  intros H. destruct (string_app_split _ _ _ _ H) as [(d & -> & Hd)|(d & -> & Hd)];
    apply string_app_self_inv in Hd; subst d; by rewrite string_app_nil_r.
Qed.

Lemma segment_file_name_inj (i j : nat) :
  Vad.segment_file_name i = Vad.segment_file_name j -> i = j.
Proof.
  unfold Vad.segment_file_name. intros H.
  apply string_app_inv_head in H. apply string_app_inv_tail in H.
  by apply format_04d_inj.
Qed.

Lemma write_segments_paths (vad : Vad.SileroVAD) (audio_data : pyval) (dir : string)
  (segments : list pyval) :
  forall (i : nat) (acc paths : list pyval),
    Vad.write_segments vad audio_data dir i segments acc = Ok paths ->
    paths = acc ++ map (fun k => PyStr (Vad.path_join vad dir (Vad.segment_file_name k)))
                       (seq i (length segments)).
Proof.
  induction segments as [|seg l IH]; intros i acc paths H; simpl in H.
  - injection H as <-. simpl. by rewrite app_nil_r.
  - destruct (Vad.cut_and_write vad audio_data seg _) as [u|e]; simpl in H; [|discriminate].
    rewrite (IH _ _ _ H). simpl. by rewrite <- app_assoc.
Qed.

Lemma segment_audio_paths (vad : Vad.SileroVAD) (audio_path : pyval) (dir : string)
  (paths : list pyval) :
  Vad.segment_audio vad audio_path dir = Ok (PyList paths) ->
  exists segments,
    Vad.detect_speech vad audio_path = Some segments /\
    paths = map (fun k => PyStr (Vad.path_join vad dir (Vad.segment_file_name k)))
                (seq 0 (length segments)).
Proof.
  unfold Vad.segment_audio. intros H.
  destruct (Vad.detect_speech vad audio_path) as [[|seg l]|] eqn:Ed; [| |discriminate].
  - injection H as <-. by exists [].
  - destruct (Vad.sf_read vad audio_path) as [data|e]; cbn [res_bind] in H; [|discriminate].
    destruct (Vad.makedirs vad dir) as [u|e]; cbn [res_bind] in H; [|discriminate].
    destruct (Vad.write_segments vad data dir 0 (seg :: l) []) as [ps|e] eqn:Ew;
      cbn [res_bind] in H; [|discriminate].
    injection H as <-. exists (seg :: l). split; [reflexivity|].
    by apply write_segments_paths in Ew.
Qed.

(** X24. The files that [segment_audio] writes are named by the output
    directory and the position of the segment alone: the list it returns
    for an audio file with [n] speech segments is
    [segment_0000.wav], [segment_0001.wav], ... in that directory. The
    pipeline gives every input file the same directory, so the lists of two
    input files agree at every position that both have: their sub-clips are
    the same files. Within one list the paths are all different, when the
    join of the directory with a name can be undone. *)
Theorem segment_paths_depend_on_position_only (vad : Vad.SileroVAD) (dir : string)
  (audio1 audio2 : pyval) (paths1 paths2 : list pyval) :
  Vad.segment_audio vad audio1 dir = Ok (PyList paths1) ->
  Vad.segment_audio vad audio2 dir = Ok (PyList paths2) ->
  (exists segments,
     Vad.detect_speech vad audio1 = Some segments /\
     paths1 = map (fun k => PyStr (Vad.path_join vad dir (Vad.segment_file_name k)))
                  (seq 0 (length segments))) /\
  (forall i p1 p2, paths1 !! i = Some p1 -> paths2 !! i = Some p2 -> p1 = p2) /\
  ((forall n1 n2, Vad.path_join vad dir n1 = Vad.path_join vad dir n2 -> n1 = n2) ->
   NoDup paths1).
Proof.
  intros H1 H2.
  destruct (segment_audio_paths vad audio1 dir paths1 H1) as (s1 & E1 & ->).
  destruct (segment_audio_paths vad audio2 dir paths2 H2) as (s2 & E2 & ->).
  split; [by exists s1|]. split.
  - intros i p1 p2 Hp1 Hp2.
    rewrite list_lookup_fmap in Hp1, Hp2.
    destruct (seq 0 (length s1) !! i) as [k1|] eqn:Ek1; [|discriminate].
    destruct (seq 0 (length s2) !! i) as [k2|] eqn:Ek2; [|discriminate].
    apply lookup_seq in Ek1 as [-> _]. apply lookup_seq in Ek2 as [-> _].
    simpl in Hp1, Hp2. congruence.
  - intros Hjoin. apply NoDup_fmap_2; [|apply NoDup_seq].
    intros k1 k2 E. injection E as E. by apply segment_file_name_inj, Hjoin.
Qed.

Lemma segment_paths_depend_on_position_only_witness :
  let vad := Vad.mkVad
               (fun audio => match audio with
                             | PyStr "temp/a.wav" => Some [PyDict []; PyDict []]
                             | _ => Some [PyDict []]
                             end)
               (fun _ => Ok PyNone) (fun _ => Ok tt) (fun _ _ _ => Ok tt)
               (fun dir name => dir +:+ "/" +:+ name) in
  let paths1 := [PyStr "segments/segment_0000.wav"; PyStr "segments/segment_0001.wav"] in
  let paths2 := [PyStr "segments/segment_0000.wav"] in
  (exists segments,
     Vad.detect_speech vad (PyStr "temp/a.wav") = Some segments /\
     paths1 = map (fun k => PyStr (Vad.path_join vad "segments" (Vad.segment_file_name k)))
                  (seq 0 (length segments))) /\
  (forall i p1 p2, paths1 !! i = Some p1 -> paths2 !! i = Some p2 -> p1 = p2) /\
  ((forall n1 n2, Vad.path_join vad "segments" n1 = Vad.path_join vad "segments" n2 ->
                  n1 = n2) ->
   NoDup paths1).
Proof.
  intros vad.
  apply (segment_paths_depend_on_position_only vad "segments"
           (PyStr "temp/a.wav") (PyStr "temp/b.wav")); reflexivity.
Defined.

(** ** A whole run *)

Lemma next_stage_ne (s next : ProcessingStage) : next_stage s = Some next -> s <> next.
Proof. destruct s; simpl; intros H; try discriminate; by injection H as <-. Qed.

Lemma stage_done_of_world (self : StreamingPipeline) (s next : ProcessingStage)
  (fp : string) (rest : list (option string)) (r : pyval) (w w0 : world) :
  next_stage s = Some next ->
  queues w s = Some fp :: rest ->
  queues w0 s = rest ->
  (forall q, q <> s -> queues w0 q = queues w q) ->
  (forall s', s' <> s -> stored fp s' w0 = stored fp s' w) ->
  disk_fault w0 = disk_fault w ->
  clock w0 = clock w ->
  stage_done s fp r w
    (queue_set next (queues w next ++ [Some fp])
       (notified self (mkState fp s "completed" 1 r None (clock w))
          (put_record (mkState fp s "completed" 1 r None (clock w)) w0))).
Proof.
  intros Hn Hq Hq0 Hqo Hs0 Hd0 Hc0. pose proof (next_stage_ne s next Hn) as Hne.
  unfold stage_done.
  split; [autorewrite with world; by apply stored_put_record_eq|].
  split.
  { intros s' Hs'. autorewrite with world.
    rewrite stored_put_record_ne; [by apply Hs0|reflexivity|simpl; congruence]. }
  split; [by autorewrite with world|]. split; [by autorewrite with world|].
  split.
  { rewrite queues_queue_set_ne by exact Hne. autorewrite with world.
    by rewrite Hq0, Hq. }
  intros q Hqs. destruct (decide (next_stage s = Some q)) as [E|E].
  - rewrite Hn in E. injection E as <-. apply queues_queue_set_eq.
  - rewrite queues_queue_set_ne by congruence. autorewrite with world.
    rewrite app_nil_r. by apply Hqo.
Qed.

Lemma stage_done_collaborator (self : StreamingPipeline) (s next : ProcessingStage)
  (fp : string) (rest : list (option string)) (w : world) (v r : pyval) :
  s ∈ [EXTRACT_AUDIO; VAD_SEGMENTATION; ALIGNMENT; DIARIZATION] ->
  next_stage s = Some next ->
  queues w s = Some fp :: rest ->
  due self s fp w = true ->
  collaborator_answer self s fp w = Some (Ok v) ->
  failure_sentinel s v = false ->
  recorded_result s v = Ok r ->
  json_serializable r = true ->
  disk_fault w (get_state_file_path fp s) = false ->
  stage_done s fp r w (snd (worker_of s self w)).
Proof.
  intros Hs Hn Hq Hdue Hans Hv Hr Hj Hd.
  destruct (turn_completed self s next fp rest w v r Hs Hn Hq Hdue Hans Hv Hr Hj Hd)
    as [c ->].
  cbn [snd]. apply (stage_done_of_world self s next fp rest r w); try assumption.
  - by autorewrite with world.
  - intros q Hne. autorewrite with world. by apply queues_started_ne.
  - intros s' Hne. autorewrite with world. by apply stored_started_ne.
  - by autorewrite with world.
  - by autorewrite with world.
Qed.

Lemma stage_done_transcription (self : StreamingPipeline) (device fp : string)
  (ds : list string) (rest : list (option string)) (w : world) (vs : ProcessingState)
  (paths : list pyval) (answer : pyval -> pyval) :
  gpu_devices self = device :: ds ->
  queues w TRANSCRIPTION = Some fp :: rest ->
  is_completed (stored fp TRANSCRIPTION w) = false ->
  stored fp VAD_SEGMENTATION w = Some vs ->
  status vs = "completed" ->
  result vs = PyList paths ->
  (forall p, p ∈ paths ->
     transcribe self device p (py_or_none (settings_get self "language" PyNone))
     = Ok (answer p)) ->
  json_serializable (PyList (kept_transcriptions answer paths)) = true ->
  disk_fault w (get_state_file_path fp TRANSCRIPTION) = false ->
  stage_done TRANSCRIPTION fp (PyList (kept_transcriptions answer paths)) w
    (snd (_transcription_worker self w)).
Proof.
  intros Hdev Hq Hown Hvs Hst Hres Hans Hj Hd.
  destruct (transcription_turn self device fp ds rest w vs paths answer
              Hdev Hq Hown Hvs Hst Hres Hans Hd)
    as (w2 & E & Hq2 & Hqo & Hc2 & Hd2 & Hs2).
  rewrite E, Hj. cbn [snd].
  by apply (stage_done_of_world self TRANSCRIPTION ALIGNMENT fp rest _ w w2).
Qed.

Lemma stage_done_merge (self : StreamingPipeline) (fp : string)
  (rest : list (option string)) (w : world) (als : ProcessingState) (final : pyval) :
  queues w MERGE_SEGMENTS = Some fp :: rest ->
  is_completed (stored fp MERGE_SEGMENTS w) = false ->
  stored fp ALIGNMENT w = Some als ->
  status als = "completed" ->
  perform_merge (result als) (diarization_segments_of fp w) = Ok final ->
  json_serializable final = true ->
  disk_fault w (get_state_file_path fp MERGE_SEGMENTS) = false ->
  stage_done MERGE_SEGMENTS fp final w (snd (_merge_worker self w)).
Proof.
  intros Hq Hown Hals Hst Hm Hj Hd.
  assert (E : _merge_worker self w
              = (Continue,
                 queue_set EXPORT (queues w EXPORT ++ [Some fp])
                   (notified self (mkState fp MERGE_SEGMENTS "completed" 1 final None (clock w))
                      (put_record
                         (mkState fp MERGE_SEGMENTS "completed" 1 final None (clock w))
                         (started self MERGE_SEGMENTS fp rest w))))).
  { unfold _merge_worker. rewrite (worker_turn_token _ _ _ _ _ _ Hq).
    unfold merge_body. load_step. rewrite Hown. cbv beta iota.
    load_step. load_step. rewrite Hals. cbv beta iota. rewrite Hst, String.eqb_refl.
    change (after_load fp DIARIZATION
              (after_load fp ALIGNMENT
                 (after_load fp MERGE_SEGMENTS (queue_set MERGE_SEGMENTS rest w))))
      with (after_loads fp (stage_loads MERGE_SEGMENTS) (queue_set MERGE_SEGMENTS rest w)).
    erewrite M_bind_ok by (by apply begin_running_started).
    fold (diarization_segments_of fp w). rewrite bind_lift, Hm. cbv beta iota.
    rewrite complete_with_ok; [|autorewrite with world; exact Hd|exact Hj].
    autorewrite with world. by rewrite queues_started_ne by discriminate. }
  rewrite E. cbn [snd].
  apply (stage_done_of_world self MERGE_SEGMENTS EXPORT fp rest final w); try done.
  - by autorewrite with world.
  - intros q Hne. by apply queues_started_ne.
  - intros s' Hne. by apply stored_started_ne.
  - by autorewrite with world.
  - by autorewrite with world.
Qed.

Lemma export_turn_world (self : StreamingPipeline) (fp : string)
  (rest : list (option string)) (w : world) (ms : ProcessingState) :
  queues w EXPORT = Some fp :: rest ->
  stored fp MERGE_SEGMENTS w = Some ms ->
  status ms = "completed" ->
  json_serializable (result ms) = true ->
  disk_fault w (get_state_file_path fp EXPORT) = false ->
  let state := mkState fp EXPORT "completed" 1 (result ms) None (clock w) in
  _export_worker self w
  = (Continue,
     (if completion_callback self then log_event (EvCompletion fp (result ms)) else id)
       (notified self state (put_record state (queue_set EXPORT rest w)))).
Proof.
  intros Hq Hms Hst Hj Hd state.
  assert (Hl : after_load fp MERGE_SEGMENTS (queue_set EXPORT rest w) = queue_set EXPORT rest w).
  { apply after_load_completed. autorewrite with world. rewrite Hms. simpl.
    by rewrite Hst. }
  unfold _export_worker. rewrite (worker_turn_token _ _ _ _ _ _ Hq).
  unfold export_body. load_step. rewrite Hms, Hl. cbv beta iota.
  rewrite Hst, String.eqb_refl. rewrite bind_time_time. autorewrite with world.
  rewrite bind_save_state_ok; [|autorewrite with world; exact Hd|exact Hj].
  rewrite bind_notify_progress. unfold notify_completion.
  by destruct (completion_callback self).
Qed.

Lemma only_on_find (s : ProcessingStage) (fp : string) (w : world) :
  only_on s fp w -> List.find (busy w) all_stages = Some s.
Proof.
  intros H. unfold all_stages, busy. cbn [List.find].
  rewrite !H. by destruct s.
Qed.

Lemma drain_step (n : nat) (self : StreamingPipeline) (s : ProcessingStage) (fp : string)
  (w : world) :
  only_on s fp w -> drain (S n) self w = drain n self (snd (worker_of s self w)).
Proof. intros H. cbn [drain]. by rewrite (only_on_find s fp w H). Qed.

Lemma drain_idle (n : nat) (self : StreamingPipeline) (w : world) :
  (forall q, queues w q = []) -> drain n self w = w.
Proof.
  intros H. destruct n; [reflexivity|]. cbn [drain].
  unfold all_stages, busy. cbn [List.find]. by rewrite !H.
Qed.

Lemma only_on_next (s next : ProcessingStage) (fp : string) (r : pyval) (w w' : world) :
  only_on s fp w -> stage_done s fp r w w' -> next_stage s = Some next ->
  only_on next fp w'.
Proof.
  intros Ho (_ & _ & _ & _ & Hown & Hoth) Hn q.
  pose proof (next_stage_ne s next Hn) as Hne.
  destruct (decide (q = s)) as [->|Hqs].
  - rewrite Hown, Ho. rewrite decide_True by reflexivity.
    by rewrite decide_False by exact Hne.
  - rewrite Hoth by exact Hqs. rewrite Ho, decide_False by exact Hqs.
    rewrite Hn. destruct (decide (q = next)) as [->|Hqn].
    + by rewrite decide_True.
    + rewrite decide_False; [reflexivity|congruence].
Qed.

Lemma start_processing_fresh (self : StreamingPipeline) (fp : string) (w0 : world) :
  (forall q, queues w0 q = []) ->
  disk_fault w0 (get_state_file_path fp EXTRACT_AUDIO) = false ->
  let w1 := snd (start_processing self fp w0) in
  only_on EXTRACT_AUDIO fp w1 /\
  is_completed (stored fp EXTRACT_AUDIO w1) = false /\
  (forall s, s <> EXTRACT_AUDIO -> stored fp s w1 = stored fp s w0) /\
  disk_fault w1 = disk_fault w0 /\
  clock w1 = clock w0 /\
  trace w1 = trace w0.
Proof.
  intros Hq Hd w1. unfold w1, start_processing. rewrite bind_time_time.
  rewrite bind_save_state_ok; [|exact Hd|reflexivity].
  unfold queue_put, modify. cbn [snd]. autorewrite with world.
  split.
  { intros q. destruct (decide (q = EXTRACT_AUDIO)) as [->|Hne].
    - by rewrite queues_queue_set_eq, Hq.
    - rewrite queues_queue_set_ne by exact Hne. autorewrite with world. apply Hq. }
  split; [by rewrite stored_put_record_eq|].
  split; [|by repeat split].
  intros s Hne. apply stored_put_record_ne; [reflexivity|simpl; congruence].
Qed.

(** The turns of a run in which every collaborator succeeds, from a world
    in which the token of the file waits for the Extract worker *)
Lemma run_from (self : StreamingPipeline) (fp device : string)
  (ds : list string) (w1 : world) (n : nat)
  (path aligned diarized intervals final : pyval) (paths : list pyval)
  (answer : pyval -> pyval) (prepared : list pyval * pyval) :
  only_on EXTRACT_AUDIO fp w1 ->
  is_completed (stored fp EXTRACT_AUDIO w1) = false ->
  (forall s, s <> EXTRACT_AUDIO -> stored fp s w1 = None) ->
  (forall s, disk_fault w1 (get_state_file_path fp s) = false) ->
  gpu_devices self = device :: ds ->
  py_truthy (settings_get self "diarization" (PyBool true)) = true ->
  process_audio_pipeline self fp = Ok path ->
  py_truthy path = true ->
  json_serializable path = true ->
  segment_audio self path = Ok (PyList paths) ->
  json_serializable (PyList paths) = true ->
  (forall p, p ∈ paths ->
     transcribe self device p (py_or_none (settings_get self "language" PyNone))
     = Ok (answer p)) ->
  json_serializable (PyList (kept_transcriptions answer paths)) = true ->
  prepare_alignment (kept_transcriptions answer paths) [] PyNone = Ok prepared ->
  align_words self (PyList (fst prepared)) path (snd prepared) = Ok aligned ->
  py_truthy aligned = true ->
  json_serializable aligned = true ->
  diarize self path = Ok diarized ->
  py_truthy diarized = true ->
  recorded_result DIARIZATION diarized = Ok intervals ->
  json_serializable intervals = true ->
  perform_merge aligned intervals = Ok final ->
  json_serializable final = true ->
  let wf := drain (7 + n) self w1 in
  let completed s r := Some (mkState fp s "completed" 1 r None (clock w1)) in
  stored fp EXTRACT_AUDIO wf = completed EXTRACT_AUDIO path /\
  stored fp VAD_SEGMENTATION wf = completed VAD_SEGMENTATION (PyList paths) /\
  stored fp TRANSCRIPTION wf
  = completed TRANSCRIPTION (PyList (kept_transcriptions answer paths)) /\
  stored fp ALIGNMENT wf = completed ALIGNMENT aligned /\
  stored fp DIARIZATION wf = completed DIARIZATION intervals /\
  stored fp MERGE_SEGMENTS wf = completed MERGE_SEGMENTS final /\
  stored fp EXPORT wf = completed EXPORT final /\
  (completion_callback self = true -> last (trace wf) = Some (EvCompletion fp final)) /\
  forall q, queues wf q = [].
Proof.
  intros O1 N1 F1 Hd0 Hdev Hen Hex Hext Hexj Hvad Hvadj Htr Htrj Hprep Hal Halt Halj
    Hdi Hdit Hdir Hdij Hme Hmej wf completed.
  assert (Hin : forall s, s ∈ [EXTRACT_AUDIO; VAD_SEGMENTATION; ALIGNMENT; DIARIZATION] <->
                          s = EXTRACT_AUDIO \/ s = VAD_SEGMENTATION \/ s = ALIGNMENT \/
                          s = DIARIZATION).
  { intros s. rewrite !elem_of_cons, elem_of_nil. tauto. }
  (* Extract *)
  set (w2 := snd (worker_of EXTRACT_AUDIO self w1)).
  assert (S1 : stage_done EXTRACT_AUDIO fp path w1 w2).
  { apply (stage_done_collaborator self EXTRACT_AUDIO VAD_SEGMENTATION fp [] w1 path path).
    - apply Hin. by left.
    - reflexivity.
    - by rewrite O1.
    - unfold due. by rewrite N1.
    - simpl. by rewrite Hex.
    - simpl. by rewrite Hext.
    - reflexivity.
    - exact Hexj.
    - apply Hd0. }
  pose proof (only_on_next _ _ _ _ _ _ O1 S1 eq_refl) as O2.
  destruct S1 as (R1 & F2 & D2 & C2 & _ & _).
  (* SegmentSpeech *)
  set (w3 := snd (worker_of VAD_SEGMENTATION self w2)).
  assert (S2 : stage_done VAD_SEGMENTATION fp (PyList paths) w2 w3).
  { apply (stage_done_collaborator self VAD_SEGMENTATION TRANSCRIPTION fp [] w2
             (PyList paths) (PyList paths)).
    - apply Hin. right. by left.
    - reflexivity.
    - by rewrite O2.
    - unfold due. rewrite F2, F1, R1 by discriminate. reflexivity.
    - simpl. rewrite R1. simpl. by rewrite Hvad.
    - reflexivity.
    - reflexivity.
    - exact Hvadj.
    - rewrite D2. apply Hd0. }
  pose proof (only_on_next _ _ _ _ _ _ O2 S2 eq_refl) as O3.
  destruct S2 as (R2 & F3 & D3 & C3 & _ & _).
  rewrite C2 in R2. rewrite D2 in D3. rewrite C2 in C3.
  (* Transcribe *)
  set (w4 := snd (worker_of TRANSCRIPTION self w3)).
  assert (S3 : stage_done TRANSCRIPTION fp (PyList (kept_transcriptions answer paths)) w3 w4).
  { apply (stage_done_transcription self device fp ds [] w3
             (mkState fp VAD_SEGMENTATION "completed" 1 (PyList paths) None (clock w1))
             paths answer); try assumption; try reflexivity.
    - by rewrite O3.
    - by rewrite F3, F2, F1 by discriminate.
    - rewrite D3. apply Hd0. }
  pose proof (only_on_next _ _ _ _ _ _ O3 S3 eq_refl) as O4.
  destruct S3 as (R3 & F4 & D4 & C4 & _ & _).
  rewrite C3 in R3. rewrite D3 in D4. rewrite C3 in C4.
  (* Align *)
  set (w5 := snd (worker_of ALIGNMENT self w4)).
  assert (E4 : stored fp EXTRACT_AUDIO w4 = completed EXTRACT_AUDIO path)
    by (by rewrite F4, F3 by discriminate).
  assert (S4 : stage_done ALIGNMENT fp aligned w4 w5).
  { apply (stage_done_collaborator self ALIGNMENT DIARIZATION fp [] w4 aligned aligned).
    - apply Hin. right. right. by left.
    - reflexivity.
    - by rewrite O4.
    - unfold due. rewrite F4, F3, F2, F1, R3, E4 by discriminate. reflexivity.
    - simpl. rewrite R3, E4. simpl. rewrite Hprep. simpl. by rewrite Hal.
    - simpl. by rewrite Halt.
    - reflexivity.
    - exact Halj.
    - rewrite D4. apply Hd0. }
  pose proof (only_on_next _ _ _ _ _ _ O4 S4 eq_refl) as O5.
  destruct S4 as (R4 & F5 & D5 & C5 & _ & _).
  rewrite C4 in R4. rewrite D4 in D5. rewrite C4 in C5.
  (* Diarize *)
  set (w6 := snd (worker_of DIARIZATION self w5)).
  assert (E5 : stored fp EXTRACT_AUDIO w5 = completed EXTRACT_AUDIO path)
    by (by rewrite F5 by discriminate).
  assert (S5 : stage_done DIARIZATION fp intervals w5 w6).
  { apply (stage_done_collaborator self DIARIZATION MERGE_SEGMENTS fp [] w5
             diarized intervals).
    - apply Hin. right. right. by right.
    - reflexivity.
    - by rewrite O5.
    - unfold due. rewrite F5, F4, F3, F2, F1, E5, Hen by discriminate. reflexivity.
    - simpl. rewrite E5. simpl. by rewrite Hdi.
    - simpl. by rewrite Hdit.
    - exact Hdir.
    - exact Hdij.
    - rewrite D5. apply Hd0. }
  pose proof (only_on_next _ _ _ _ _ _ O5 S5 eq_refl) as O6.
  destruct S5 as (R5 & F6 & D6 & C6 & _ & _).
  rewrite C5 in R5. rewrite D5 in D6. rewrite C5 in C6.
  (* Merge *)
  set (w7 := snd (worker_of MERGE_SEGMENTS self w6)).
  assert (S6 : stage_done MERGE_SEGMENTS fp final w6 w7).
  { apply (stage_done_merge self fp [] w6
             (mkState fp ALIGNMENT "completed" 1 aligned None (clock w1)) final);
      try assumption; try reflexivity.
    - by rewrite O6.
    - by rewrite F6, F5, F4, F3, F2, F1 by discriminate.
    - by rewrite F6 by discriminate.
    - unfold diarization_segments_of. rewrite R5. exact Hme.
    - rewrite D6. apply Hd0. }
  pose proof (only_on_next _ _ _ _ _ _ O6 S6 eq_refl) as O7.
  destruct S6 as (R6 & F7 & D7 & C7 & _ & _).
  rewrite C6 in R6. rewrite D6 in D7. rewrite C6 in C7.
  (* Export *)
  pose proof (export_turn_world self fp [] w7
                (mkState fp MERGE_SEGMENTS "completed" 1 final None (clock w1))
                ltac:(by rewrite O7) R6 eq_refl Hmej
                ltac:(rewrite D7; apply Hd0)) as E8.
  cbv zeta in E8. cbn [result] in E8. rewrite C7 in E8.
  set (w8 := snd (worker_of EXPORT self w7)).
  assert (Hw8 : w8 = snd (_export_worker self w7)) by reflexivity.
  rewrite E8 in Hw8. cbn [snd] in Hw8.
  assert (Q8 : forall q, queues w8 q = []).
  { intros q. rewrite Hw8. destruct (completion_callback self); unfold id;
      autorewrite with world;
      (destruct (decide (q = EXPORT)) as [->|Hne];
       [apply queues_queue_set_eq
       |rewrite queues_queue_set_ne by exact Hne; rewrite O7; by rewrite decide_False]). }
  assert (F8 : forall s, s <> EXPORT -> stored fp s w8 = stored fp s w7).
  { intros s Hne. rewrite Hw8. destruct (completion_callback self); unfold id;
      autorewrite with world;
      (rewrite stored_put_record_ne; [by autorewrite with world|reflexivity|simpl; congruence]). }
  assert (Hwf : wf = w8).
  { unfold wf. change (7 + n)%nat with (S (S (S (S (S (S (S n))))))).
    rewrite (drain_step _ _ _ _ _ O1). fold w2.
    rewrite (drain_step _ _ _ _ _ O2). fold w3.
    rewrite (drain_step _ _ _ _ _ O3). fold w4.
    rewrite (drain_step _ _ _ _ _ O4). fold w5.
    rewrite (drain_step _ _ _ _ _ O5). fold w6.
    rewrite (drain_step _ _ _ _ _ O6). fold w7.
    rewrite (drain_step _ _ _ _ _ O7). fold w8.
    by apply drain_idle. }
  rewrite Hwf.
  split; [by rewrite F8, F7, F6, F5, F4, F3 by discriminate|].
  split; [by rewrite F8, F7, F6, F5, F4 by discriminate|].
  split; [by rewrite F8, F7, F6, F5 by discriminate|].
  split; [by rewrite F8, F7, F6 by discriminate|].
  split; [by rewrite F8, F7 by discriminate|].
  split; [by rewrite F8 by discriminate|].
  split.
  { rewrite Hw8. destruct (completion_callback self); unfold id; autorewrite with world;
      by apply stored_put_record_eq. }
  split; [|exact Q8].
  intros Hcb. rewrite Hw8, Hcb. autorewrite with world. apply last_snoc.
Qed.


(** X25. A run in which every collaborator succeeds completes every stage.
    For a file that the store does not know, on a disk that takes the
    writes and with diarization on: when the preprocessor gives a path, the
    segmenter a list of sub-clips, the transcriber an answer for each, the
    aligner its segments and the diarizer its intervals, and all of these
    can go into JSON, then submitting the file and letting the workers take
    their turns until the queues are empty leaves a completed record for
    each of the seven stages. The Merge and the Export record hold the
    merge of the aligned segments with the intervals, the completion
    callback is called with it as the last thing that happens, and no token
    is left on a queue. And [process_file], with workers that take these
    turns while it sleeps for the first time, returns that merge at its
    second poll. *)
Theorem successful_run_completes_every_stage (self : StreamingPipeline) (fp device : string)
  (ds : list string) (w0 : world) (n : nat)
  (path aligned diarized intervals final : pyval) (paths : list pyval)
  (answer : pyval -> pyval) (prepared : list pyval * pyval) :
  (forall q, queues w0 q = []) ->
  (forall s, stored fp s w0 = None) ->
  (forall s, disk_fault w0 (get_state_file_path fp s) = false) ->
  gpu_devices self = device :: ds ->
  py_truthy (settings_get self "diarization" (PyBool true)) = true ->
  process_audio_pipeline self fp = Ok path ->
  py_truthy path = true ->
  json_serializable path = true ->
  segment_audio self path = Ok (PyList paths) ->
  json_serializable (PyList paths) = true ->
  (forall p, p ∈ paths ->
     transcribe self device p (py_or_none (settings_get self "language" PyNone))
     = Ok (answer p)) ->
  json_serializable (PyList (kept_transcriptions answer paths)) = true ->
  prepare_alignment (kept_transcriptions answer paths) [] PyNone = Ok prepared ->
  align_words self (PyList (fst prepared)) path (snd prepared) = Ok aligned ->
  py_truthy aligned = true ->
  json_serializable aligned = true ->
  diarize self path = Ok diarized ->
  py_truthy diarized = true ->
  recorded_result DIARIZATION diarized = Ok intervals ->
  json_serializable intervals = true ->
  perform_merge aligned intervals = Ok final ->
  json_serializable final = true ->
  let wf := drain (7 + n) self (snd (start_processing self fp w0)) in
  let completed s r := Some (mkState fp s "completed" 1 r None (clock w0)) in
  stored fp EXTRACT_AUDIO wf = completed EXTRACT_AUDIO path /\
  stored fp VAD_SEGMENTATION wf = completed VAD_SEGMENTATION (PyList paths) /\
  stored fp TRANSCRIPTION wf
  = completed TRANSCRIPTION (PyList (kept_transcriptions answer paths)) /\
  stored fp ALIGNMENT wf = completed ALIGNMENT aligned /\
  stored fp DIARIZATION wf = completed DIARIZATION intervals /\
  stored fp MERGE_SEGMENTS wf = completed MERGE_SEGMENTS final /\
  stored fp EXPORT wf = completed EXPORT final /\
  (completion_callback self = true -> last (trace wf) = Some (EvCompletion fp final)) /\
  (forall q, queues wf q = []) /\
  forall fuel,
    fst (process_file (2 + fuel) (drain (7 + n) self) self fp w0) = Ok (Some final).
Proof.
  intros Hq0 Hs0 Hd0 Hdev Hen Hex Hext Hexj Hvad Hvadj Htr Htrj Hprep Hal Halt Halj
    Hdi Hdit Hdir Hdij Hme Hmej wf completed.
  set (w1 := snd (start_processing self fp w0)).
  destruct (start_processing_fresh self fp w0 Hq0 (Hd0 EXTRACT_AUDIO))
    as (O1 & N1 & F1 & D1 & C1 & _). fold w1 in O1, N1, F1, D1, C1.
  assert (F1' : forall s, s <> EXTRACT_AUDIO -> stored fp s w1 = None)
    by (intros s Hne; rewrite F1 by exact Hne; apply Hs0).
  assert (D1' : forall s, disk_fault w1 (get_state_file_path fp s) = false)
    by (intros s; rewrite D1; apply Hd0).
  destruct (run_from self fp device ds w1 n path aligned diarized intervals final paths
              answer prepared O1 N1 F1' D1' Hdev Hen Hex Hext Hexj Hvad Hvadj Htr Htrj
              Hprep Hal Halt Halj Hdi Hdit Hdir Hdij Hme Hmej)
    as (B1 & B2 & B3 & B4 & B5 & B6 & B7 & B8 & B9).
  rewrite C1 in B1, B2, B3, B4, B5, B6, B7.
  split; [exact B1|]. split; [exact B2|]. split; [exact B3|]. split; [exact B4|].
  split; [exact B5|]. split; [exact B6|]. split; [exact B7|]. split; [exact B8|].
  split; [exact B9|].
  intros fuel. rewrite process_file_unfold. fold w1.
  set (w1' := after_load fp EXPORT w1).
  destruct (run_from self fp device ds w1' n path aligned diarized intervals final paths
              answer prepared O1 N1 F1' D1' Hdev Hen Hex Hext Hexj Hvad Hvadj Htr Htrj
              Hprep Hal Halt Halj Hdi Hdit Hdir Hdij Hme Hmej)
    as (_ & _ & _ & _ & _ & _ & P7 & _).
  change (clock w1') with (clock w1) in P7. rewrite C1 in P7.
  apply (wait_for_export_first_completed 1 (2 + fuel) (drain (7 + n) self) fp (clock w0) w1
           (mkState fp EXPORT "completed" 1 final None (clock w0))).
  - lia.
  - rewrite C1. unfold max_wait_time. lia.
  - intros j Hj. assert (j = 0)%nat as -> by lia. simpl.
    by rewrite F1' by discriminate.
  - simpl. unfold poll_step. fold w1'. exact P7.
  - reflexivity.
Qed.

Lemma successful_run_completes_every_stage_witness :
  let fp := "a.mp4" in
  let answer := fun _ : pyval =>
                  PyDict [("language", PyStr "en");
                          ("segments", PyList [PyDict [("text", PyStr "hi");
                                                       ("start", PyNum 1);
                                                       ("end", PyNum 2)]])] in
  let paths := [PyStr "segments/segment_0000.wav"] in
  let wf := drain 7 demo_pipeline (snd (start_processing demo_pipeline fp empty_world)) in
  let completed s r := Some (mkState fp s "completed" 1 r None 0) in
  stored fp EXTRACT_AUDIO wf = completed EXTRACT_AUDIO (PyStr "temp/a_normalized.wav") /\
  stored fp VAD_SEGMENTATION wf = completed VAD_SEGMENTATION (PyList paths) /\
  stored fp TRANSCRIPTION wf
  = completed TRANSCRIPTION (PyList (kept_transcriptions answer paths)) /\
  stored fp ALIGNMENT wf = completed ALIGNMENT demo_aligned /\
  stored fp DIARIZATION wf = completed DIARIZATION (PyList [py_interval 0 3 "SPEAKER_00"]) /\
  stored fp MERGE_SEGMENTS wf = completed MERGE_SEGMENTS demo_merged /\
  stored fp EXPORT wf = completed EXPORT demo_merged /\
  (completion_callback demo_pipeline = true ->
   last (trace wf) = Some (EvCompletion fp demo_merged)) /\
  (forall q, queues wf q = []) /\
  forall fuel,
    fst (process_file (2 + fuel) (drain 7 demo_pipeline) demo_pipeline fp empty_world)
    = Ok (Some demo_merged).
Proof.
  intros fp answer paths.
  apply (successful_run_completes_every_stage demo_pipeline "a.mp4" "cuda:0" ["cuda:1"]
           empty_world 0 (PyStr "temp/a_normalized.wav") demo_aligned
           (PyList [PyObject "DiarizationSegment"
                      [("start", PyNum 0); ("end", PyNum 3);
                       ("speaker", PyStr "SPEAKER_00")]])
           (PyList [py_interval 0 3 "SPEAKER_00"]) demo_merged paths answer
           ([PyDict [("text", PyStr "hi"); ("start", PyNum 1); ("end", PyNum 2)]],
            PyStr "en"));
    try reflexivity.
Defined.
